(** * openapi-zod: router, request extraction and OpenAPI document generator

    A shallow embedding of the TypeScript sources
    ([openapi_server.ts], [runtime/request.ts], [openapi_registry.ts],
    [openapi_endpoint.ts], [openapi_generator.ts], [zod.ts]) together with
    the properties stated about them. *)

From Stdlib Require Import ZArith Bool Ascii String List Lia.
From stdpp Require Import base option list strings pretty gmap.

Set Warnings "-register-all".

Local Open Scope string_scope.
Local Open Scope Z_scope.

(** ** JavaScript values *)

Module Js.

(** JSON-like values.  [JUndefined] is JavaScript's [undefined]; an object
    is its list of own enumerable string keys in insertion order. *)
Inductive Json : Type :=
| JUndefined
| JNull
| JBool (b : bool)
| JNum (n : Z)
| JStr (s : string)
| JArr (xs : list Json)
| JObj (fields : list (string * Json)).

Abbreviation JsObject := (list (string * Json)).

Definition str_eqb (a b : string) : bool := bool_decide (a = b).

(** The names a plain object inherits from [Object.prototype].  [o[k]] on
    such a name, when [o] has no own key [k], is the inherited member, a
    value outside [Json]: the reads of the model are those of the code for
    every other key. *)
Definition Object_prototype_keys : list string :=
  ["constructor"; "__defineGetter__"; "__defineSetter__"; "hasOwnProperty";
   "__lookupGetter__"; "__lookupSetter__"; "isPrototypeOf";
   "propertyIsEnumerable"; "toString"; "valueOf"; "__proto__";
   "toLocaleString"].

Definition inherited (k : string) : bool :=
  bool_decide (k ∈ Object_prototype_keys).

(** [o[k]], among the own keys of [o] *)
Fixpoint obj_get (k : string) (o : JsObject) : option Json :=
  match o with
  | [] => None
  | (k', v) :: o' => if str_eqb k k' then Some v else obj_get k o'
  end.

(** [o[k] = v]: an existing key keeps its position, a new key goes last. *)
Fixpoint obj_set (k : string) (v : Json) (o : JsObject) : JsObject :=
  match o with
  | [] => [(k, v)]
  | (k', v') :: o' =>
      if str_eqb k k' then (k', v) :: o' else (k', v') :: obj_set k v o'
  end.

(** [{...a, ...b}] *)
Definition obj_spread (a b : JsObject) : JsObject :=
  fold_left (fun acc kv => obj_set kv.1 kv.2 acc) b a.

(** [Object.fromEntries(entries)] *)
Definition fromEntries (entries : list (string * Json)) : JsObject :=
  obj_spread [] entries.

Definition keys (o : JsObject) : list string := map fst o.

(** [x[k]] on an arbitrary value; [undefined] when absent. *)
Definition get_field (k : string) (x : Json) : Json :=
  match x with
  | JObj o => default JUndefined (obj_get k o)
  | _ => JUndefined
  end.

(** JavaScript truthiness. *)
Definition truthy (x : Json) : bool :=
  match x with
  | JUndefined | JNull => false
  | JBool b => b
  | JNum n => negb (n =? 0)
  | JStr s => negb (str_eqb s "")
  | JArr _ | JObj _ => true
  end.

Definition truthy_str (s : string) : bool := negb (str_eqb s "").

(** [typeof x] *)
Definition typeof (x : Json) : string :=
  match x with
  | JUndefined => "undefined"
  | JBool _ => "boolean"
  | JNum _ => "number"
  | JStr _ => "string"
  | JNull | JArr _ | JObj _ => "object"
  end.

(** *** [lib/lodash.ts] *)

(** Modelled from the spec: [lib/lodash.ts] is not among the sources;
    [isNil] is the usual test for [null] or [undefined]. *)
Definition isNil (x : Json) : bool :=
  match x with
  | JUndefined | JNull => true
  | _ => false
  end.

(** Modelled from the spec: [omitBy(object, predicate)] of [lib/lodash.ts]
    drops the entries whose value satisfies the predicate. *)
Definition omitBy (o : JsObject) (p : Json -> bool) : JsObject :=
  filter (fun kv => negb (p kv.2) = true) o.

(** Modelled from the spec: [omit(object, keys)] of [lib/lodash.ts] drops
    the entries whose key is listed. *)
Definition omit (o : JsObject) (ks : list string) : JsObject :=
  filter (fun kv => kv.1 ∉ ks) o.

(** Modelled from the spec: [compact(array)] of [lib/lodash.ts] keeps the
    truthy elements. *)
Definition compact (xs : list Json) : list Json :=
  filter (fun x => truthy x = true) xs.

(** Modelled from the spec: [mapValues(object, f)] of [lib/lodash.ts]
    applies [f] to every value and keeps keys and their order. *)
Definition mapValues {A B : Type} (o : list (string * A)) (f : A -> B)
  : list (string * B) :=
  map (fun kv => (kv.1, f kv.2)) o.

(** Modelled from the spec: [objectEquals] of [lib/lodash.ts] is the
    "structural equality, not identity" of the object conversion rule:
    two values are equal when they are the same primitive, arrays of the
    same length with equal elements, or objects with the same number of
    keys whose values are equal key by key (key order is irrelevant). *)
Fixpoint objectEquals (x y : Json) {struct x} : bool :=
  match x, y with
  | JUndefined, JUndefined => true
  | JNull, JNull => true
  | JBool a, JBool b => Bool.eqb a b
  | JNum a, JNum b => a =? b
  | JStr a, JStr b => str_eqb a b
  | JArr xs, JArr ys =>
      (fix all2 (xs ys : list Json) {struct xs} : bool :=
         match xs, ys with
         | [], [] => true
         | x' :: xs', y' :: ys' => objectEquals x' y' && all2 xs' ys'
         | _, _ => false
         end) xs ys
  | JObj xo, JObj yo =>
      (length xo =? length yo)%nat &&
      (fix every (xo : JsObject) {struct xo} : bool :=
         match xo with
         | [] => true
         | (k, v) :: xo' =>
             match obj_get k yo with
             | Some w => objectEquals v w
             | None => false
             end && every xo'
         end) xo
  | _, _ => false
  end.

(** [a.includes(s)] on an array of strings. *)
Definition includes (a : list string) (s : string) : bool :=
  bool_decide (s ∈ a).

(** [String(value)], which is also the conversion of a value inside a
    template string; an array is its elements joined by commas, with
    [null] and [undefined] as the empty string.  A number is an integer
    below [10^21] in absolute value, written in full. *)
Fixpoint String_of (value : Json) : string :=
  match value with
  | JUndefined => "undefined"
  | JNull => "null"
  | JBool true => "true"
  | JBool false => "false"
  | JNum n => pretty n
  | JStr s => s
  | JArr xs =>
      (fix join (xs : list Json) : string :=
         match xs with
         | [] => ""
         | [x] => if isNil x then "" else String_of x
         | x :: xs' =>
             (if isNil x then "" else String_of x) ++ "," ++ join xs'
         end) xs
  | JObj _ => "[object Object]"
  end.

End Js.

(** ** The schema library as the sources see it ([zod.ts]) *)

Module Zod.
Import Js.

(** [ParameterLocation] of the OpenAPI types. *)
Inductive ParameterLocation : Type := query | header | path | cookie.

Definition location_str (l : ParameterLocation) : string :=
  match l with
  | query => "query"
  | header => "header"
  | path => "path"
  | cookie => "cookie"
  end.

#[global] Instance ParameterLocation_eq_dec : EqDecision ParameterLocation.
Proof. solve_decision. Defined.

(** [Partial<ParameterObject>]: the [param] entry of the metadata. *)
Record ParameterMetadata : Type := {
  pm_in : option ParameterLocation;
  pm_name : option string;
  pm_rest : JsObject;
}.

(** [ZodOpenAPIMetadata]: the three custom keys and the remaining
    [SchemaObject] keys ([type], [format], [example], ...). *)
Record ZodOpenapiMetadata : Type := {
  refId : option string;
  extendedFrom : option string;
  param : option ParameterMetadata;
  schemaObject : JsObject;
}.

(** The part of [ZodTypeDef] every schema carries. *)
Record ZodTypeDef : Type := {
  openapi : option ZodOpenapiMetadata;
  description : option string;
}.

Definition no_def : ZodTypeDef := {| openapi := None; description := None |}.

Inductive EffectType : Type := refinement | transform | preprocess.

Inductive StringCheck : Type :=
| ck_uuid | ck_email | ck_url
| ck_regex (source : string)
| ck_min (value : Z) | ck_max (value : Z).

Inductive NumberCheck : Type :=
| nk_int
| nk_min (value : Z) (inclusive : bool)
| nk_max (value : Z) (inclusive : bool)
| nk_multipleOf (value : Z).

Inductive UnknownKeysParam : Type := passthrough | strict | strip.

(** [ZodError]: only its [errors] are read. *)
Record ZodError : Type := { errors : Json }.

(** The result of [schema.safeParse(value)]. *)
Inductive SafeParseReturnType : Type :=
| ParseSuccess (data : Json)
| ParseFailure (error : ZodError).

Definition success (r : SafeParseReturnType) : bool :=
  match r with ParseSuccess _ => true | ParseFailure _ => false end.

(** The schema classes the sources test with [instanceof] / [isZodType];
    every other class is [ZodOther] with its [typeName]. *)
Inductive ZodType : Type :=
| ZodNull (d : ZodTypeDef)
| ZodString (d : ZodTypeDef) (checks : list StringCheck)
| ZodNumber (d : ZodTypeDef) (checks : list NumberCheck)
| ZodBoolean (d : ZodTypeDef)
| ZodOptional (d : ZodTypeDef) (innerType : ZodType)
| ZodNullable (d : ZodTypeDef) (innerType : ZodType)
| ZodDefault (d : ZodTypeDef) (innerType : ZodType) (defaultValue : Json)
| ZodEffects (d : ZodTypeDef) (effect : EffectType) (schema : ZodType)
| ZodLiteral (d : ZodTypeDef) (value : Json)
| ZodEnum (d : ZodTypeDef) (values : list string)
| ZodNativeEnum (d : ZodTypeDef) (values : list Json)
| ZodObject (d : ZodTypeDef) (shape : list (string * ZodType))
    (unknownKeys : UnknownKeysParam)
| ZodArray (d : ZodTypeDef) (type : ZodType) (minLength maxLength : option Z)
| ZodUnion (d : ZodTypeDef) (options : list ZodType)
| ZodDiscriminatedUnion (d : ZodTypeDef) (discriminator : string)
    (options : list ZodType)
| ZodIntersection (d : ZodTypeDef) (left right : ZodType)
| ZodRecord (d : ZodTypeDef) (valueType : ZodType)
| ZodUnknown (d : ZodTypeDef)
| ZodOther (d : ZodTypeDef) (typeName : string).

(** [schema._def] *)
Definition _def (s : ZodType) : ZodTypeDef :=
  match s with
  | ZodNull d | ZodString d _ | ZodNumber d _ | ZodBoolean d
  | ZodOptional d _ | ZodNullable d _ | ZodDefault d _ _ | ZodEffects d _ _
  | ZodLiteral d _ | ZodEnum d _ | ZodNativeEnum d _ | ZodObject d _ _
  | ZodArray d _ _ _ | ZodUnion d _ | ZodDiscriminatedUnion d _ _
  | ZodIntersection d _ _ | ZodRecord d _ | ZodUnknown d | ZodOther d _ => d
  end.

(** [zodSchema._unknownKeys].  The schema library declares this member
    of an object for its types only and never sets it (the option of an
    object is [_def.unknownKeys]): reading it gives [undefined]. *)
Definition _unknownKeys (s : ZodType) : option UnknownKeysParam := None.

(** [new this.constructor({...this._def, ...})]: the same schema with
    another definition record. *)
Definition with_def (s : ZodType) (d : ZodTypeDef) : ZodType :=
  match s with
  | ZodNull _ => ZodNull d
  | ZodString _ c => ZodString d c
  | ZodNumber _ c => ZodNumber d c
  | ZodBoolean _ => ZodBoolean d
  | ZodOptional _ i => ZodOptional d i
  | ZodNullable _ i => ZodNullable d i
  | ZodDefault _ i v => ZodDefault d i v
  | ZodEffects _ e i => ZodEffects d e i
  | ZodLiteral _ v => ZodLiteral d v
  | ZodEnum _ v => ZodEnum d v
  | ZodNativeEnum _ v => ZodNativeEnum d v
  | ZodObject _ sh u => ZodObject d sh u
  | ZodArray _ t mn mx => ZodArray d t mn mx
  | ZodUnion _ o => ZodUnion d o
  | ZodDiscriminatedUnion _ k o => ZodDiscriminatedUnion d k o
  | ZodIntersection _ l r => ZodIntersection d l r
  | ZodRecord _ v => ZodRecord d v
  | ZodUnknown _ => ZodUnknown d
  | ZodOther _ n => ZodOther d n
  end.

(** [a ?? b] on optional values. *)
Definition nullish {A : Type} (a b : option A) : option A :=
  match a with Some _ => a | None => b end.

(** [{...a, ...b}] on parameter metadata. *)
Definition spread_param (a b : option ParameterMetadata) : ParameterMetadata :=
  let a' := default {| pm_in := None; pm_name := None; pm_rest := [] |} a in
  let b' := default {| pm_in := None; pm_name := None; pm_rest := [] |} b in
  {| pm_in := nullish (pm_in b') (pm_in a');
     pm_name := nullish (pm_name b') (pm_name a');
     pm_rest := obj_spread (pm_rest a') (pm_rest b') |}.

(** [ZodSchema.prototype.openapi]: the metadata given is laid over the
    metadata present; [param] is merged key by key and is always an object
    afterwards. *)
Definition openapi_method (this : ZodType) (metadata : ZodOpenapiMetadata)
  : ZodType :=
  let old := openapi (_def this) in
  with_def this
    {| openapi := Some
         {| refId := nullish (refId metadata) (old ≫= refId);
            extendedFrom := nullish (extendedFrom metadata) (old ≫= extendedFrom);
            param := Some (spread_param (old ≫= param) (param metadata));
            schemaObject :=
              obj_spread (default [] (schemaObject <$> old))
                         (schemaObject metadata) |};
       description := description (_def this) |}.

Definition empty_metadata : ZodOpenapiMetadata :=
  {| refId := None; extendedFrom := None; param := None; schemaObject := [] |}.

(** The patched [optional()] and [nullable()]: the wrapper is created
    with the description of the schema it wraps and takes its metadata. *)
Definition optional (this : ZodType) : ZodType :=
  ZodOptional {| openapi := openapi (_def this);
                 description := description (_def this) |} this.

Definition nullable (this : ZodType) : ZodType :=
  ZodNullable {| openapi := openapi (_def this);
                 description := description (_def this) |} this.

(** [ZodObject.prototype.extend] of the schema library, the [extend] of
    every object that [openapi()] did not return (so also of the result of
    an [extend]): it merges the shape and copies the definition, metadata
    included. *)
Definition initialExtend (this : ZodType) (augmentation : list (string * ZodType))
  : ZodType :=
  match this with
  | ZodObject d sh u =>
      ZodObject d
        (fold_left
           (fun acc kv =>
              if bool_decide (kv.1 ∈ map fst acc)
              then map (fun e => if str_eqb e.1 kv.1 then (e.1, kv.2) else e) acc
              else (acc ++ [kv])%list)
           augmentation sh)
        u
  | _ => this
  end.

(** [result.extend], the method [openapi()] installs on the object
    [result] it returns: the metadata of the extension is
    [{extendedFrom: result._def.openapi?.refId}]. *)
Definition extend (result : ZodType) (augmentation : list (string * ZodType))
  : ZodType :=
  match initialExtend result augmentation with
  | ZodObject d sh u =>
      ZodObject
        {| openapi :=
             Some {| refId := None;
                     extendedFrom := openapi (_def result) ≫= refId;
                     param := None;
                     schemaObject := [] |};
           description := description d |}
        sh u
  | extendedResult => extendedResult
  end.

End Zod.

(** The patched [pick] and [omit] of objects ([zod.ts]). *)

Module ZodObjectPatch.
Import Js Zod.

Section Patched.

(** zod's own [pick] and [omit], which the patch calls. *)
Variable zodPick zodOmit : ZodType -> list (string * Json) -> ZodType.

(** The object that zod's [pick] returns, without its metadata. *)
Definition pick (this : ZodType) (mask : list (string * Json)) : ZodType :=
  let result := zodPick this mask in
  with_def result {| openapi := None; description := description (_def result) |}.

Definition omit (this : ZodType) (mask : list (string * Json)) : ZodType :=
  let result := zodOmit this mask in
  with_def result {| openapi := None; description := description (_def result) |}.

End Patched.

End ZodObjectPatch.

(** ** Route configurations and the registry ([openapi_registry.ts]) *)

Module Registry.
Import Js Zod.

Inductive Method : Type := get | post | put | delete | patch.

Definition method_str (m : Method) : string :=
  match m with
  | get => "get" | post => "post" | put => "put"
  | delete => "delete" | patch => "patch"
  end.

(** [method.toUpperCase()] *)
Definition toUpperCase (m : Method) : string :=
  match m with
  | get => "GET" | post => "POST" | put => "PUT"
  | delete => "DELETE" | patch => "PATCH"
  end.

(** [schema: ZodType<unknown> | SchemaObject | ReferenceObject] *)
Inductive SchemaLike : Type :=
| IsZod (z : ZodType)
| IsSpec (o : Json).

(** [ZodContentObject]: media type to [ZodMediaTypeObject]; only the
    [schema] of a media type object is ever read. *)
Abbreviation ZodContentObject := (list (string * SchemaLike)).

Record ZodRequestBody : Type := {
  rb_content : ZodContentObject;
  rb_rest : JsObject;  (* [description], [required] *)
}.

(** A response header object: its [schema], and its other keys. *)
Record ZodResponseHeaderObject : Type := {
  rh_schema : SchemaLike;
  rh_rest : JsObject;  (* [description] *)
}.

Record ZodResponseConfig : Type := {
  rc_rest : JsObject;  (* [description], [links] *)
  rc_headers : option (list (string * ZodResponseHeaderObject));
  rc_content : option ZodContentObject;
}.

Record RequestConfig : Type := {
  body : option ZodRequestBody;
  params : option (list (string * ZodType));
  query : option (list (string * ZodType));
  headers : option (list (string * ZodType));
}.

(** [OpenapiRouteConfig] of [types/shared.ts]: a [ZodRouteConfig] whose
    [responses] may be missing.  [rest] holds [summary], [tags] and
    [description]. *)
Record OpenapiRouteConfig : Type := {
  method : Method;
  path : string;
  request : option RequestConfig;
  responses : option (list (string * ZodResponseConfig));
  rest : JsObject;
}.

Record ZodRouteConfig : Type := {
  zr_method : Method;
  zr_path : string;
  zr_request : option RequestConfig;
  zr_responses : list (string * ZodResponseConfig);
  zr_rest : JsObject;
}.

(** [OpenapiDefinitions] *)
Inductive OpenapiDefinitions : Type :=
| DComponent (componentType : string) (name : string) (component : Json)
| DSchema (schema : ZodType)
| DParameter (schema : ZodType)
| DRoute (route : ZodRouteConfig).

(** [definition.type] *)
Definition def_type (d : OpenapiDefinitions) : string :=
  match d with
  | DComponent _ _ _ => "component"
  | DSchema _ => "schema"
  | DParameter _ => "parameter"
  | DRoute _ => "route"
  end.

(** The registry is its list [_definitions] (no parent registries). *)
Abbreviation OpenapiRegistry := (list OpenapiDefinitions).

(** [register(refId, zodSchema)]: the registry afterwards and the schema
    returned. *)
Definition register (reg : OpenapiRegistry) (refId : string) (zodSchema : ZodType)
  : OpenapiRegistry * ZodType :=
  let currentMetadata := default empty_metadata (openapi (_def zodSchema)) in
  let schemaWithMetadata :=
    openapi_method zodSchema
      {| Zod.refId := Some refId;
         extendedFrom := extendedFrom currentMetadata;
         param := param currentMetadata;
         schemaObject := schemaObject currentMetadata |} in
  ((reg ++ [DSchema schemaWithMetadata])%list, schemaWithMetadata).

(** [registerParameter(refId, zodSchema)] *)
Definition registerParameter (reg : OpenapiRegistry) (refId : string)
  (zodSchema : ZodType) : OpenapiRegistry * ZodType :=
  let currentMetadata := default empty_metadata (openapi (_def zodSchema)) in
  let currentParam := spread_param None (param currentMetadata) in
  let schemaWithMetadata :=
    openapi_method zodSchema
      {| Zod.refId := Some refId;
         extendedFrom := extendedFrom currentMetadata;
         param := Some
           {| pm_in := pm_in currentParam;
              pm_name := Some (default refId (pm_name currentParam));
              pm_rest := pm_rest currentParam |};
         schemaObject := schemaObject currentMetadata |} in
  ((reg ++ [DParameter schemaWithMetadata])%list, schemaWithMetadata).

(** [registerPath(route)] *)
Definition registerPath (reg : OpenapiRegistry) (route : ZodRouteConfig)
  : OpenapiRegistry :=
  (reg ++ [DRoute route])%list.

(** [registerComponent(type, name, component)] *)
Definition registerComponent (reg : OpenapiRegistry) (type name : string)
  (component : Json) : OpenapiRegistry :=
  (reg ++ [DComponent type name component])%list.

(** A registry with the parent registries given to its constructor. *)
Inductive RegistryTree : Type :=
| Registry_of (parents : option (list RegistryTree))
    (_definitions : list OpenapiDefinitions).

(** The getter [definitions]: the definitions of the parents, in order,
    then its own. *)
Fixpoint definitions (this : RegistryTree) : list OpenapiDefinitions :=
  match this with
  | Registry_of parents _definitions =>
      let parentDefinitions :=
        match parents with
        | Some parents => flat_map definitions parents
        | None => []
        end in
      (parentDefinitions ++ _definitions)%list
  end.

End Registry.

(** ** Request schemas of a route ([runtime/request.ts]) *)

Module RuntimeRequest.
Import Js Zod Registry.

Record OpenapiRequestQueryKeySchema : Type := {
  key : string;
  schema : ZodType;
  isArray : bool;
}.

Definition extractRequestParamsSchema (config : OpenapiRouteConfig)
  : option (list (string * ZodType)) :=
  request config ≫= params.

Fixpoint unwrapZodType (schema : ZodType) : ZodType :=
  match schema with
  | ZodOptional _ inner | ZodNullable _ inner => unwrapZodType inner
  | ZodDefault _ inner _ => unwrapZodType inner
  | ZodEffects _ refinement inner => unwrapZodType inner
  | _ => schema
  end.

(** [x instanceof ZodArray] *)
Definition instanceof_ZodArray (x : ZodType) : bool :=
  match x with ZodArray _ _ _ _ => true | _ => false end.

Definition extractRequestQuerySchema (config : OpenapiRouteConfig)
  : option (list OpenapiRequestQueryKeySchema) :=
  match request config ≫= query with
  | Some record =>
      Some (map (fun kv =>
                   {| key := kv.1;
                      schema := kv.2;
                      isArray := instanceof_ZodArray (unwrapZodType kv.2) |})
                record)
  | None => None
  end.

Definition extractRequestHeadersSchema (config : OpenapiRouteConfig)
  : option (list (string * ZodType)) :=
  request config ≫= headers.

Definition extractRequestBodySchema (config : OpenapiRouteConfig)
  : option ZodType :=
  match request config ≫= body with
  | Some b =>
      match list_find (fun kv => kv.1 = "application/json") (rb_content b) with
      | Some (_, (_, IsZod schema)) => Some schema
      | _ => None
      end
  | None => None
  end.

End RuntimeRequest.

(** ** The document generator ([openapi_generator.ts], [errors.ts]) *)

Module Generator.
Import Js Zod Registry.

(** The exceptions of [errors.ts], the plain [Error] thrown on an
    unregistered parent, and the exhaustion of the bound on the call depth
    of the model. *)
Inductive GenError : Type :=
| ConflictError (message : string) (key : string) (values : list Json)
| MissingParameterDataError (missingField : string) (paramName : option string)
| UnknownZodTypeError (schemaName : option string)
| Error (message : string)
| OutOfFuel.

Inductive Result (A : Type) : Type :=
| Ok (a : A)
| Throw (e : GenError).
Arguments Ok {A} a.
Arguments Throw {A} e.

Definition bind {A B : Type} (r : Result A) (k : A -> Result B) : Result B :=
  match r with
  | Ok a => k a
  | Throw e => Throw e
  end.

Notation "x <- c1 ;; c2" := (bind c1 (fun x => c2))
  (at level 100, c1 at next level, right associativity).

Notation "c1 ;;; c2" := (bind c1 (fun _ => c2))
  (at level 100, right associativity).

Notation "f <$$> c" := (bind c (fun x => Ok (f x)))
  (at level 61, left associativity).

(** [xs.map(f)] where [f] may throw: elements are converted in order and
    the first exception ends the loop. *)
Fixpoint mapM {A B : Type} (f : A -> Result B) (xs : list A)
  : Result (list B) :=
  match xs with
  | [] => Ok []
  | x :: xs' =>
      y <- f x ;;
      ys <- mapM f xs' ;;
      Ok (y :: ys)
  end.

(** [mapValues(object, f)] where [f] may throw. *)
Definition mapValuesM {A B : Type} (o : list (string * A))
  (f : A -> Result B) : Result (list (string * B)) :=
  mapM (fun kv => v <- f kv.2 ;; Ok (kv.1, v)) o.

Record RawComponent : Type := {
  componentType : string;
  name : string;
  component : Json;
}.

(** The fields of an [OpenapiGenerator] besides [definitions]. *)
Record OpenapiGenerator : Type := {
  schemaRefs : JsObject;
  paramRefs : JsObject;
  pathRefs : JsObject;
  rawComponents : list RawComponent;
}.

Definition new_generator : OpenapiGenerator :=
  {| schemaRefs := []; paramRefs := []; pathRefs := []; rawComponents := [] |}.

(** [ParameterData] *)
Record ParameterData : Type := {
  pd_in : option ParameterLocation;
  pd_name : option string;
}.

Definition opt_str (s : option string) : Json :=
  match s with Some s => JStr s | None => JUndefined end.

Definition opt_loc (l : option ParameterLocation) : Json :=
  match l with Some l => JStr (location_str l) | None => JUndefined end.

(** [a !== b] where both sides are strings or [undefined]. *)
Definition strict_neq (a b : Json) : bool :=
  match a, b with
  | JUndefined, JUndefined => false
  | JNull, JNull => false
  | JBool x, JBool y => negb (Bool.eqb x y)
  | JNum x, JNum y => negb (x =? y)
  | JStr x, JStr y => negb (str_eqb x y)
  | _, _ => true
  end.

(** [array.includes(x)] for a string [x]. *)
Definition array_includes (array : list Json) (x : Json) : bool :=
  existsb (fun y => negb (strict_neq y x)) array.

(** A value inside a template string. *)
Definition template (x : Json) : string := String_of x.

Fixpoint unwrapChained (schema : ZodType) : ZodType :=
  match schema with
  | ZodOptional _ inner | ZodNullable _ inner => unwrapChained inner
  | ZodDefault _ inner _ => unwrapChained inner
  | ZodEffects _ refinement inner => unwrapChained inner
  | _ => schema
  end.

(** The parameter metadata as the object it is: the keys of [pm_rest],
    then [in] and [name]. *)
Definition param_object (p : ParameterMetadata) : JsObject :=
  fromEntries
    (pm_rest p
     ++ match pm_in p with Some l => [("in", JStr (location_str l))] | None => [] end
     ++ match pm_name p with Some n => [("name", JStr n)] | None => [] end)%list.

(** [omitBy(omit(metadata, ["param", "refId", "extendedFrom"]), isNil)] *)
Definition buildSchemaMetadata (metadata : ZodOpenapiMetadata) : JsObject :=
  omitBy (schemaObject metadata) isNil.

Definition buildParameterMetadata (metadata : ParameterMetadata) : JsObject :=
  omitBy (param_object metadata) isNil.

(** [getMetadata]: always an object; its [description] key comes first and
    is overridden by a [description] among the metadata. *)
Definition getMetadata (zodSchema : ZodType) : ZodOpenapiMetadata :=
  let innerSchema := unwrapChained zodSchema in
  let metadata :=
    nullish (openapi (_def zodSchema)) (openapi (_def innerSchema)) in
  let description :=
    nullish (description (_def zodSchema)) (description (_def innerSchema)) in
  {| refId := metadata ≫= refId;
     extendedFrom := metadata ≫= extendedFrom;
     param := metadata ≫= param;
     schemaObject :=
       obj_spread [("description", opt_str description)]
                  (default [] (schemaObject <$> metadata)) |}.

Definition applySchemaMetadata (initialData : JsObject)
  (metadata : ZodOpenapiMetadata) : JsObject :=
  omitBy (obj_spread initialData (buildSchemaMetadata metadata)) isNil.

(** [schemaMetadata?.refId] as a truthy string. *)
Definition truthy_refId (m : ZodOpenapiMetadata) : option string :=
  match refId m with
  | Some r => if truthy_str r then Some r else None
  | None => None
  end.

Definition getParameterRef (this : OpenapiGenerator)
  (schemaMetadata : ZodOpenapiMetadata) (external : ParameterData)
  : Result (option Json) :=
  let parameterMetadata := param schemaMetadata in
  let existingRef :=
    match truthy_refId schemaMetadata with
    | Some r => obj_get r (paramRefs this)
    | None => None
    end in
  match truthy_refId schemaMetadata, existingRef with
  | Some r, Some existingRef =>
      if negb (truthy existingRef) then Ok None else
      if match parameterMetadata with
         | Some pm => strict_neq (get_field "in" existingRef) (opt_loc (pm_in pm))
         | None => false
         end
         || (truthy (opt_loc (pd_in external))
             && strict_neq (get_field "in" existingRef) (opt_loc (pd_in external)))
      then
        Throw (ConflictError
                 ("Conflicting location for parameter "
                    ++ template (get_field "name" existingRef))
                 "in"
                 (compact [get_field "in" existingRef;
                           opt_loc (pd_in external);
                           opt_loc (parameterMetadata ≫= pm_in)]))
      else
      if match parameterMetadata with
         | Some pm =>
             strict_neq (get_field "name" existingRef) (opt_str (pm_name pm))
         | None => false
         end
         || (truthy (opt_str (pd_name external))
             && strict_neq (get_field "name" existingRef)
                           (opt_str (pd_name external)))
      then
        Throw (ConflictError "Conflicting names for parameter" "name"
                 (compact [get_field "name" existingRef;
                           opt_str (pd_name external);
                           opt_str (parameterMetadata ≫= pm_name)]))
      else
        Ok (Some (JObj [("$ref", JStr ("#/components/parameters/" ++ r))]))
  | _, _ => Ok None
  end.

(** [this._def.checks.find((check) => check.kind === "regex")] *)
Definition getZodStringCheck_regex (checks : list StringCheck) : option string :=
  match List.find (fun c => match c with ck_regex _ => true | _ => false end)
                  checks with
  | Some (ck_regex source) => Some source
  | _ => None
  end.

Definition isUUID (checks : list StringCheck) : bool :=
  existsb (fun c => match c with ck_uuid => true | _ => false end) checks.
Definition isEmail (checks : list StringCheck) : bool :=
  existsb (fun c => match c with ck_email => true | _ => false end) checks.
Definition isURL (checks : list StringCheck) : bool :=
  existsb (fun c => match c with ck_url => true | _ => false end) checks.

Definition mapStringFormat (checks : list StringCheck) : Json :=
  if isUUID checks then JStr "uuid"
  else if isEmail checks then JStr "email"
  else if isURL checks then JStr "uri"
  else JUndefined.

(** [ZodNumber.isInt], [minValue] and [maxValue] of the schema library. *)
Definition isInt (checks : list NumberCheck) : bool :=
  existsb (fun c => match c with
                    | nk_int | nk_multipleOf _ => true
                    | _ => false
                    end) checks.

Definition minValue (checks : list NumberCheck) : option Z :=
  fold_left (fun acc c =>
               match c, acc with
               | nk_min v _, None => Some v
               | nk_min v _, Some m => if m <? v then Some v else acc
               | _, _ => acc
               end) checks None.

Definition maxValue (checks : list NumberCheck) : option Z :=
  fold_left (fun acc c =>
               match c, acc with
               | nk_max v _, None => Some v
               | nk_max v _, Some m => if v <? m then Some v else acc
               | _, _ => acc
               end) checks None.

Definition opt_num (n : option Z) : Json :=
  match n with Some n => JNum n | None => JUndefined end.

(** [isNullable ? true : undefined] *)
Definition nullable_flag (isNullable : bool) : Json :=
  if isNullable then JBool true else JUndefined.

Fixpoint flattenUnionTypes (schema : ZodType) : list ZodType :=
  match schema with
  | ZodUnion _ options =>
      (fix flat (os : list ZodType) : list ZodType :=
         match os with
         | [] => []
         | o :: os' => (flattenUnionTypes o ++ flat os')%list
         end) options
  | _ => [schema]
  end.

Fixpoint flattenIntersectionTypes (schema : ZodType) : list ZodType :=
  match schema with
  | ZodIntersection _ l r =>
      (flattenIntersectionTypes l ++ flattenIntersectionTypes r)%list
  | _ => [schema]
  end.

(** The height of a schema, used to bound the depth of the call stack. *)
Fixpoint height (schema : ZodType) : nat :=
  match schema with
  | ZodOptional _ i | ZodNullable _ i | ZodDefault _ i _ | ZodEffects _ _ i
  | ZodArray _ i _ _ | ZodRecord _ i => S (height i)
  | ZodObject _ shape _ =>
      S ((fix hs (l : list (string * ZodType)) : nat :=
            match l with
            | [] => O
            | kv :: l' => Nat.max (height kv.2) (hs l')
            end) shape)
  | ZodUnion _ options | ZodDiscriminatedUnion _ _ options =>
      S ((fix hs (l : list ZodType) : nat :=
            match l with
            | [] => O
            | o :: l' => Nat.max (height o) (hs l')
            end) options)
  | ZodIntersection _ l r => S (Nat.max (height l) (height r))
  | _ => 1%nat
  end.

Section WithValidator.

(** [schema.safeParse(value)] of the schema library, a black box. *)
Variable safeParse : ZodType -> Json -> SafeParseReturnType.

(** [isOptional()] and [isNullable()] of the schema library: whether
    [undefined], respectively [null], parses. *)
Definition isOptional (schema : ZodType) : bool :=
  success (safeParse schema JUndefined).

Definition isNullable (schema : ZodType) : bool :=
  success (safeParse schema JNull).

Fixpoint isOptionalSchema (zodSchema : ZodType) : bool :=
  match zodSchema with
  | ZodEffects _ _ schema => isOptionalSchema schema
  | ZodDefault _ innerType _ => isOptionalSchema innerType
  | _ => isOptional zodSchema
  end.

(** The four mutually recursive conversion methods.  [fuel] bounds the
    depth of the call stack; every call from one method to another uses
    one unit. *)
Fixpoint generateSimpleSchema (fuel : nat) (this : OpenapiGenerator)
  (zodSchema : ZodType) {struct fuel} : Result JsObject :=
  match fuel with
  | O => Throw OutOfFuel
  | S fuel =>
      let innerSchema := unwrapChained zodSchema in
      let metadata :=
        match openapi (_def zodSchema) with
        | Some m => Some m
        | None => openapi (_def innerSchema)
        end in
      let refId := metadata ≫= truthy_refId in
      match refId ≫= (fun r => (fun x => (r, x)) <$> obj_get r (schemaRefs this)) with
      | Some (refId, _) =>
          let referenceObject :=
            [("$ref", JStr ("#/components/schemas/" ++ refId))] in
          let nullableMetadata :=
            if isNullable zodSchema then [("nullable", JBool true)] else [] in
          let appliedMetadata :=
            applySchemaMetadata nullableMetadata
              (default empty_metadata metadata) in
          if (0 <? length appliedMetadata)%nat
          then Ok [("allOf", JArr [JObj referenceObject; JObj appliedMetadata])]
          else Ok referenceObject
      | None =>
          result <-
            match metadata ≫= (fun m => obj_get "type" (schemaObject m)) with
            | Some t =>
                if truthy t then Ok [("type", t)]
                else toOpenapiSchema fuel this innerSchema (isNullable zodSchema)
            | None =>
                toOpenapiSchema fuel this innerSchema (isNullable zodSchema)
            end ;;
          match metadata with
          | Some m => Ok (applySchemaMetadata result m)
          | None => Ok (omitBy result isNil)
          end
      end
  end

with generateInnerSchema (fuel : nat) (this : OpenapiGenerator)
  (zodSchema : ZodType) (metadata : option ZodOpenapiMetadata)
  {struct fuel} : Result JsObject :=
  match fuel with
  | O => Throw OutOfFuel
  | S fuel =>
      simpleSchema <- generateSimpleSchema fuel this zodSchema ;;
      if truthy (default JUndefined (obj_get "$ref" simpleSchema))
      then Ok simpleSchema
      else match metadata with
           | Some m => Ok (applySchemaMetadata simpleSchema m)
           | None => Ok simpleSchema
           end
  end

with toOpenapiSchema (fuel : nat) (this : OpenapiGenerator)
  (zodSchema : ZodType) (isNullable : bool) {struct fuel} : Result JsObject :=
  match fuel with
  | O => Throw OutOfFuel
  | S fuel =>
      match zodSchema with
      | ZodNull _ => Ok [("type", JStr "null")]
      | ZodString _ checks =>
          Ok [("type", JStr "string");
              ("nullable", nullable_flag isNullable);
              ("format", mapStringFormat checks);
              ("pattern", opt_str (getZodStringCheck_regex checks))]
      | ZodNumber _ checks =>
          Ok [("type", JStr (if isInt checks then "integer" else "number"));
              ("minimum", opt_num (minValue checks));
              ("maximum", opt_num (maxValue checks));
              ("nullable", nullable_flag isNullable)]
      | ZodBoolean _ =>
          Ok [("type", JStr "boolean"); ("nullable", nullable_flag isNullable)]
      | ZodDefault _ innerSchema _ =>
          generateInnerSchema fuel this innerSchema None
      | ZodEffects _ refinement innerSchema
      | ZodEffects _ preprocess innerSchema =>
          generateInnerSchema fuel this innerSchema None
      | ZodLiteral _ value =>
          Ok [("type", JStr (typeof value));
              ("nullable", nullable_flag isNullable);
              ("enum", JArr [value])]
      | ZodEnum _ values =>
          Ok [("type", JStr "string");
              ("nullable", nullable_flag isNullable);
              ("enum", JArr (map JStr values))]
      | ZodNativeEnum _ enumValues =>
          Ok [("type", JStr "string");
              ("nullable", nullable_flag isNullable);
              ("enum", JArr enumValues)]
      | ZodObject _ _ _ =>
          toOpenapiObjectSchema fuel this zodSchema isNullable
      | ZodArray _ itemType minLength maxLength =>
          items <- generateInnerSchema fuel this itemType None ;;
          Ok [("type", JStr "array");
              ("items", JObj items);
              ("minItems", opt_num minLength);
              ("maxItems", opt_num maxLength)]
      | ZodUnion _ _ =>
          let options := flattenUnionTypes zodSchema in
          anyOf <- mapM (fun schema =>
                           generateInnerSchema fuel this schema None) options ;;
          Ok [("anyOf", JArr (map JObj anyOf))]
      | ZodDiscriminatedUnion _ discriminator options =>
          oneOf <- mapM (fun schema =>
                           generateInnerSchema fuel this schema None) options ;;
          Ok [("oneOf", JArr (map JObj oneOf));
              ("discriminator", JObj [("propertyName", JStr discriminator)])]
      | ZodIntersection _ _ _ =>
          let subtypes := flattenIntersectionTypes zodSchema in
          allOf <- mapM (fun schema =>
                           generateInnerSchema fuel this schema None) subtypes ;;
          Ok [("allOf", JArr (map JObj allOf))]
      | ZodRecord _ propertiesType =>
          additionalProperties <-
            generateInnerSchema fuel this propertiesType None ;;
          Ok [("type", JStr "object");
              ("additionalProperties", JObj additionalProperties)]
      | ZodUnknown _ => Ok []
      | _ => Throw (UnknownZodTypeError (refId (getMetadata zodSchema)))
      end
  end

with toOpenapiObjectSchema (fuel : nat) (this : OpenapiGenerator)
  (zodSchema : ZodType) (isNullable : bool) {struct fuel} : Result JsObject :=
  match fuel with
  | O => Throw OutOfFuel
  | S fuel =>
      match zodSchema with
      | ZodObject d propTypes _ =>
          let unknownKeysOption := _unknownKeys zodSchema in
          let extendedFrom :=
            match openapi d ≫= Zod.extendedFrom with
            | Some e => if truthy_str e then Some e else None
            | None => None
            end in
          let requiredProperties :=
            map fst (filter (fun kv => isOptionalSchema kv.2 = false) propTypes) in
          schemaProperties <-
            mapValuesM propTypes
              (fun propSchema =>
                 s <- generateInnerSchema fuel this propSchema None ;;
                 Ok (JObj s)) ;;
          diff <-
            match extendedFrom with
            | Some extendedFrom =>
                match obj_get extendedFrom (schemaRefs this) with
                | Some registeredSchema =>
                    if negb (truthy registeredSchema)
                    then Throw (Error ("Attempt to extend an unregistered schema with id "
                                         ++ extendedFrom ++ "."))
                    else
                    let registeredProperties :=
                      match get_field "properties" registeredSchema with
                      | JObj o => o
                      | _ => []
                      end in
                    let alreadyRegistered :=
                      filter (fun propKey =>
                                objectEquals
                                  (default JUndefined (obj_get propKey schemaProperties))
                                  (default JUndefined (obj_get propKey registeredProperties))
                                = true)
                             (keys registeredProperties) in
                    let alreadyRequired :=
                      match get_field "required" registeredSchema with
                      | JArr a => a
                      | _ => []
                      end in
                    Ok (alreadyRegistered, alreadyRequired)
                | None =>
                    Throw (Error ("Attempt to extend an unregistered schema with id "
                                    ++ extendedFrom ++ "."))
                end
            | None => Ok ([], [])
            end ;;
          let '(alreadyRegistered, alreadyRequired) := diff in
          let properties := omit schemaProperties alreadyRegistered in
          let additionallyRequired :=
            filter (fun prop => array_includes alreadyRequired (JStr prop) = false)
                   requiredProperties in
          let objectData :=
            ([("type", JStr "object"); ("properties", JObj properties)]
               ++ (if isNullable then [("nullable", JBool true)] else [])
               ++ (if (0 <? length additionallyRequired)%nat
                   then [("required", JArr (map JStr additionallyRequired))]
                   else [])
               ++ (match unknownKeysOption with
                   | Some passthrough => [("additionalProperties", JBool true)]
                   | _ => []
                   end))%list in
          match extendedFrom with
          | Some extendedFrom =>
              Ok [("allOf",
                   JArr [JObj [("$ref",
                                JStr ("#/components/schemas/" ++ extendedFrom))];
                         JObj objectData])]
          | None => Ok objectData
          end
      | _ => Throw (UnknownZodTypeError None)
      end
  end.

(** A bound on the call depth that converting [zodSchema] needs: four
    calls for every level of nesting. *)
Definition stack_bound (zodSchema : ZodType) : nat :=
  (4 * S (height zodSchema))%nat.

Definition generateParameter (this : OpenapiGenerator) (zodSchema : ZodType)
  : Result JsObject :=
  let metadata := getMetadata zodSchema in
  let paramMetadata := param metadata in
  let paramName := paramMetadata ≫= pm_name in
  let paramLocation := paramMetadata ≫= pm_in in
  match paramName with
  | None => Throw (MissingParameterDataError "name" None)
  | Some paramName =>
      if negb (truthy_str paramName)
      then Throw (MissingParameterDataError "name" None) else
      match paramLocation with
      | None => Throw (MissingParameterDataError "in" (Some paramName))
      | Some paramLocation =>
          let required :=
            negb (isOptional zodSchema) && negb (isNullable zodSchema) in
          schema <- generateSimpleSchema (stack_bound zodSchema) this zodSchema ;;
          Ok (obj_spread
                (obj_spread
                   [("in", JStr (location_str paramLocation));
                    ("name", JStr paramName);
                    ("schema", JObj schema);
                    ("required", JBool required)]
                   (match obj_get "description" (schemaObject metadata) with
                    | Some d => if truthy d then [("description", d)] else []
                    | None => []
                    end))
                (match paramMetadata with
                 | Some pm => buildParameterMetadata pm
                 | None => []
                 end))
      end
  end.

Definition generateParameterDefinition (this : OpenapiGenerator)
  (zodSchema : ZodType) : Result OpenapiGenerator :=
  let metadata := getMetadata zodSchema in
  result <- generateParameter this zodSchema ;;
  match truthy_refId metadata with
  | Some refId =>
      Ok {| schemaRefs := schemaRefs this;
            paramRefs := obj_set refId (JObj result) (paramRefs this);
            pathRefs := pathRefs this;
            rawComponents := rawComponents this |}
  | None => Ok this
  end.

Definition generateInlineParameters (this : OpenapiGenerator)
  (params : list (string * ZodType)) (location : ParameterLocation)
  : Result (list Json) :=
  mapM (fun '(key, schema) =>
          let innerMetadata := getMetadata schema in
          referencedSchema <-
            getParameterRef this innerMetadata
              {| pd_in := Some location; pd_name := Some key |} ;;
          match referencedSchema with
          | Some referencedSchema => Ok referencedSchema
          | None =>
              let innerParameterMetadata := param innerMetadata in
              match innerParameterMetadata ≫= pm_name with
              | Some n =>
                  if truthy_str n && negb (str_eqb n key)
                  then Throw (ConflictError "Conflicting names for parameter"
                                "name" [JStr key; JStr n])
                  else Ok tt
              | None => Ok tt
              end ;;;
              match innerParameterMetadata ≫= pm_in with
              | Some l =>
                  if negb (bool_decide (l = location))
                  then Throw (ConflictError
                                ("Conflicting location for parameter "
                                   ++ default key (innerParameterMetadata ≫= pm_name))
                                "in"
                                [JStr (location_str location);
                                 JStr (location_str l)])
                  else Ok tt
              | None => Ok tt
              end ;;;
              JObj <$$> generateParameter this
                (openapi_method schema
                   {| refId := None; extendedFrom := None;
                      param := Some {| pm_in := Some location;
                                       pm_name := Some key;
                                       pm_rest := [] |};
                      schemaObject := [] |})
          end) params.

Definition generateSchemaDefinition (this : OpenapiGenerator)
  (zodSchema : ZodType) : Result OpenapiGenerator :=
  let metadata := getMetadata zodSchema in
  let refId := truthy_refId metadata in
  simpleSchema <- generateSimpleSchema (stack_bound zodSchema) this zodSchema ;;
  let result := applySchemaMetadata simpleSchema metadata in
  match refId with
  | Some refId =>
      Ok {| schemaRefs := obj_set refId (JObj result) (schemaRefs this);
            paramRefs := paramRefs this;
            pathRefs := pathRefs this;
            rawComponents := rawComponents this |}
  | None => Ok this
  end.

Definition getBodyContent (this : OpenapiGenerator) (content : ZodContentObject)
  : Result JsObject :=
  mapValuesM content
    (fun config =>
       match config with
       | IsSpec schema => Ok (JObj [("schema", schema)])
       | IsZod zodSchema =>
           schema <- generateSimpleSchema (stack_bound zodSchema) this zodSchema ;;
           Ok (JObj [("schema", JObj schema)])
       end).

Definition getRequestBody (this : OpenapiGenerator)
  (requestBody : option ZodRequestBody) : Result (option JsObject) :=
  match requestBody with
  | None => Ok None
  | Some requestBody =>
      requestBodyContent <- getBodyContent this (rb_content requestBody) ;;
      Ok (Some (obj_spread (rb_rest requestBody)
                  [("content", JObj requestBodyContent)]))
  end.

Definition getParameters (this : OpenapiGenerator)
  (request : option RequestConfig) : Result (list Json) :=
  match request with
  | None => Ok []
  | Some request =>
      queryParameters <-
        match Registry.query request with
        | Some q => generateInlineParameters this q Zod.query
        | None => Ok []
        end ;;
      pathParameters <-
        match Registry.params request with
        | Some p => generateInlineParameters this p Zod.path
        | None => Ok []
        end ;;
      headerParameters <-
        match Registry.headers request with
        | Some h => generateInlineParameters this h Zod.header
        | None => Ok []
        end ;;
      Ok (pathParameters ++ queryParameters ++ headerParameters)%list
  end.

Definition getResponseHeaders (this : OpenapiGenerator)
  (headers : list (string * ZodResponseHeaderObject)) : Result JsObject :=
  mapValuesM headers
    (fun config =>
       match rh_schema config with
       | IsSpec schema => Ok (JObj (("schema", schema) :: rh_rest config))
       | IsZod zodSchema =>
           schema <-
             generateInnerSchema (S (stack_bound zodSchema)) this zodSchema None ;;
           Ok (JObj (("schema", JObj schema) :: rh_rest config))
       end).

Definition getResponse (this : OpenapiGenerator) (response : ZodResponseConfig)
  : Result JsObject :=
  responseContent <-
    match rc_content response with
    | Some content =>
        c <- getBodyContent this content ;; Ok [("content", JObj c)]
    | None => Ok []
    end ;;
  responseHeaders <-
    match rc_headers response with
    | Some headers =>
        h <- getResponseHeaders this headers ;; Ok [("headers", JObj h)]
    | None => Ok []
    end ;;
  Ok (obj_spread (obj_spread (rc_rest response) responseContent) responseHeaders).

Definition generateSingleRoute (this : OpenapiGenerator) (route : ZodRouteConfig)
  : Result OpenapiGenerator :=
  generatedResponses <-
    mapValuesM (zr_responses route)
      (fun response => JObj <$$> getResponse this response) ;;
  parameters <- getParameters this (zr_request route) ;;
  requestBody <- getRequestBody this (zr_request route ≫= body) ;;
  let routeDoc :=
    [(method_str (zr_method route),
      JObj (obj_spread
              (obj_spread
                 (obj_spread (zr_rest route)
                    (if (0 <? length parameters)%nat
                     then [("parameters", JArr parameters)] else []))
                 (match requestBody with
                  | Some requestBody => [("requestBody", JObj requestBody)]
                  | None => []
                  end))
              [("responses", JObj generatedResponses)]))] in
  Ok {| schemaRefs := schemaRefs this;
        paramRefs := paramRefs this;
        pathRefs :=
          obj_set (zr_path route)
            (JObj (obj_spread
                     (match obj_get (zr_path route) (pathRefs this) with
                      | Some (JObj o) => o
                      | _ => []
                      end)
                     routeDoc))
            (pathRefs this);
        rawComponents := rawComponents this |}.

Definition generateSingle (this : OpenapiGenerator)
  (definition : OpenapiDefinitions) : Result OpenapiGenerator :=
  match definition with
  | DParameter schema => generateParameterDefinition this schema
  | DSchema schema => generateSchemaDefinition this schema
  | DRoute route => generateSingleRoute this route
  | DComponent componentType name component =>
      Ok {| schemaRefs := schemaRefs this;
            paramRefs := paramRefs this;
            pathRefs := pathRefs this;
            rawComponents :=
              (rawComponents this
                 ++ [{| componentType := componentType;
                        name := name;
                        component := component |}])%list |}
  end.

End WithValidator.

(** [generationOrder.findIndex((type) => type === t)]: [-1] when absent. *)
Definition generationOrder : list string := ["schema"; "parameter"; "route"].

Fixpoint findIndex_from (i : Z) (order : list string) (t : string) : Z :=
  match order with
  | [] => -1
  | type :: order' => if str_eqb type t then i else findIndex_from (i + 1) order' t
  end.

Definition findIndex (order : list string) (t : string) : Z :=
  findIndex_from 0 order t.

(** [Array.prototype.sort] is stable: an element is put in front of the
    first element it does not compare greater than. *)
Fixpoint sort_insert {A : Type} (cmp : A -> A -> Z) (x : A) (sorted : list A)
  : list A :=
  match sorted with
  | [] => [x]
  | y :: sorted' =>
      if cmp x y <=? 0 then x :: y :: sorted'
      else y :: sort_insert cmp x sorted'
  end.

Fixpoint stable_sort {A : Type} (cmp : A -> A -> Z) (xs : list A) : list A :=
  match xs with
  | [] => []
  | x :: xs' => sort_insert cmp x (stable_sort cmp xs')
  end.

(** The comparison given to [sort]. *)
Definition by_generationOrder (left right : OpenapiDefinitions) : Z :=
  let leftIndex := findIndex generationOrder (def_type left) in
  let rightIndex := findIndex generationOrder (def_type right) in
  leftIndex - rightIndex.

Definition sortDefinitions (definitions : list OpenapiDefinitions)
  : list OpenapiDefinitions :=
  stable_sort by_generationOrder definitions.

(** The body of the loop over [this.rawComponents]. *)
Definition add_rawComponent (rawComponents : JsObject) (c : RawComponent)
  : JsObject :=
  let bucket :=
    match obj_get (componentType c) rawComponents with
    | Some (JObj o) => o
    | _ => []
    end in
  obj_set (componentType c) (JObj (obj_set (name c) (component c) bucket))
          rawComponents.

(** The object built by the loop over [this.rawComponents]. *)
Definition collect_rawComponents (raw : list RawComponent) : JsObject :=
  fold_left add_rawComponent raw [].

Definition buildComponents (this : OpenapiGenerator) : JsObject :=
  let rawComponents := collect_rawComponents (rawComponents this) in
  let bucket k :=
    match obj_get k rawComponents with
    | Some (JObj o) => o
    | _ => []
    end in
  obj_spread rawComponents
    [("schemas", JObj (obj_spread (bucket "schemas") (schemaRefs this)));
     ("parameters", JObj (obj_spread (bucket "parameters") (paramRefs this)))].

(** [definitions.forEach(generateSingle)] *)
Fixpoint forEach_generateSingle
  (safeParse : ZodType -> Json -> SafeParseReturnType)
  (this : OpenapiGenerator) (definitions : list OpenapiDefinitions)
  : Result OpenapiGenerator :=
  match definitions with
  | [] => Ok this
  | definition :: definitions' =>
      this' <- generateSingle safeParse this definition ;;
      forEach_generateSingle safeParse this' definitions'
  end.

(** [new OpenapiGenerator(definitions).generateDocument(config)] *)
Definition generateDocument
  (safeParse : ZodType -> Json -> SafeParseReturnType)
  (definitions : list OpenapiDefinitions) (config : JsObject) : Result Json :=
  this <- forEach_generateSingle safeParse new_generator
            (sortDefinitions definitions) ;;
  Ok (JObj (obj_spread config
              [("components", JObj (buildComponents this));
               ("paths", JObj (pathRefs this))])).

End Generator.

(** ** Endpoints ([openapi_endpoint.ts]) *)

Module Endpoint.
Import Js Zod Registry RuntimeRequest.

Record EndpointRequest : Type := {
  er_query : option (list OpenapiRequestQueryKeySchema);
  er_params : option (list (string * ZodType));
  er_headers : option (list (string * ZodType));
  er_body : option ZodType;
}.

(** [OpenapiEndpoint]; the response schema map is read by the client only
    and is left out. *)
Record OpenapiEndpoint : Type := {
  config : OpenapiRouteConfig;
  ep_request : EndpointRequest;
}.

(** [endpointByPathByMethodMap] *)
Abbreviation OpenapiEndpoints := (gmap string (gmap string OpenapiEndpoint)).

Definition endpoints_get (this : OpenapiEndpoints) (path method : string)
  : option OpenapiEndpoint :=
  match this !! path with
  | Some byMethod => byMethod !! method
  | None => None
  end.

Definition endpoint (this : OpenapiEndpoints) (config : OpenapiRouteConfig)
  : OpenapiEndpoints :=
  let endpoint :=
    {| config := config;
       ep_request :=
         {| er_query := extractRequestQuerySchema config;
            er_params := extractRequestParamsSchema config;
            er_headers := extractRequestParamsSchema config;
            er_body := extractRequestBodySchema config |} |} in
  let byMethod := default ∅ (this !! Registry.path config) in
  <[Registry.path config :=
      <[method_str (Registry.method config) := endpoint]> byMethod]> this.

(** One of the two loops of [OpenapiEndpoints.merge], over the entries of
    [source], on the map being built: a path not seen yet gets an empty
    map, and every endpoint of the path is set in the map of the path. *)
Definition merge_entries (source mergedMap : OpenapiEndpoints) : OpenapiEndpoints :=
  map_fold
    (fun path methodMap mergedMap =>
       let mergedMap :=
         if bool_decide (is_Some (mergedMap !! path)) then mergedMap
         else <[path := ∅]> mergedMap in
       map_fold
         (fun method endpoint mergedMap =>
            <[path := <[method := endpoint]> (default ∅ (mergedMap !! path))]>
              mergedMap)
         mergedMap methodMap)
    mergedMap source.

(** [OpenapiEndpoints.merge(left, right)], also behind the method
    [merge(other)]. *)
Definition endpoints_merge (left right : OpenapiEndpoints) : OpenapiEndpoints :=
  merge_entries right (merge_entries left ∅).

(** The [request] of an [OpenapiJsonRouteConfig]: that of a route
    configuration with a schema as [body]. *)
Record JsonRequestConfig : Type := {
  jr_body : option ZodType;
  jr_params : option (list (string * ZodType));
  jr_query : option (list (string * ZodType));
  jr_headers : option (list (string * ZodType));
}.

(** [OpenapiJsonRouteConfig]; [js_rest] holds [summary], [tags] and
    [description], and [js_response_rest] the keys of [response] other
    than [body]. *)
Record OpenapiJsonRouteConfig : Type := {
  js_method : Method;
  js_path : string;
  js_request : option JsonRequestConfig;
  js_response_body : option ZodType;
  js_response_rest : JsObject;
  js_rest : JsObject;
}.

Definition jsonRouteConfigToRouteConfig (config : OpenapiJsonRouteConfig)
  : OpenapiRouteConfig :=
  {| method := js_method config;
     Registry.path := js_path config;
     request :=
       match js_request config with
       | Some request =>
           Some {| body :=
                     match jr_body request with
                     | Some body =>
                         Some {| rb_content := [("application/json", IsZod body)];
                                 rb_rest := [] |}
                     | None => None
                     end;
                   params := jr_params request;
                   query := jr_query request;
                   headers := jr_headers request |}
       | None => None
       end;
     responses :=
       match js_response_body config with
       | Some responseBody =>
           Some [("200",
                  {| rc_rest := js_response_rest config;
                     rc_headers := None;
                     rc_content :=
                       Some [("application/json", IsZod responseBody)] |})]
       | None => None
       end;
     rest := [] |}.

Definition jsonEndpoint (this : OpenapiEndpoints)
  (jsonConfig : OpenapiJsonRouteConfig) : OpenapiEndpoints :=
  endpoint this (jsonRouteConfigToRouteConfig jsonConfig).

End Endpoint.

(** ** The router ([openapi_server.ts]) *)

Module Server.
Import Js Zod Registry RuntimeRequest Endpoint.

(** *** Requests and responses of the platform *)

Definition lower_ascii (c : ascii) : ascii :=
  let n := nat_of_ascii c in
  if (65 <=? n)%nat && (n <=? 90)%nat then ascii_of_nat (n + 32) else c.

(** [s.toLowerCase()] on ASCII. *)
Fixpoint toLowerCase (s : string) : string :=
  match s with
  | EmptyString => EmptyString
  | String c s' => String (lower_ascii c) (toLowerCase s')
  end.

(** A parsed [URL]: its [pathname] and the pairs of its [searchParams]. *)
Record URL : Type := {
  pathname : string;
  searchParams : list (string * string);
}.

(** [searchParams.get(key)]: the first value, or [null]. *)
Definition searchParams_get (sp : list (string * string)) (key : string) : Json :=
  match List.find (fun kv => str_eqb kv.1 key) sp with
  | Some (_, v) => JStr v
  | None => JNull
  end.

(** [searchParams.getAll(key)]: every value, in order. *)
Definition searchParams_getAll (sp : list (string * string)) (key : string)
  : Json :=
  JArr (map (fun kv => JStr kv.2) (List.filter (fun kv => str_eqb kv.1 key) sp)).

(** The settled result of [request.json()]. *)
Inductive JsonResult : Type :=
| JsonValue (value : Json)
| JsonSyntaxError.

(** A [Request]: [headers] holds the header lines as they were sent, each
    value as the [Headers] object keeps it, without white space around it,
    and [body] stands for the body stream. *)
Record Request : Type := {
  req_method : string;
  req_url : URL;
  req_headers : list (string * string);
  req_body : Json;
  req_json : JsonResult;
}.

(** [Object.fromEntries(headers.entries())]: a [Headers] object holds
    lower-cased names and joins the values of a repeated name with a comma
    and a space.  These are the own keys of the object: [validatingHeaders[key]]
    is [obj_get key] on them for a [key] outside [Object_prototype_keys]. *)
Fixpoint headers_entries (sent : list (string * string)) : JsObject :=
  match sent with
  | [] => []
  | (n, v) :: sent' =>
      let rest := headers_entries sent' in
      let n := toLowerCase n in
      match obj_get n rest with
      | Some (JStr v') => obj_set n (JStr (v ++ ", " ++ v')) rest
      | _ => (n, JStr v) :: rest
      end
  end.

Inductive BodyInit : Type :=
| BodyText (text : string)
| BodyStringify (value : Json)   (* [JSON.stringify(value, null, 2)] *)
| BodyData (value : Json).

Record Response : Type := {
  status : Z;
  resp_headers : JsObject;
  resp_body : BodyInit;
}.

Record ConnInfo : Type := { remoteAddr : string }.

Inductive OpenapiRequestValidationErrorSource : Type :=
| src_params | src_query | src_headers | src_body.

Definition source_str (s : OpenapiRequestValidationErrorSource) : string :=
  match s with
  | src_params => "params"
  | src_query => "query"
  | src_headers => "headers"
  | src_body => "body"
  end.

Record OpenapiServerRequestContext : Type := {
  ctx_url : URL;
  ctx_params : JsObject;
  ctx_query : JsObject;
  ctx_headers : JsObject;
  ctx_body : Json;
  ctx_request : Request;
  ctx_connInfo : ConnInfo;
}.

Record ServerResponse : Type := {
  sr_status : Z;
  sr_mediaType : string;
  sr_data : Json;
  sr_headers : option JsObject;
}.

(** [transformRecordToStringValues] (dates are not modelled). *)
Definition transformRecordToStringValues (record : JsObject) : JsObject :=
  fromEntries (map (fun kv => (kv.1, JStr (String_of kv.2))) record).

(** [ServerResponse.toResponse()] *)
Definition toResponse (this : ServerResponse) : Response :=
  let body :=
    if str_eqb (sr_mediaType this) "application/json"
    then BodyStringify (sr_data this)
    else BodyData (sr_data this) in
  let headers :=
    headers_entries
      (map (fun kv => (kv.1, Generator.template kv.2))
           (transformRecordToStringValues (default [] (sr_headers this)))) in
  let headers :=
    if truthy (default JNull (obj_get "content-type" headers))
    then headers
    else obj_set "content-type" (JStr (sr_mediaType this)) headers in
  {| status := sr_status this; resp_headers := headers; resp_body := body |}.

(** What a handler returns: a [ServerResponse], or a [RawResponse], whose
    [toResponse()] is itself. *)
Inductive HandlerResponse : Type :=
| Typed (response : ServerResponse)
| Raw (response : Response).

Definition handler_toResponse (r : HandlerResponse) : Response :=
  match r with
  | Typed r => toResponse r
  | Raw r => r
  end.

(** *** [memoizePromise] *)

Section MemoizePromise.

(** [W] is the state [create] may read and change, [T] the promises. *)
Context {W T E : Type}.

(** What a call does: it returns a promise or throws. *)
Inductive Completion : Type :=
| Returned (promise : T)
| Thrown (exception : E).

Variable create : W -> Completion * W.

(** One call of the function returned by [memoizePromise(create)], on the
    variable [memoized] of its closure: the completion, whether [create]
    ran, and the state afterwards. *)
Definition memoizePromise (memoized : option T) (w : W)
  : Completion * bool * option T * W :=
  match memoized with
  | None =>
      match create w with
      | (Returned promise, w') => (Returned promise, true, Some promise, w')
      | (Thrown e, w') => (Thrown e, true, None, w')
      end
  | Some promise => (Returned promise, false, Some promise, w)
  end.

(** What happens between two calls: another call, or any other task,
    such as the settling of a promise. *)
Inductive Task : Type :=
| Call
| Other (task : W -> W).

(** A run of tasks: the completions of the calls in order, the number of
    times [create] ran, and the final state. *)
Fixpoint run (tasks : list Task) (memoized : option T) (w : W)
  : list Completion * nat * option T * W :=
  match tasks with
  | [] => ([], O, memoized, w)
  | Call :: tasks' =>
      let '(c, ran, memoized', w') := memoizePromise memoized w in
      let '(cs, n, memoized'', w'') := run tasks' memoized' w' in
      (c :: cs, ((if ran then 1 else 0) + n)%nat, memoized'', w'')
  | Other task :: tasks' => run tasks' memoized (task w)
  end.

End MemoizePromise.

Arguments Completion : clear implicits.
Arguments Task : clear implicits.

(** *** Routes *)

(** [path.replaceAll(/{([^}]+)}/g, ":$1")]: scanning from the left, a
    brace followed by one or more characters other than a closing brace and
    then a closing brace becomes a colon followed by those characters.
    [pending] holds the characters read since an opening brace. *)
Fixpoint replace_placeholders (pending : option string) (s : string) : string :=
  match s, pending with
  | EmptyString, None => EmptyString
  | EmptyString, Some name => String "{" name
  | String c s', None =>
      if Ascii.eqb c "{" then replace_placeholders (Some EmptyString) s'
      else String c (replace_placeholders None s')
  | String c s', Some name =>
      if Ascii.eqb c "}" then
        match name with
        | EmptyString => String "{" (String "}" (replace_placeholders None s'))
        | _ => String ":" (name ++ replace_placeholders None s')
        end
      else replace_placeholders (Some (name ++ String c EmptyString)) s'
  end.

Definition patternPath_of (path : string) : string :=
  replace_placeholders None path.

(** [new URLPattern({ pathname })] *)
Record URLPattern : Type := { up_pathname : string }.

Inductive Handler : Type :=
| UserHandler (handler : OpenapiServerRequestContext -> HandlerResponse)
| DocsHandler.   (* [handler() { return memorizedDocs(); }] *)

Record OpenapiRoute : Type := {
  path : string;
  urlPattern : option URLPattern;
  paramSchemas : option (list (string * ZodType));
  querySchemas : option (list OpenapiRequestQueryKeySchema);
  headerSchemas : option (list (string * ZodType));
  bodySchema : option ZodType;
  validationErrorHandler :
    option (OpenapiRequestValidationErrorSource -> ZodError -> Response);
  handler : Handler;
}.

Record MethodRoutes : Type := {
  byPathTemplateMap : gmap string OpenapiRoute;
  byPathMap : gmap string OpenapiRoute;
  patternList : list OpenapiRoute;
}.

(** An [OpenapiRouter]; [memoized] is the variable of the closure made by
    [memoizePromise] in the constructor. *)
Record OpenapiRouter : Type := {
  endpoints : OpenapiEndpoints;
  defaultValidationErrorHandler :
    OpenapiRequestValidationErrorSource -> ZodError -> Response;
  registry : OpenapiRegistry;
  routesByUppercasedMethodMap : gmap string MethodRoutes;
  memoized : option ServerResponse;
}.

Definition builtin_defaultValidationErrorHandler
  (source : OpenapiRequestValidationErrorSource) (error : ZodError) : Response :=
  {| status := 400;
     resp_headers := [("content-type", JStr "application/json")];
     resp_body :=
       BodyStringify
         (JObj [("message", JStr "Request validation failed");
                ("source", JStr (source_str source));
                ("errors", errors error)]) |}.

Definition notFound : Response :=
  {| status := 404; resp_headers := []; resp_body := BodyText "Not found" |}.

Definition addRoute (this : OpenapiRouter) (config : OpenapiRouteConfig)
  (route : OpenapiRoute) : OpenapiRouter :=
  let upperCasedMethod := toUpperCase (method config) in
  let routes :=
    default {| byPathMap := ∅; byPathTemplateMap := ∅; patternList := [] |}
            (routesByUppercasedMethodMap this !! upperCasedMethod) in
  let routes :=
    {| byPathTemplateMap :=
         <[Registry.path config := route]> (byPathTemplateMap routes);
       byPathMap :=
         match urlPattern route with
         | Some _ => byPathMap routes
         | None => <[path route := route]> (byPathMap routes)
         end;
       patternList :=
         match urlPattern route with
         | Some _ => (patternList routes ++ [route])%list
         | None => patternList routes
         end |} in
  {| endpoints := endpoints this;
     defaultValidationErrorHandler := defaultValidationErrorHandler this;
     registry :=
       registerPath (registry this)
         {| zr_method := method config;
            zr_path := Registry.path config;
            zr_request := request config;
            zr_responses :=
              default [("200", {| rc_rest := [("description", JStr "OK")];
                                  rc_headers := None;
                                  rc_content := None |})]
                      (responses config);
            zr_rest := rest config |};
     routesByUppercasedMethodMap :=
       <[upperCasedMethod := routes]> (routesByUppercasedMethodMap this);
     memoized := memoized this |}.

(** [new OpenapiRouter({ endpoints, registry, defaultValidationErrorHandler,
    openapiSpecPath })] *)
Definition new_OpenapiRouter (endpoints : OpenapiEndpoints)
  (registry : OpenapiRegistry)
  (defaultValidationErrorHandler :
     option (OpenapiRequestValidationErrorSource -> ZodError -> Response))
  (openapiSpecPath : string) : OpenapiRouter :=
  addRoute
    {| endpoints := endpoints;
       defaultValidationErrorHandler :=
         default builtin_defaultValidationErrorHandler
                 defaultValidationErrorHandler;
       registry := registry;
       routesByUppercasedMethodMap := ∅;
       memoized := None |}
    {| method := get;
       Registry.path := openapiSpecPath;
       request := None;
       responses :=
         Some [("200",
                {| rc_rest := [("description", JStr "OpenAPI v3 specification")];
                   rc_headers := None;
                   rc_content :=
                     Some [("application/json", IsZod (ZodUnknown no_def))] |})];
       rest := [] |}
    {| path := openapiSpecPath;
       urlPattern := Some {| up_pathname := patternPath_of openapiSpecPath |};
       paramSchemas := None;
       querySchemas := None;
       headerSchemas := None;
       bodySchema := None;
       validationErrorHandler := defaultValidationErrorHandler;
       handler := DocsHandler |}.

(** The private [method], behind [get], [put], [post], [patch] and
    [delete]: the router afterwards, or the [Error] thrown. *)
Definition method (this : OpenapiRouter) (method : Method) (path : string)
  (handler : OpenapiServerRequestContext -> HandlerResponse)
  (validationErrorHandler :
     option (OpenapiRequestValidationErrorSource -> ZodError -> Response))
  : Generator.Result OpenapiRouter :=
  let upperCasedMethod := toUpperCase method in
  if match routesByUppercasedMethodMap this !! upperCasedMethod with
     | Some routes => bool_decide (is_Some (byPathTemplateMap routes !! path))
     | None => false
     end
  then Generator.Throw
         (Generator.Error ("Duplicate route for the combination of method="
                             ++ method_str method ++ " path=" ++ path))
  else
    match endpoints_get (endpoints this) path (method_str method) with
    | None =>
        Generator.Throw
          (Generator.Error ("Defect: endpoint not found path=" ++ path
                              ++ " method=" ++ method_str method))
    | Some endpoint =>
        let config := Endpoint.config endpoint in
        let patternPath := patternPath_of path in
        let route :=
          {| path := path;
             urlPattern :=
               if negb (str_eqb path patternPath)
               then Some {| up_pathname := patternPath |} else None;
             querySchemas := extractRequestQuerySchema config;
             paramSchemas := extractRequestParamsSchema config;
             headerSchemas := extractRequestHeadersSchema config;
             bodySchema := extractRequestBodySchema config;
             validationErrorHandler := validationErrorHandler;
             handler := UserHandler handler |} in
        Generator.Ok (addRoute this config route)
    end.

(** *** Serving a request *)

(** What [handle] does that can be observed from outside, in order. *)
Inductive Event : Type :=
| EvJson                       (* [request.json()] *)
| EvSafeParse (source : OpenapiRequestValidationErrorSource)
    (key : option string) (schema : ZodType) (rawValue : Json)
                               (* [schema.safeParse(rawValue)] *)
| EvValidationError (source : OpenapiRequestValidationErrorSource)
    (error : ZodError)         (* [validationErrorHandler(source, error)] *)
| EvHandler (ctx : OpenapiServerRequestContext).
                               (* [matchedRoute.handler(ctx, ...)] *)

Inductive Exception : Type :=
| SyntaxError                               (* malformed JSON *)
| GeneratorError (e : Generator.GenError).  (* thrown while generating *)

(** How the promise returned by [handle] settles. *)
Inductive Outcome : Type :=
| Resolved (response : Response)
| Rejected (reason : Exception).

Section Handle.

(** [schema.safeParse(value)] of the schema library. *)
Variable safeParse : ZodType -> Json -> SafeParseReturnType.

(** [urlPattern.exec(url)?.pathname.groups] of the platform; [test] holds
    exactly when [exec] gives a result. *)
Variable URLPattern_exec : URLPattern -> URL -> option (list (string * string)).

Definition URLPattern_test (p : URLPattern) (url : URL) : bool :=
  bool_decide (is_Some (URLPattern_exec p url)).

(** The body of the three [for ... of] loops: [entries] are the keys and
    schemas with the raw value read for each; the loop stops at the first
    failure. *)
Fixpoint validate_loop (source : OpenapiRequestValidationErrorSource)
  (entries : list (string * ZodType * Json))
  : list Event * (ZodError + list (string * Json)) :=
  match entries with
  | [] => ([], inr [])
  | (key, schema, rawValue) :: entries' =>
      let ev := EvSafeParse source (Some key) schema rawValue in
      match safeParse schema rawValue with
      | ParseSuccess data =>
          let '(evs, r) := validate_loop source entries' in
          (ev :: evs,
           match r with
           | inr validated => inr ((key, data) :: validated)
           | inl error => inl error
           end)
      | ParseFailure error => ([ev], inl error)
      end
  end.

(** The function made by [memoizePromise] in the constructor. *)
Definition create_docs (registry : OpenapiRegistry)
  : Completion ServerResponse Generator.GenError * OpenapiRegistry :=
  match Generator.generateDocument safeParse registry
          [("openapi", JStr "3.0.0");
           ("info", JObj [("title", JStr "Test"); ("version", JStr "1.0.0")])]
  with
  | Generator.Ok document =>
      (Returned {| sr_status := 200;
                   sr_mediaType := "application/json";
                   sr_data := document;
                   sr_headers := None |},
       registry)
  | Generator.Throw e => (Thrown e, registry)
  end.

(** [matchedRoute.handler(ctx, genericResponderFactory)], for a handler
    that returns: the outcome of [handle] is given for calls of handlers
    and of [safeParse] that return.  An exception thrown by either is not
    caught by [handle] and rejects it. *)
Definition call_handler (this : OpenapiRouter) (h : Handler)
  (ctx : OpenapiServerRequestContext) : Outcome * OpenapiRouter :=
  match h with
  | UserHandler handler =>
      (Resolved (handler_toResponse (handler ctx)), this)
  | DocsHandler =>
      let '(c, _, memoized', _) :=
        memoizePromise create_docs (memoized this) (registry this) in
      (match c with
       | Returned typedResponse => Resolved (toResponse typedResponse)
       | Thrown e => Rejected (GeneratorError e)
       end,
       {| endpoints := endpoints this;
          defaultValidationErrorHandler := defaultValidationErrorHandler this;
          registry := registry this;
          routesByUppercasedMethodMap := routesByUppercasedMethodMap this;
          memoized := memoized' |})
  end.

(** The lookup at the head of [handle]: the route matched and the groups
    captured from the path, if a pattern matched. *)
Definition match_route (routes : MethodRoutes) (url : URL)
  : option (OpenapiRoute * option (list (string * string))) :=
  match byPathMap routes !! pathname url with
  | Some matchedRoute => Some (matchedRoute, None)
  | None =>
      match List.find
              (fun r => match urlPattern r with
                        | Some p => URLPattern_test p url
                        | None => false
                        end)
              (patternList routes) with
      | Some matchedRoute =>
          Some (matchedRoute, urlPattern matchedRoute ≫= (fun p => URLPattern_exec p url))
      | None => None
      end
  end.

(** [validatingParams[key]], for a [key] outside [Object_prototype_keys] *)
Definition groups_get (groups : list (string * string)) (key : string) : Json :=
  match List.find (fun kv => str_eqb kv.1 key) groups with
  | Some (_, v) => JStr v
  | None => JUndefined
  end.

(** [handle(request, connInfo)]: what it did, how its promise settles, and
    the router afterwards. *)
Definition handle (this : OpenapiRouter) (request : Request) (connInfo : ConnInfo)
  : list Event * Outcome * OpenapiRouter :=
  let url := req_url request in
  match routesByUppercasedMethodMap this !! req_method request with
  | None => ([], Resolved notFound, this)
  | Some routes =>
  match match_route routes url with
  | None => ([], Resolved notFound, this)
  | Some (matchedRoute, params) =>
  let validationErrorHandler :=
    default (defaultValidationErrorHandler this)
            (validationErrorHandler matchedRoute) in
  let searchParams := searchParams url in
  let headers := headers_entries (req_headers request) in
  let fail trace source error :=
    ((trace ++ [EvValidationError source error])%list,
     Resolved (validationErrorHandler source error), this) in
  (* [bodySchema !== undefined ? await request.json() : request.body] *)
  match match bodySchema matchedRoute with
        | Some _ =>
            match req_json request with
            | JsonValue v => inr ([EvJson], v)
            | JsonSyntaxError => inl [EvJson]
            end
        | None => inr ([], req_body request)
        end with
  | inl trace => (trace, Rejected SyntaxError, this)
  | inr (trace0, body) =>
  let validatingParams := default [] params in
  let '(trace1, paramValidation) :=
    validate_loop src_params
      (map (fun '(key, schema) => (key, schema, groups_get validatingParams key))
           (default [] (paramSchemas matchedRoute))) in
  match paramValidation with
  | inl error => fail (trace0 ++ trace1)%list src_params error
  | inr validatedParams =>
  let '(trace2, queryValidation) :=
    validate_loop src_query
      (map (fun q =>
              (key q, schema q,
               if isArray q then searchParams_getAll searchParams (key q)
               else searchParams_get searchParams (key q)))
           (default [] (querySchemas matchedRoute))) in
  match queryValidation with
  | inl error => fail (trace0 ++ trace1 ++ trace2)%list src_query error
  | inr validatedQuery =>
  let '(trace3, headerValidation) :=
    validate_loop src_headers
      (map (fun '(key, schema) =>
              (key, schema, default JUndefined (obj_get key headers)))
           (default [] (headerSchemas matchedRoute))) in
  match headerValidation with
  | inl error => fail (trace0 ++ trace1 ++ trace2 ++ trace3)%list src_headers error
  | inr validatedHeaders =>
  let '(trace4, bodyValidation) :=
    match bodySchema matchedRoute with
    | Some bodySchema =>
        ([EvSafeParse src_body None bodySchema body],
         match safeParse bodySchema body with
         | ParseSuccess data => inr data
         | ParseFailure error => inl error
         end)
    | None => ([], inr body)
    end in
  match bodyValidation with
  | inl error =>
      fail (trace0 ++ trace1 ++ trace2 ++ trace3 ++ trace4)%list src_body error
  | inr validatedBody =>
  let ctx :=
    {| ctx_url := url;
       ctx_params := fromEntries validatedParams;
       ctx_query := fromEntries validatedQuery;
       ctx_headers := fromEntries validatedHeaders;
       ctx_body := validatedBody;
       ctx_request := request;
       ctx_connInfo := connInfo |} in
  let '(outcome, this') := call_handler this (handler matchedRoute) ctx in
  ((trace0 ++ trace1 ++ trace2 ++ trace3 ++ trace4 ++ [EvHandler ctx])%list,
   outcome, this')
  end end end end end end end.

End Handle.

End Server.

(** ** Response schemas of a route ([runtime/response.ts]) *)

Module RuntimeResponse.
Import Js Zod Registry.

(** A JavaScript [Map] as the list of its entries in insertion order. *)
Section JsMap.

Context {K V : Type} `{EqDecision K}.

(** [map.get(k)] *)
Fixpoint Map_get (k : K) (m : list (K * V)) : option V :=
  match m with
  | [] => None
  | (k', v) :: m' => if decide (k = k') then Some v else Map_get k m'
  end.

(** [map.set(k, v)]: an existing key keeps its position, a new key goes
    last. *)
Fixpoint Map_set (k : K) (v : V) (m : list (K * V)) : list (K * V) :=
  match m with
  | [] => [(k, v)]
  | (k', v') :: m' =>
      if decide (k = k') then (k', v) :: m' else (k', v') :: Map_set k v m'
  end.

End JsMap.

(** The value of a [ResponseSchemaMap] for a status and a media type. *)
Record ResponseSchemas : Type := {
  rs_body : option ZodType;
  rs_headers : option (list (string * ZodType));
}.

(** [ResponseSchemaMap]: by status code, by media type.  A status code is
    a number or [NaN], which is [None]. *)
Abbreviation ResponseSchemaMap :=
  (list (option Z * list (string * ResponseSchemas))).

(** An element of the list [responses] built by the [flatMap]. *)
Record ResponseEntry : Type := {
  re_statusCode : option Z;
  re_mediaType : string;
  re_bodySchema : option ZodType;
  re_headerSchemaList : list (string * ZodType);
}.

Section WithParseInt.

(** [parseInt(statusCode)] of the platform. *)
Variable parseInt : string -> option Z.

(** The header schemas of a response that are schemas of the library. *)
Definition headerSchemaList_of (response : ZodResponseConfig)
  : list (string * ZodType) :=
  match rc_headers response with
  | Some headers =>
      omap (fun kv =>
              match rh_schema kv.2 with
              | IsZod headerSchema => Some (kv.1, headerSchema)
              | IsSpec _ => None
              end) headers
  | None => []
  end.

(** The callback of [flatMap]. *)
Definition response_entries (statusCode : string) (response : ZodResponseConfig)
  : list ResponseEntry :=
  match rc_content response with
  | Some content =>
      let headerSchemaList := headerSchemaList_of response in
      map (fun kv =>
             {| re_statusCode := parseInt statusCode;
                re_mediaType := kv.1;
                re_bodySchema :=
                  match kv.2 with
                  | IsZod schema => Some schema
                  | IsSpec _ => None
                  end;
                re_headerSchemaList := headerSchemaList |})
          content
  | None => []
  end.

(** The callback of [reduce]. *)
Definition add_response_entry (map : ResponseSchemaMap) (e : ResponseEntry)
  : ResponseSchemaMap :=
  let byMediaType := default [] (Map_get (re_statusCode e) map) in
  Map_set (re_statusCode e)
    (Map_set (re_mediaType e)
       {| rs_body := re_bodySchema e;
          rs_headers := Some (re_headerSchemaList e) |}
       byMediaType)
    map.

Definition extractResponseSchemaMap (config : OpenapiRouteConfig)
  : option ResponseSchemaMap :=
  match responses config with
  | Some responses =>
      let responses :=
        flat_map (fun kv => response_entries kv.1 kv.2) responses in
      Some (fold_left add_response_entry responses [])
  | None => None
  end.

End WithParseInt.

End RuntimeResponse.

(** ** The client ([openapi_client.ts]) *)

Module Client.
Import Js Zod Registry RuntimeRequest RuntimeResponse Endpoint Server.

(** [toStringValue(value)]; the values are those of [Json], which has no
    dates. *)
Definition toStringValue (value : Json) : string := String_of value.

(** [toUrlSearchParams(query)]: the pairs given to [new URLSearchParams]. *)
Definition toUrlSearchParams (query : JsObject) : list (string * string) :=
  flat_map (fun kv =>
              match kv.2 with
              | JArr value => map (fun v => (kv.1, toStringValue v)) value
              | value => [(kv.1, toStringValue value)]
              end) query.

(** A header name: a non-empty token of the HTTP grammar. *)
Definition is_tchar (c : ascii) : bool :=
  let n := nat_of_ascii c in
  ((48 <=? n) && (n <=? 57))%nat || ((65 <=? n) && (n <=? 90))%nat
  || ((97 <=? n) && (n <=? 122))%nat
  || existsb (Ascii.eqb c)
       ["!"; "#"; "$"; "%"; "&"; "'"; "*"; "+"; "-"; "."; "^"; "_"; "`"; "|"; "~"]%char.

Definition is_header_name (name : string) : bool :=
  negb (str_eqb name "") && forallb is_tchar (list_ascii_of_string name).

(** [headers.get(name)] of the platform: a [TypeError] for a name that is
    not a header name, which is [None] here; otherwise the values sent
    under the name, whatever its case, joined with a comma and a space, or
    [null]. *)
Definition Headers_get (sent : list (string * string)) (name : string)
  : option Json :=
  if is_header_name name
  then Some (default JNull (obj_get (toLowerCase name) (headers_entries sent)))
  else None.

(** What [fetch] resolved to: [fr_json] and [fr_text] are the settled
    results of [response.json()] and [response.text()], and [fr_body]
    stands for the body stream. *)
Record FetchResponse : Type := {
  fr_status : Z;
  fr_ok : bool;
  fr_headers : list (string * string);
  fr_json : JsonResult;
  fr_text : string;
  fr_body : Json;
}.

(** The [headers] of a [ClientResponse]: the [Headers] of the response,
    or the record of the validated headers. *)
Inductive ClientHeaders : Type :=
| ResponseHeaders (sent : list (string * string))
| ValidatedHeaders (record : JsObject).

Record ClientResponse : Type := {
  cr_status : Z;
  cr_mediaType : string;
  cr_data : Json;
  cr_response : FetchResponse;
  cr_headers : ClientHeaders;
  cr_ok : bool;
}.

(** [new ClientResponse(status, mediaType, data, response, headers)] *)
Definition new_ClientResponse (status : Z) (mediaType : string) (data : Json)
  (response : FetchResponse) (headers : ClientHeaders) : ClientResponse :=
  {| cr_status := status; cr_mediaType := mediaType; cr_data := data;
     cr_response := response; cr_headers := headers; cr_ok := fr_ok response |}.

(** The exceptions of the client, and those of the platform. *)
Inductive ClientError : Type :=
| OpenapiClientUnexpectedResponseError (body : Json) (response : FetchResponse)
| OpenapiClientResponseHeaderValidationError (headerName : string)
    (headerValue : Json) (error : ZodError)
| OpenapiClientResponseValidationError (response : FetchResponse) (data : Json)
    (error : ZodError)
| ResponseSyntaxError      (* [response.json()] rejected *)
| HeaderNameTypeError.     (* [headers.get] on a name that is not one *)

Inductive ClientOutcome : Type :=
| Returns (response : ClientResponse)
| Throws (error : ClientError).

Section WithPlatform.

Variable safeParse : ZodType -> Json -> SafeParseReturnType.
Variable parseInt : string -> option Z.

(** The callback mapped over [responseHeaderSchemas]; the first exception
    ends the loop. *)
Fixpoint validateResponseHeaders (responseHeaders : list (string * string))
  (responseHeaderSchemas : list (string * ZodType))
  : ClientError + list (string * Json) :=
  match responseHeaderSchemas with
  | [] => inr []
  | (headerName, headerSchema) :: schemas =>
      match Headers_get responseHeaders headerName with
      | None => inl HeaderNameTypeError
      | Some headerValue =>
          match safeParse headerSchema headerValue with
          | ParseSuccess data =>
              match validateResponseHeaders responseHeaders schemas with
              | inr validated => inr ((headerName, data) :: validated)
              | inl e => inl e
              end
          | ParseFailure error =>
              inl (OpenapiClientResponseHeaderValidationError
                     headerName headerValue error)
          end
      end
  end.

(** [openapiFetch] from [await fetch(...)] on: what it makes of the
    [response] that [fetch] resolved to for the request it built.  The
    response schema map of the endpoint is the one [endpoint()] extracted
    from its configuration. *)
Definition openapiFetch (endpoint : OpenapiEndpoint) (response : FetchResponse)
  : ClientOutcome :=
  let responseStatus := fr_status response in
  let responseHeaders := fr_headers response in
  let responseContentType :=
    default JNull (Headers_get responseHeaders "content-type") in
  match extractResponseSchemaMap parseInt (config endpoint) with
  | None =>
      Returns (new_ClientResponse responseStatus "" (fr_body response) response
                 (ResponseHeaders responseHeaders))
  | Some responseBodyMap =>
  match match responseContentType with
        | JStr contentType =>
            if str_eqb contentType "application/json" then
              match fr_json response with
              | JsonValue v => inr v
              | JsonSyntaxError => inl ResponseSyntaxError
              end
            else if String.prefix "text/" contentType
                 then inr (JStr (fr_text response))
                 else inr (fr_body response)
        | _ => inr (fr_body response)
        end with
  | inl e => Throws e
  | inr responseBody =>
  match responseContentType with
  | JStr responseContentType =>
      match Map_get (Some responseStatus) responseBodyMap
            ≫= Map_get responseContentType with
      | None =>
          Throws (OpenapiClientUnexpectedResponseError responseBody response)
      | Some schemas =>
          match match rs_headers schemas with
                | Some responseHeaderSchemas =>
                    match validateResponseHeaders responseHeaders
                            responseHeaderSchemas with
                    | inr validated => inr (ValidatedHeaders (fromEntries validated))
                    | inl e => inl e
                    end
                | None => inr (ResponseHeaders responseHeaders)
                end with
          | inl e => Throws e
          | inr validatedResponseHeaders =>
              match rs_body schemas with
              | Some responseBodySchema =>
                  match safeParse responseBodySchema responseBody with
                  | ParseSuccess data =>
                      Returns (new_ClientResponse responseStatus
                                 responseContentType data response
                                 validatedResponseHeaders)
                  | ParseFailure error =>
                      Throws (OpenapiClientResponseValidationError
                                response responseBody error)
                  end
              | None =>
                  Returns (new_ClientResponse responseStatus responseContentType
                             responseBody response
                             (ResponseHeaders responseHeaders))
              end
          end
      end
  | _ => Throws (OpenapiClientUnexpectedResponseError responseBody response)
  end end end.

End WithPlatform.

End Client.

(** ** Stand-ins for the platform in examples

    A small validator and a segment-wise path matcher, used only to run
    the definitions above on concrete inputs. *)

Module Sample.
Import Js Zod Registry RuntimeRequest Endpoint Server.

Definition invalid (message : string) : SafeParseReturnType :=
  ParseFailure {| errors := JArr [JObj [("message", JStr message)]] |}.

Definition string_check_ok (v : string) (c : StringCheck) : bool :=
  match c with
  | ck_min n => (n <=? Z.of_nat (String.length v))
  | ck_max n => (Z.of_nat (String.length v) <=? n)
  | _ => true
  end.

(** A validator for strings with length bounds, numbers, booleans, [null],
    literals, wrappers, arrays and objects; effects let the value through
    to the schema they wrap. *)
Fixpoint sampleParse (s : ZodType) (v : Json) {struct s} : SafeParseReturnType :=
  match s with
  | ZodString _ checks =>
      match v with
      | JStr x =>
          if forallb (string_check_ok x) checks then ParseSuccess v
          else invalid "String out of bounds"
      | _ => invalid "Expected string"
      end
  | ZodNumber _ _ =>
      match v with JNum _ => ParseSuccess v | _ => invalid "Expected number" end
  | ZodBoolean _ =>
      match v with JBool _ => ParseSuccess v | _ => invalid "Expected boolean" end
  | ZodNull _ =>
      match v with JNull => ParseSuccess v | _ => invalid "Expected null" end
  | ZodLiteral _ l =>
      if objectEquals v l then ParseSuccess v else invalid "Invalid literal value"
  | ZodOptional _ inner =>
      match v with JUndefined => ParseSuccess v | _ => sampleParse inner v end
  | ZodNullable _ inner =>
      match v with JNull => ParseSuccess v | _ => sampleParse inner v end
  | ZodDefault _ inner d =>
      match v with JUndefined => ParseSuccess d | _ => sampleParse inner v end
  | ZodEffects _ _ inner => sampleParse inner v
  | ZodArray _ item _ _ =>
      match v with
      | JArr xs =>
          if forallb (fun x => success (sampleParse item x)) xs
          then ParseSuccess v else invalid "Invalid element"
      | _ => invalid "Expected array"
      end
  | ZodObject _ shape _ =>
      match v with
      | JObj o =>
          if (fix every (l : list (string * ZodType)) : bool :=
                match l with
                | [] => true
                | kv :: l' =>
                    success (sampleParse kv.2 (default JUndefined (obj_get kv.1 o)))
                    && every l'
                end) shape
          then ParseSuccess v else invalid "Invalid property"
      | _ => invalid "Expected object"
      end
  | ZodUnknown _ => ParseSuccess v
  | _ => invalid "Unsupported schema"
  end.

Fixpoint split_slash (cur : string) (s : string) : list string :=
  match s with
  | EmptyString => [cur]
  | String c s' =>
      if Ascii.eqb c "/" then cur :: split_slash EmptyString s'
      else split_slash (cur ++ String c EmptyString) s'
  end.

Fixpoint match_segments (ps us : list string)
  : option (list (string * string)) :=
  match ps, us with
  | [], [] => Some []
  | p :: ps', u :: us' =>
      match p with
      | String ":" name =>
          if str_eqb u "" then None
          else groups ← match_segments ps' us'; Some ((name, u) :: groups)
      | _ => if str_eqb p u then match_segments ps' us' else None
      end
  | _, _ => None
  end.

(** A pattern matches a path segment by segment; a segment [:name] of the
    pattern captures a non-empty segment of the path. *)
Definition sampleExec (p : URLPattern) (url : URL)
  : option (list (string * string)) :=
  match_segments (split_slash EmptyString (up_pathname p))
                 (split_slash EmptyString (pathname url)).

Definition z_string : ZodType := ZodString no_def [].
Definition z_string_min (n : Z) : ZodType := ZodString no_def [ck_min n].
Definition z_number : ZodType := ZodNumber no_def [].
Definition z_boolean : ZodType := ZodBoolean no_def.
Definition z_array (item : ZodType) : ZodType := ZodArray no_def item None None.
Definition z_object (shape : list (string * ZodType)) : ZodType :=
  ZodObject no_def shape strip.

Definition connInfo : ConnInfo := {| remoteAddr := "127.0.0.1" |}.

(** A handler that answers with its own name and what it was given. *)
Definition ok_handler (name : string) (ctx : OpenapiServerRequestContext)
  : HandlerResponse :=
  Typed {| sr_status := 200;
           sr_mediaType := "application/json";
           sr_data := JObj [("handler", JStr name);
                            ("params", JObj (ctx_params ctx));
                            ("query", JObj (ctx_query ctx));
                            ("headers", JObj (ctx_headers ctx));
                            ("body", ctx_body ctx)];
           sr_headers := None |}.

(** [PUT /users/{id}] with a path parameter of at least five characters, a
    query parameter [tag] that is an array of strings, a query parameter
    [first], a header and a JSON body. *)
Definition updateUser (headerName : string) : OpenapiRouteConfig :=
  {| Registry.method := put;
     Registry.path := "/users/{id}";
     request := Some
       {| body := Some {| rb_content :=
                            [("application/json",
                              IsZod (z_object [("name", z_string)]))];
                          rb_rest := [] |};
          params := Some [("id", z_string_min 5)];
          query := Some [("tag", optional (z_array z_string));
                         ("first", nullable z_string)];
          headers := Some [(headerName, z_string)] |};
     responses := None;
     rest := [] |}.

Definition usersList : OpenapiRouteConfig :=
  {| Registry.method := get; Registry.path := "/users/list";
     request := None; responses := None; rest := [] |}.

Definition usersById : OpenapiRouteConfig :=
  {| Registry.method := get; Registry.path := "/users/{id}";
     request := Some {| body := None; params := Some [("id", z_string)];
                        query := None; headers := None |};
     responses := None; rest := [] |}.

Definition sampleEndpoints (headerName : string) : OpenapiEndpoints :=
  endpoint (endpoint (endpoint ∅ (updateUser headerName)) usersList) usersById.

(** The router of the examples; [exact_first] chooses whether
    [/users/list] is registered before or after [/users/{id}]. *)
Definition sampleRouter (headerName : string) (exact_first : bool)
  : Generator.Result OpenapiRouter :=
  let r0 := new_OpenapiRouter (sampleEndpoints headerName) [] None "/docs/openapi" in
  Generator.bind (method r0 put "/users/{id}" (ok_handler "updateUser") None)
    (fun r1 =>
  if exact_first then
    Generator.bind (method r1 get "/users/list" (ok_handler "usersList") None)
      (fun r2 => method r2 get "/users/{id}" (ok_handler "usersById") None)
  else
    Generator.bind (method r1 get "/users/{id}" (ok_handler "usersById") None)
      (fun r2 => method r2 get "/users/list" (ok_handler "usersList") None)).

(** The same router, as a value. *)
Definition theRouter (headerName : string) (exact_first : bool) : OpenapiRouter :=
  match sampleRouter headerName exact_first with
  | Generator.Ok router => router
  | Generator.Throw _ => new_OpenapiRouter ∅ [] None "/docs/openapi"
  end.

(** Its routes for a method. *)
Definition theRoutes (headerName : string) (exact_first : bool) (method : string)
  : MethodRoutes :=
  default {| byPathTemplateMap := ∅; byPathMap := ∅; patternList := [] |}
          (routesByUppercasedMethodMap (theRouter headerName exact_first) !! method).

(** The route registered for [PUT /users/{id}]. *)
Definition updateUserRoute (headerName : string) : OpenapiRoute :=
  {| path := "/users/{id}";
     urlPattern := Some {| up_pathname := "/users/:id" |};
     paramSchemas := extractRequestParamsSchema (updateUser headerName);
     querySchemas := extractRequestQuerySchema (updateUser headerName);
     headerSchemas := extractRequestHeadersSchema (updateUser headerName);
     bodySchema := extractRequestBodySchema (updateUser headerName);
     validationErrorHandler := None;
     handler := UserHandler (ok_handler "updateUser") |}.

(** The route registered for [GET /users/list]. *)
Definition usersListRoute : OpenapiRoute :=
  {| path := "/users/list";
     urlPattern := None;
     paramSchemas := None;
     querySchemas := None;
     headerSchemas := None;
     bodySchema := None;
     validationErrorHandler := None;
     handler := UserHandler (ok_handler "usersList") |}.


(** A [create] that returns a fresh promise, and one that throws; the
    state counts their runs. *)
Definition counting_create (w : nat) : Completion nat unit * nat :=
  (Returned w, S w).

Definition throwing_create (w : nat) : Completion nat unit * nat :=
  (Thrown tt, S w).

(** A router over a registry whose only definition, a parameter without
    a name, makes the generation of the document fail. *)
Definition brokenDocsRouter : OpenapiRouter :=
  new_OpenapiRouter ∅ [DParameter z_string] None "/docs/openapi".

(** The definitions of the repository's test "Generate OpenAPI docs":
    [zsNumber], [zsBoolean] and [zsDate] of [zod_string_like.ts], the
    schemas [Sword], [User], [NotFoundError] and [DateTime], and the route
    [POST /users/{id}]. *)
Definition zsNumber (underlying : ZodType) : ZodType :=
  ZodEffects no_def preprocess underlying.
Definition zsBoolean (underlying : ZodType) : ZodType :=
  ZodEffects no_def preprocess underlying.
Definition zsDate (underlying : ZodType) : ZodType :=
  ZodEffects no_def preprocess underlying.

Definition with_schemaObject (fields : JsObject) : ZodOpenapiMetadata :=
  {| refId := None; extendedFrom := None; param := None; schemaObject := fields |}.

Definition describe (this : ZodType) (description : string) : ZodType :=
  with_def this {| openapi := openapi (_def this);
                   description := Some description |}.

Definition testSword : OpenapiRegistry * ZodType :=
  register [] "Sword"
    (z_object
       [("type", ZodLiteral no_def (JStr "sword"));
        ("sword",
         z_object [("sharpness",
                    ZodNumber no_def [nk_min 1 true; nk_max 10 true])])]).

Definition testUser : OpenapiRegistry * ZodType :=
  register testSword.1 "User"
    (z_object
       [("id",
         zsNumber
           (openapi_method
              (ZodNumber no_def [nk_int; nk_min 1 true; nk_max 9999 true])
              (with_schemaObject [("example", JNum 1212121)])));
        ("name",
         openapi_method z_string (with_schemaObject [("example", JStr "John Doe")]));
        ("age",
         openapi_method (ZodNumber no_def [nk_min 1 true; nk_max 200 true])
           (with_schemaObject [("example", JNum 42)]));
        ("gender", ZodEnum no_def ["male"; "female"; "unknown"]);
        ("weapon",
         ZodDiscriminatedUnion no_def "type"
           [testSword.2;
            z_object [("type", ZodLiteral no_def (JStr "bow"));
                      ("bow", z_object [("range", z_number)])]])]).

Definition testNotFoundError : OpenapiRegistry * ZodType :=
  register testUser.1 "NotFoundError"
    (z_object [("error", z_boolean); ("message", z_string)]).

Definition testDateTime : OpenapiRegistry * ZodType :=
  register testNotFoundError.1 "DateTime"
    (zsDate
       (openapi_method (ZodOther no_def "ZodDate")
          (with_schemaObject [("type", JStr "string");
                              ("format", JStr "date-time")]))).

(** [zsNumber(z.number().int().positive())] *)
Definition positiveInt : ZodType :=
  zsNumber (ZodNumber no_def [nk_int; nk_min 0 false]).

Definition userResponse (description : string) : ZodResponseConfig :=
  {| rc_rest := [("description", JStr description)];
     rc_headers := None;
     rc_content := Some [("application/json", IsZod testUser.2)] |}.

Definition testRoute : ZodRouteConfig :=
  {| zr_method := post;
     zr_path := "/users/{id}";
     zr_request := Some
       {| body := Some {| rb_content := [("application/json", IsZod testUser.2)];
                          rb_rest := [] |};
          params := Some
            [("id", describe positiveInt
                      "The user ID, must be a positive integer")];
          query := Some [("dryRun", zsBoolean z_boolean)];
          headers := Some
            [("x-some-uuid",
              describe (ZodString no_def [ck_uuid; ck_min 1]) "Some UUID");
             ("x-some-date", testDateTime.2)] |};
     zr_responses :=
       [("200",
         {| rc_rest := [("description", JStr "Object with user data.")];
            rc_headers := Some
              [("X-RateLimit-Limit",
                {| rh_schema := IsZod positiveInt;
                   rh_rest := [("description", JStr "Request limit per hour.")] |});
               ("X-RateLimit-Remaining",
                {| rh_schema := IsZod positiveInt;
                   rh_rest :=
                     [("description",
                       JStr "The number of requests left for the time window.")] |});
               ("X-RateLimit-Reset",
                {| rh_schema := IsZod testDateTime.2;
                   rh_rest :=
                     [("description",
                       JStr "The UTC date/time at which the current rate limit window resets.")] |})];
            rc_content := Some [("application/json", IsZod testUser.2)] |});
        ("201", userResponse "Object with user data.");
        ("400",
         {| rc_rest := [("description", JStr "Access denied")];
            rc_headers := None;
            rc_content :=
              Some [("text/plain",
                     IsZod (ZodLiteral no_def (JStr "Access denied")))] |});
        ("404",
         {| rc_rest := [("description", JStr "The user is not found")];
            rc_headers := None;
            rc_content :=
              Some [("application/json", IsZod testNotFoundError.2)] |})];
     zr_rest := [("summary", JStr "Update a single user")] |}.

Definition testDefinitions : OpenapiRegistry :=
  registerPath testDateTime.1 testRoute.

(** The configuration given to [generateDocument] in the examples. *)
Definition docConfig : JsObject :=
  [("openapi", JStr "3.0.0");
   ("info", JObj [("title", JStr "Test"); ("version", JStr "1.0.0")])].

(** [Parent = registry.register("Parent", z.object({a, b}))] and
    [Child = registry.register("Child", Parent.extend({c}))]. *)
Definition parentRegistration : OpenapiRegistry * ZodType :=
  register [] "Parent" (z_object [("a", z_string); ("b", z_number)]).

Definition childRegistration : OpenapiRegistry * ZodType :=
  register parentRegistration.1 "Child"
    (extend parentRegistration.2 [("c", z_boolean)]).

(** The generator after the definition of [Parent]. *)
Definition afterParent : Generator.OpenapiGenerator :=
  match Generator.generateSchemaDefinition sampleParse Generator.new_generator
          parentRegistration.2 with
  | Generator.Ok this => this
  | Generator.Throw _ => Generator.new_generator
  end.

(** A schema registered as [Foo] and then a raw [schemas] component
    registered under the same name. *)
Definition fooRegistration : OpenapiRegistry * ZodType :=
  register [] "Foo" z_string.

Definition rawFoo : Json := JObj [("type", JStr "object")].

Definition rawAfterGenerated : OpenapiRegistry :=
  registerComponent fooRegistration.1 "schemas" "Foo" rawFoo.

(** A parameter registered as [myParam] with location [header]. *)
Definition myParam : OpenapiRegistry * ZodType :=
  registerParameter [] "myParam"
    (openapi_method z_string
       {| refId := None; extendedFrom := None;
          param := Some {| pm_in := Some header; pm_name := None; pm_rest := [] |};
          schemaObject := [] |}).

(** The generator after the definition of [myParam]. *)
Definition afterMyParam : Generator.OpenapiGenerator :=
  match Generator.generateParameterDefinition sampleParse Generator.new_generator
          myParam.2 with
  | Generator.Ok this => this
  | Generator.Throw _ => Generator.new_generator
  end.

(** A route that refers to [myParam] in its query section, and one that
    refers to it among its headers under [key]. *)
Definition queryRoute : ZodRouteConfig :=
  {| zr_method := get; zr_path := "/x";
     zr_request := Some {| body := None; params := None;
                           query := Some [("myParam", myParam.2)];
                           headers := None |};
     zr_responses := []; zr_rest := [] |}.

(** A registry in which [myParam] is registered first, then the
    definitions of the test, then [queryRoute]. *)
Definition conflictingDefinitions : OpenapiRegistry :=
  registerPath (myParam.1 ++ testDefinitions) queryRoute.

Definition headerRoute (key : string) : ZodRouteConfig :=
  {| zr_method := get; zr_path := "/x";
     zr_request := Some {| body := None; params := None; query := None;
                           headers := Some [(key, myParam.2)] |};
     zr_responses := []; zr_rest := [] |}.

Definition sampleRequest (method : string) (pathname : string)
  (searchParams headers : list (string * string)) (json : JsonResult) : Request :=
  {| req_method := method;
     req_url := {| Server.pathname := pathname; searchParams := searchParams |};
     req_headers := headers;
     req_body := JNull;
     req_json := json |}.

(** The requests of the examples. *)
Definition goodBody : Json := JObj [("name", JStr "x")].

Definition listRequest : Request :=
  sampleRequest "GET" "/users/list" [] [] (JsonValue JNull).

Definition tagsRequest : Request :=
  sampleRequest "PUT" "/users/abcdef"
    [("tag", "a"); ("tag", "b"); ("first", "1"); ("first", "2")]
    [("X-Some-Uuid", "u")] (JsonValue goodBody).

Definition malformedRequest : Request :=
  sampleRequest "PUT" "/users/abcdef" [] [("x-some-uuid", "u")] JsonSyntaxError.

Definition docsRequest : Request :=
  sampleRequest "GET" "/docs/openapi" [] [] (JsonValue JNull).

(** The document generated for [rawAfterGenerated]. *)
Definition fooDocument : Json :=
  JObj [("openapi", JStr "3.0.0");
        ("info", JObj [("title", JStr "Test"); ("version", JStr "1.0.0")]);
        ("components",
         JObj [("schemas", JObj [("Foo", JObj [("type", JStr "string")])]);
               ("parameters", JObj [])]);
        ("paths", JObj [])].

(** [handle] on the router of the examples: the events and the outcome. *)
Definition sampleHandle (headerName : string) (exact_first : bool)
  (request : Request) : option (list Event * Outcome) :=
  match sampleRouter headerName exact_first with
  | Generator.Ok router =>
      Some (handle sampleParse sampleExec router request connInfo).1
  | Generator.Throw _ => None
  end.

(** The document generated for definitions, [null] when the generation
    throws. *)
Definition documentOf (definitions : OpenapiRegistry) : Json :=
  match Generator.generateDocument sampleParse definitions docConfig with
  | Generator.Ok document => document
  | Generator.Throw _ => JNull
  end.

(** A stand-in for [parseInt] on decimal status codes: the number written
    by the leading digits, [NaN] without a leading digit. *)
Fixpoint leading_digits (value : Z) (seen : bool) (s : string) : option Z :=
  match s with
  | EmptyString => if seen then Some value else None
  | String c s' =>
      let n := nat_of_ascii c in
      if ((48 <=? n) && (n <=? 57))%nat
      then leading_digits (10 * value + Z.of_nat (n - 48)) true s'
      else if seen then Some value else None
  end.

Definition sampleParseInt (s : string) : option Z := leading_digits 0 false s.

(** [GET /users/{id}] answering a user as JSON with a rate limit header. *)
Definition getUser : OpenapiRouteConfig :=
  {| Registry.method := get;
     Registry.path := "/users/{id}";
     request := Some {| body := None; params := Some [("id", z_string)];
                        query := None; headers := None |};
     responses := Some
       [("200",
         {| rc_rest := [("description", JStr "The user")];
            rc_headers := Some
              [("X-RateLimit-Limit",
                {| rh_schema := IsZod z_string; rh_rest := [] |})];
            rc_content := Some
              [("application/json", IsZod (z_object [("name", z_string)]))] |})];
     rest := [] |}.

Definition getUserEndpoint : OpenapiEndpoint :=
  {| config := getUser;
     ep_request :=
       {| er_query := extractRequestQuerySchema getUser;
          er_params := extractRequestParamsSchema getUser;
          er_headers := extractRequestParamsSchema getUser;
          er_body := extractRequestBodySchema getUser |} |}.

(** A response to it. *)
Definition userResponseReceived : Client.FetchResponse :=
  {| Client.fr_status := 200;
     Client.fr_ok := true;
     Client.fr_headers :=
       [("Content-Type", "application/json"); ("x-ratelimit-limit", "5000")];
     Client.fr_json := JsonValue goodBody;
     Client.fr_text := "";
     Client.fr_body := JNull |}.

(** [GET /healthz], an endpoint that declares no responses, and a
    response to it. *)
Definition healthz : OpenapiRouteConfig :=
  {| Registry.method := get;
     Registry.path := "/healthz";
     request := None;
     responses := None;
     rest := [("summary", JStr "Health check")] |}.

Definition healthzEndpoint : OpenapiEndpoint :=
  {| config := healthz;
     ep_request :=
       {| er_query := extractRequestQuerySchema healthz;
          er_params := extractRequestParamsSchema healthz;
          er_headers := extractRequestParamsSchema healthz;
          er_body := extractRequestBodySchema healthz |} |}.

Definition healthzResponseReceived : Client.FetchResponse :=
  {| Client.fr_status := 503;
     Client.fr_ok := false;
     Client.fr_headers := [("content-type", "text/html")];
     Client.fr_json := JsonSyntaxError;
     Client.fr_text := "<h1>Service Unavailable</h1>";
     Client.fr_body := JStr "<h1>Service Unavailable</h1>" |}.

(** The router of the examples before any route is registered. *)
Definition freshRouter : OpenapiRouter :=
  new_OpenapiRouter (sampleEndpoints "x-some-uuid") [] None "/docs/openapi".

(** The router after the registration of [GET /users/list]. *)
Definition listRouter : OpenapiRouter :=
  match method freshRouter get "/users/list" (ok_handler "usersList") None with
  | Generator.Ok router => router
  | Generator.Throw _ => freshRouter
  end.

(** The context given to the handler of the last event of a trace. *)
Definition handledContext (trace : list Event) : OpenapiServerRequestContext :=
  match last trace with
  | Some (EvHandler ctx) => ctx
  | _ => {| ctx_url := {| pathname := ""; searchParams := [] |};
            ctx_params := []; ctx_query := []; ctx_headers := [];
            ctx_body := JNull; ctx_request := listRequest;
            ctx_connInfo := connInfo |}
  end.

(** A parent registry holding the definitions of the test, and a child of
    it without definitions of its own. *)
Definition parentRegistry : RegistryTree := Registry_of None testDefinitions.

Definition childRegistry : RegistryTree := Registry_of (Some [parentRegistry]) [].

End Sample.

(** ** The statements of the specification, as definitions *)

Module Spec.
Import Js Zod Registry RuntimeRequest Endpoint Server.


(** One validation of one input channel: the channel, the key, the schema
    and the raw value handed to it. *)
Record Check : Type := {
  ck_source : OpenapiRequestValidationErrorSource;
  ck_key : option string;
  ck_schema : ZodType;
  ck_raw : Json;
}.

(** The check made of an entry of a loop of [handle]. *)
Definition entry_check (source : OpenapiRequestValidationErrorSource)
  (e : string * ZodType * Json) : Check :=
  {| ck_source := source; ck_key := Some e.1.1; ck_schema := e.1.2; ck_raw := e.2 |}.

Definition check_event (c : Check) : Event :=
  EvSafeParse (ck_source c) (ck_key c) (ck_schema c) (ck_raw c).

(** "All matching query-string values for that key" and "a single value". *)
Definition all_values (sp : list (string * string)) (key : string) : Json :=
  JArr (map JStr (map snd (List.filter (fun kv => bool_decide (kv.1 = key)) sp))).

Definition first_value (sp : list (string * string)) (key : string) : Json :=
  match map snd (List.filter (fun kv => bool_decide (kv.1 = key)) sp) with
  | v :: _ => JStr v
  | [] => JNull
  end.

(** The validations a route declares for a request, "in the fixed order
    path params, then query, then headers, then body". *)
Definition declared_checks (route : OpenapiRoute) (request : Request)
  (params : option (list (string * string))) (body : Json) : list Check :=
  (map (fun kv =>
          {| ck_source := src_params; ck_key := Some kv.1; ck_schema := kv.2;
             ck_raw := groups_get (default [] params) kv.1 |})
       (default [] (paramSchemas route))
   ++ map (fun q =>
             {| ck_source := src_query; ck_key := Some (key q);
                ck_schema := schema q;
                ck_raw := if isArray q
                          then all_values (searchParams (req_url request)) (key q)
                          else first_value (searchParams (req_url request)) (key q) |})
          (default [] (querySchemas route))
   ++ map (fun kv =>
             {| ck_source := src_headers; ck_key := Some kv.1; ck_schema := kv.2;
                ck_raw := default JUndefined
                            (obj_get kv.1 (headers_entries (req_headers request))) |})
          (default [] (headerSchemas route))
   ++ match bodySchema route with
      | Some s => [{| ck_source := src_body; ck_key := None; ck_schema := s;
                      ck_raw := body |}]
      | None => []
      end)%list.

(** The value [handle] binds to [body] when reading it does not fail. *)
Definition body_read (route : OpenapiRoute) (request : Request) : option Json :=
  match bodySchema route with
  | Some _ =>
      match req_json request with
      | JsonValue v => Some v
      | JsonSyntaxError => None
      end
  | None => Some (req_body request)
  end.

(** The events of reading the body. *)
Definition body_events (route : OpenapiRoute) : list Event :=
  match bodySchema route with Some _ => [EvJson] | None => [] end.

Section FirstFailure.

Variable safeParse : ZodType -> Json -> SafeParseReturnType.

Definition passes (c : Check) : Prop :=
  success (safeParse (ck_schema c) (ck_raw c)) = true.

(** "First-failure-wins": the checks that pass before the first one that
    fails, that one, and its error. *)
Fixpoint first_failing (checks : list Check)
  : option (list Check * Check * ZodError) :=
  match checks with
  | [] => None
  | c :: checks' =>
      match safeParse (ck_schema c) (ck_raw c) with
      | ParseFailure error => Some ([], c, error)
      | ParseSuccess _ =>
          match first_failing checks' with
          | Some (passed, c', error) => Some (c :: passed, c', error)
          | None => None
          end
      end
  end.

End FirstFailure.

(** The raw value of a query parameter: "all matching query-string values"
    when the unwrapped schema is an array, "a single value" otherwise. *)
Definition query_raw (sp : list (string * string)) (key : string)
  (schema : ZodType) : Json :=
  if instanceof_ZodArray (unwrapZodType schema)
  then all_values sp key else first_value sp key.

Section Dispatch.

Variable URLPattern_exec : URLPattern -> URL -> option (list (string * string)).

Definition pattern_matches (r : OpenapiRoute) (url : URL) : Prop :=
  exists p, urlPattern r = Some p /\ is_Some (URLPattern_exec p url).

(** "Scanning pattern-based routes in registration order and taking the
    first whose compiled pattern matches the URL, extracting named capture
    groups". *)
Definition first_pattern_match (patternList : list OpenapiRoute) (url : URL)
  (r : OpenapiRoute) (groups : option (list (string * string))) : Prop :=
  exists before after p,
    patternList = (before ++ r :: after)%list
    /\ Forall (fun r' => ~ pattern_matches r' url) before
    /\ urlPattern r = Some p
    /\ is_Some (URLPattern_exec p url)
    /\ groups = URLPattern_exec p url.

End Dispatch.

(** Endpoints as [endpoint()] files them: under the path and the method of
    their own configuration. *)
Definition endpoints_consistent (eps : OpenapiEndpoints) : Prop :=
  forall path m ep,
    endpoints_get eps path m = Some ep ->
    Registry.path (config ep) = path
    /\ method_str (Registry.method (config ep)) = m.

(** The raw components among the definitions, in registration order. *)
Definition raw_components_of (definitions : list OpenapiDefinitions)
  : list Generator.RawComponent :=
  omap (fun d =>
          match d with
          | DComponent t n c =>
              Some {| Generator.componentType := t; Generator.name := n;
                      Generator.component := c |}
          | _ => None
          end) definitions.

Definition raw_matches (kind name : string) (c : Generator.RawComponent) : bool :=
  str_eqb (Generator.componentType c) kind && str_eqb (Generator.name c) name.

(** "Last-registration-wins" among the raw components of a kind and
    name: the component of the last one registered. *)
Definition last_raw (kind name : string) (raws : list Generator.RawComponent)
  : option Json :=
  Generator.component <$> List.find (raw_matches kind name) (rev raws).

(** An object all of whose values are objects, as the buckets of raw
    components are. *)
Definition all_objects (o : JsObject) : Prop :=
  Forall (fun kv => exists b, kv.2 = JObj b) o.

(** [document.components[kind][name]] *)
Definition doc_component (document : Json) (kind name : string) : Json :=
  get_field name (get_field kind (get_field "components" document)).

(** A declared header key "validated case-insensitively": the value of the
    header line whose name equals the key up to case, if there is one. *)
Definition header_value_ci (sent : list (string * string)) (key : string)
  : option string :=
  snd <$> List.find (fun nv => bool_decide (toLowerCase nv.1 = toLowerCase key)) sent.

(** The parameters a request declares, each with the location of its
    section, in the order the generator converts them: the query section,
    then the path parameters, then the headers. *)
Definition declared_parameters (request : RequestConfig)
  : list (ParameterLocation * (string * ZodType)) :=
  (map (fun kv => (Zod.query, kv)) (default [] (Registry.query request))
   ++ map (fun kv => (Zod.path, kv)) (default [] (Registry.params request))
   ++ map (fun kv => (Zod.header, kv)) (default [] (Registry.headers request)))%list.

(** A parameter registered under a reference id "is the only one
    registered under it". *)
Definition only_parameter_of (r : string) (schema : ZodType)
  (definitions : list OpenapiDefinitions) : Prop :=
  forall schema',
    In (DParameter schema') definitions ->
    Generator.truthy_refId (Generator.getMetadata schema') = Some r ->
    schema' = schema.

(** The same for a schema. *)
Definition only_schema_of (r : string) (schema : ZodType)
  (definitions : list OpenapiDefinitions) : Prop :=
  forall schema',
    In (DSchema schema') definitions ->
    Generator.truthy_refId (Generator.getMetadata schema') = Some r ->
    schema' = schema.

End Spec.

(** * Properties *)

(** ** Properties of objects *)

Module JsFacts.
Import Js.

Lemma str_eqb_refl a : str_eqb a a = true.
Proof. unfold str_eqb. by apply bool_decide_eq_true. Qed.

Lemma str_eqb_true a b : str_eqb a b = true <-> a = b.
Proof. unfold str_eqb. apply bool_decide_eq_true. Qed.

Lemma str_eqb_false a b : str_eqb a b = false <-> a <> b.
Proof. unfold str_eqb. apply bool_decide_eq_false. Qed.

Lemma obj_get_set_eq k v o : obj_get k (obj_set k v o) = Some v.
Proof.
  induction o as [|[k' v'] o IH]; simpl.
  - by rewrite str_eqb_refl.
  - destruct (str_eqb k k') eqn:E; simpl; by rewrite E.
Qed.

Lemma obj_get_set_ne k k' v o :
  k <> k' -> obj_get k (obj_set k' v o) = obj_get k o.
Proof.
  intros Hne. induction o as [|[k0 v0] o IH]; simpl.
  - by apply str_eqb_false in Hne as ->.
  - destruct (str_eqb k' k0) eqn:E; simpl.
    + apply str_eqb_true in E as <-. by apply str_eqb_false in Hne as ->.
    + destruct (str_eqb k k0); [done|]. apply IH.
Qed.

Lemma obj_set_keys k v o :
  keys (obj_set k v o) = if bool_decide (k ∈ keys o) then keys o else (keys o ++ [k])%list.
Proof.
  induction o as [|[k' v'] o IH]; simpl; [done|].
  destruct (str_eqb k k') eqn:E; simpl.
  - apply str_eqb_true in E as ->.
    rewrite bool_decide_eq_true_2; [done|]. by left.
  - apply str_eqb_false in E. rewrite IH.
    case_bool_decide as Hin.
    + rewrite bool_decide_eq_true_2; [done|]. by right.
    + rewrite bool_decide_eq_false_2; [done|].
      intros Hin'. apply list_elem_of_In in Hin'. destruct Hin' as [?|Hin']; [done|].
      by apply Hin, list_elem_of_In.
Qed.

Lemma obj_set_NoDup k v o : NoDup (keys o) -> NoDup (keys (obj_set k v o)).
Proof.
  intros H. rewrite obj_set_keys. case_bool_decide as Hin; [done|].
  apply NoDup_app. split; [done|]. split.
  - intros x Hx Hx'. apply list_elem_of_singleton in Hx'. by subst.
  - apply NoDup_singleton.
Qed.

Lemma obj_spread_NoDup a b : NoDup (keys a) -> NoDup (keys (obj_spread a b)).
Proof.
  unfold obj_spread. revert a.
  induction b as [|[k v] b IH]; intros a H; simpl; [done|].
  apply IH. by apply obj_set_NoDup.
Qed.

Lemma obj_get_None k o : obj_get k o = None <-> k ∉ keys o.
Proof.
  induction o as [|[k' v'] o IH]; simpl.
  - split; [|done]. intros _ H. by apply elem_of_nil in H.
  - destruct (str_eqb k k') eqn:E.
    + apply str_eqb_true in E as ->. split; [done|]. intros H. exfalso.
      apply H. by left.
    + apply str_eqb_false in E. rewrite IH. split.
      * intros H Hin. apply elem_of_cons in Hin as [?|?]; done.
      * intros H Hin. apply H. by right.
Qed.

(** [{...a, ...b}[k]]: the entry of [b] if it has one, else that of [a]. *)
Lemma obj_get_spread k a b :
  NoDup (keys b) ->
  obj_get k (obj_spread a b) =
  match obj_get k b with Some v => Some v | None => obj_get k a end.
Proof.
  unfold obj_spread. revert a.
  induction b as [|[k0 v0] b IH]; intros a Hnd; simpl; [done|].
  inversion Hnd as [|?? Hk0 Hnd']; subst.
  rewrite IH; [|done]. simpl.
  destruct (str_eqb k k0) eqn:E.
  - apply str_eqb_true in E as ->.
    apply obj_get_None in Hk0. rewrite Hk0. apply obj_get_set_eq.
  - apply str_eqb_false in E. destruct (obj_get k b); [done|].
    by apply obj_get_set_ne.
Qed.

Lemma obj_get_In k v o : obj_get k o = Some v -> In (k, v) o.
Proof.
  induction o as [|[k' v'] o IH]; simpl; [done|].
  destruct (str_eqb k k') eqn:E.
  - apply str_eqb_true in E as ->. intros [= ->]. by left.
  - intros H. right. by apply IH.
Qed.

Lemma obj_get_filter k (P : string * Json -> Prop) `{!forall x, Decision (P x)} o :
  NoDup (keys o) ->
  obj_get k (filter P o) =
  match obj_get k o with
  | Some v => if decide (P (k, v)) then Some v else None
  | None => None
  end.
Proof.
  induction o as [|[k' v'] o IH]; intros Hnd; simpl; [done|].
  inversion Hnd as [|?? Hk' Hnd']; subst.
  rewrite filter_cons. destruct (str_eqb k k') eqn:E.
  - apply str_eqb_true in E as ->.
    destruct (decide (P (k', v'))); simpl.
    + by rewrite str_eqb_refl.
    + rewrite IH; [|done]. apply obj_get_None in Hk'. by rewrite Hk'.
  - destruct (decide (P (k', v'))); simpl.
    + rewrite E. by apply IH.
    + by apply IH.
Qed.

Lemma filter_keys_NoDup (P : string * Json -> Prop) `{!forall x, Decision (P x)} o :
  NoDup (keys o) -> NoDup (keys (filter P o)).
Proof.
  induction o as [|[k v] o IH]; intros Hnd; simpl; [done|].
  inversion Hnd as [|?? Hk Hnd']; subst.
  rewrite filter_cons. destruct (decide (P (k, v))); simpl; [|by apply IH].
  constructor; [|by apply IH].
  intros Hin. apply Hk. unfold keys in *.
  apply list_elem_of_fmap in Hin as ([k' v'] & -> & Hin).
  apply list_elem_of_filter in Hin as [_ Hin].
  apply list_elem_of_fmap. by exists (k', v').
Qed.

End JsFacts.

(** ** Properties of the router *)

Module ServerFacts.
Import Js Zod Registry RuntimeRequest Endpoint Server Spec JsFacts.

Lemma searchParams_getAll_all_values sp key :
  searchParams_getAll sp key = all_values sp key.
Proof.
  unfold searchParams_getAll, all_values. f_equal.
  induction sp as [|[k v] sp IH]; simpl; [done|].
  unfold str_eqb in *; simpl. case_bool_decide; simpl; by rewrite IH.
Qed.

Lemma searchParams_get_first_value sp key :
  searchParams_get sp key = first_value sp key.
Proof.
  unfold searchParams_get, first_value.
  induction sp as [|[k v] sp IH]; simpl; [done|].
  unfold str_eqb in *; simpl. case_bool_decide; simpl; [done|]. apply IH.
Qed.

Ltac norm_app :=
  repeat (rewrite map_app || rewrite <- app_assoc || rewrite app_nil_r);
  simpl.

Section HandleFacts.

Variable safeParse : ZodType -> Json -> SafeParseReturnType.
Variable URLPattern_exec : URLPattern -> URL -> option (list (string * string)).

Local Abbreviation first_failing := (first_failing safeParse).
Local Abbreviation passes := (passes safeParse).
Local Abbreviation handle := (handle safeParse URLPattern_exec).
Local Abbreviation match_route := (match_route URLPattern_exec).

Lemma first_failing_app l1 l2 :
  first_failing (l1 ++ l2) =
  match first_failing l1 with
  | Some r => Some r
  | None =>
      match first_failing l2 with
      | Some (passed, c, error) => Some ((l1 ++ passed)%list, c, error)
      | None => None
      end
  end.
Proof.
  induction l1 as [|c l1 IH]; simpl.
  - by destruct (first_failing l2) as [[[??]?]|].
  - destruct (safeParse _ _); [|done]. rewrite IH.
    destruct (first_failing l1) as [[[??]?]|]; [done|].
    by destruct (first_failing l2) as [[[??]?]|].
Qed.

Lemma first_failing_None l :
  first_failing l = None <-> Forall passes l.
Proof.
  induction l as [|c l IH]; simpl.
  - split; [constructor|done].
  - rewrite Forall_cons. unfold Spec.passes at 1.
    destruct (safeParse _ _) eqn:E; simpl.
    + destruct (first_failing l) as [[[??]?]|]; split; try done.
      * intros [_ H]. by apply IH in H.
      * intros _. split; [done|]. by apply IH.
    + split; [done|]. by intros [? _].
Qed.

Lemma first_failing_Some l passed c error :
  first_failing l = Some (passed, c, error) ->
  exists rest, l = (passed ++ c :: rest)%list /\ Forall passes passed
               /\ safeParse (ck_schema c) (ck_raw c) = ParseFailure error.
Proof.
  revert passed. induction l as [|c0 l IH]; simpl; intros passed H; [done|].
  destruct (safeParse (ck_schema c0) (ck_raw c0)) eqn:E.
  - destruct (first_failing l) as [[[p c'] e]|] eqn:F; [|done].
    injection H as <- <- <-.
    destruct (IH p eq_refl) as (rest & -> & Hp & Hc).
    exists rest. split; [done|]. split; [|done].
    constructor; [|done]. unfold Spec.passes. by rewrite E.
  - injection H as <- <- <-. exists l. split; [done|]. split; [constructor|done].
Qed.

(** A loop of [handle] runs its checks up to the first failure. *)
Lemma validate_loop_first_failing source entries :
  validate_loop safeParse source entries =
  match first_failing (map (entry_check source) entries) with
  | Some (passed, c, error) =>
      (map check_event (passed ++ [c]), inl error)
  | None =>
      (map check_event (map (entry_check source) entries),
       (validate_loop safeParse source entries).2)
  end.
Proof.
  induction entries as [|[[k s] raw] entries IH]; simpl; [done|].
  destruct (safeParse s raw) eqn:E; [|done].
  rewrite IH.
  destruct (first_failing (map (entry_check source) entries)) as [[[p c] e]|];
    simpl; [done|].
  by destruct (validate_loop safeParse source entries).
Qed.

Lemma validate_loop_inl source entries evs error :
  validate_loop safeParse source entries = (evs, inl error) ->
  exists passed c,
    first_failing (map (entry_check source) entries) = Some (passed, c, error)
    /\ evs = map check_event (passed ++ [c]).
Proof.
  rewrite validate_loop_first_failing.
  destruct (first_failing _) as [[[p c] e]|] eqn:F.
  - intros [= <- <-]. by exists p, c.
  - intros [= <- H]. exfalso.
    apply first_failing_None in F. clear -F H.
    induction entries as [|[[k s] raw] entries IH]; simpl in *; [done|].
    inversion F as [|?? Hc F']; subst. unfold Spec.passes in Hc; simpl in Hc.
    destruct (safeParse s raw); [|done].
    destruct (validate_loop safeParse source entries) as [evs [e|v]]; [|done].
    by apply IH.
Qed.

Lemma validate_loop_inr source entries evs validated :
  validate_loop safeParse source entries = (evs, inr validated) ->
  first_failing (map (entry_check source) entries) = None
  /\ evs = map check_event (map (entry_check source) entries).
Proof.
  rewrite validate_loop_first_failing.
  destruct (first_failing _) as [[[p c] e]|] eqn:F; [done|].
  by intros [= <- _].
Qed.

Lemma first_failing_unique l passed c rest :
  l = (passed ++ c :: rest)%list -> Forall passes passed ->
  forall error, safeParse (ck_schema c) (ck_raw c) = ParseFailure error ->
  first_failing l = Some (passed, c, error).
Proof.
  intros -> Hp error Hc. rewrite first_failing_app.
  apply first_failing_None in Hp. rewrite Hp. simpl. rewrite Hc.
  by rewrite app_nil_r.
Qed.

(** [handle] on a request that matches a route and whose body can be
    read: the declared checks run in order up to the first failure, which
    is answered by the validation error handler; the handler of the route
    runs when there is none. *)
Lemma handle_checks this request connInfo routes route params body :
  routesByUppercasedMethodMap this !! req_method request = Some routes ->
  match_route routes (req_url request) = Some (route, params) ->
  body_read route request = Some body ->
  match first_failing (declared_checks route request params body) with
  | Some (passed, c, error) =>
      handle this request connInfo =
      ((body_events route ++ map check_event (passed ++ [c])
          ++ [EvValidationError (ck_source c) error])%list,
       Resolved (default (defaultValidationErrorHandler this)
                         (validationErrorHandler route) (ck_source c) error),
       this)
  | None =>
      exists ctx,
        handle this request connInfo =
        ((body_events route
            ++ map check_event (declared_checks route request params body)
            ++ [EvHandler ctx])%list,
         (call_handler safeParse this (handler route) ctx).1,
         (call_handler safeParse this (handler route) ctx).2)
        /\ ctx_request ctx = request
  end.
Proof.
  intros Hroutes Hmatch Hbody.
  unfold Server.handle. rewrite Hroutes, Hmatch.
  unfold declared_checks, body_events.
  set (E1 := map (fun '(key, schema) => (key, schema, _)) (default [] (paramSchemas route))).
  set (E2 := map (fun q => (key q, schema q, _)) (default [] (querySchemas route))).
  set (E3 := map (fun '(key, schema) => (key, schema, _)) (default [] (headerSchemas route))).
  set (C1 := map _ (default [] (paramSchemas route))).
  set (C2 := map _ (default [] (querySchemas route))).
  set (C3 := map _ (default [] (headerSchemas route))).
  assert (H1 : map (entry_check src_params) E1 = C1).
  { subst E1 C1. rewrite map_map. apply map_ext. by intros [??]. }
  assert (H2 : map (entry_check src_query) E2 = C2).
  { subst E2 C2. rewrite map_map. apply map_ext. intros q.
    unfold entry_check; simpl.
    by rewrite searchParams_getAll_all_values, searchParams_get_first_value. }
  assert (H3 : map (entry_check src_headers) E3 = C3).
  { subst E3 C3. rewrite map_map. apply map_ext. by intros [??]. }
  clearbody E1 E2 E3 C1 C2 C3.
  assert (Hb : match bodySchema route with
               | Some _ =>
                   match req_json request with
                   | JsonValue v => inr ([EvJson], v)
                   | JsonSyntaxError => inl [EvJson]
                   end
               | None => inr ([], req_body request)
               end
               = inr (match bodySchema route with Some _ => [EvJson] | None => [] end,
                      body) :> list Event + list Event * Json).
  { unfold body_read in Hbody.
    destruct (bodySchema route); [|by injection Hbody as ->].
    destruct (req_json request); [|done]. by injection Hbody as ->. }
  rewrite Hb. clear Hb.
  set (J := match bodySchema route with Some _ => [EvJson] | None => [] end).
  rewrite !first_failing_app.
  destruct (validate_loop safeParse src_params E1) as [t1 [e1|v1]] eqn:L1.
  { apply validate_loop_inl in L1 as (p & c & F & ->).
    rewrite H1 in F. rewrite F.
    assert (ck_source c = src_params) as ->.
    { apply first_failing_Some in F as (rest & Hl & _).
      assert (In c C1) as Hin by (rewrite Hl; apply in_elt).
      rewrite <- H1 in Hin. apply in_map_iff in Hin as (? & <- & _). done. }
    by norm_app. }
  apply validate_loop_inr in L1 as (F1 & ->). rewrite H1 in F1. rewrite F1, H1.
  destruct (validate_loop safeParse src_query E2) as [t2 [e2|v2]] eqn:L2.
  { apply validate_loop_inl in L2 as (p & c & F & ->).
    rewrite H2 in F. rewrite F.
    assert (ck_source c = src_query) as ->.
    { apply first_failing_Some in F as (rest & Hl & _).
      assert (In c C2) as Hin by (rewrite Hl; apply in_elt).
      rewrite <- H2 in Hin. apply in_map_iff in Hin as (? & <- & _). done. }
    by norm_app. }
  apply validate_loop_inr in L2 as (F2 & ->). rewrite H2 in F2. rewrite F2, H2.
  destruct (validate_loop safeParse src_headers E3) as [t3 [e3|v3]] eqn:L3.
  { apply validate_loop_inl in L3 as (p & c & F & ->).
    rewrite H3 in F. rewrite F.
    assert (ck_source c = src_headers) as ->.
    { apply first_failing_Some in F as (rest & Hl & _).
      assert (In c C3) as Hin by (rewrite Hl; apply in_elt).
      rewrite <- H3 in Hin. apply in_map_iff in Hin as (? & <- & _). done. }
    by norm_app. }
  apply validate_loop_inr in L3 as (F3 & ->). rewrite H3 in F3. rewrite F3, H3.
  destruct (bodySchema route) as [bs|] eqn:B; simpl.
  - destruct (safeParse bs body) eqn:P; simpl.
    + destruct (call_handler _ _ _ _) as [o t] eqn:CH.
      eexists. rewrite CH. simpl. split; [|reflexivity].
      simpl. by norm_app.
    + by norm_app.
  - destruct (call_handler _ _ _ _) as [o t] eqn:CH.
    eexists. rewrite CH. simpl. split; [|reflexivity].
    simpl. by norm_app.
Qed.

(** A malformed body on a route with a body schema: [request.json()]
    rejects and [handle] rejects with it, before anything is validated. *)
Lemma handle_body_unreadable this request connInfo routes route params :
  routesByUppercasedMethodMap this !! req_method request = Some routes ->
  match_route routes (req_url request) = Some (route, params) ->
  body_read route request = None ->
  handle this request connInfo = ([EvJson], Rejected SyntaxError, this).
Proof.
  intros Hroutes Hmatch Hbody.
  unfold Server.handle. rewrite Hroutes, Hmatch.
  unfold body_read in Hbody.
  destruct (bodySchema route); [|done].
  by destruct (req_json request).
Qed.

Lemma handle_no_routes this request connInfo :
  routesByUppercasedMethodMap this !! req_method request = None ->
  handle this request connInfo = ([], Resolved notFound, this).
Proof. intros H. unfold Server.handle. by rewrite H. Qed.

Lemma handle_no_match this request connInfo routes :
  routesByUppercasedMethodMap this !! req_method request = Some routes ->
  match_route routes (req_url request) = None ->
  handle this request connInfo = ([], Resolved notFound, this).
Proof. intros H1 H2. unfold Server.handle. by rewrite H1, H2. Qed.

(** C1 (amended). For every request that matches a route and whose body
    can be read (the route declares no body schema, or the body is
    well-formed JSON), the declared validations run in the fixed order
    path params, query, headers, body.  The first one that fails is
    answered at once by the validation error handler with the name of its
    channel, and the events show that nothing after it is validated and
    the handler does not run; the handler runs exactly when every
    declared validation passes. *)
Theorem C1_fail_fast_in_fixed_order this request connInfo routes route params body :
  routesByUppercasedMethodMap this !! req_method request = Some routes ->
  match_route routes (req_url request) = Some (route, params) ->
  body_read route request = Some body ->
  (forall passed c rest error,
      declared_checks route request params body = (passed ++ c :: rest)%list ->
      Forall passes passed ->
      safeParse (ck_schema c) (ck_raw c) = ParseFailure error ->
      handle this request connInfo =
      ((body_events route ++ map check_event passed ++ [check_event c]
          ++ [EvValidationError (ck_source c) error])%list,
       Resolved (default (defaultValidationErrorHandler this)
                         (validationErrorHandler route) (ck_source c) error),
       this))
  /\ (Forall passes (declared_checks route request params body) ->
      exists ctx,
        (handle this request connInfo).1.1 =
        (body_events route
           ++ map check_event (declared_checks route request params body)
           ++ [EvHandler ctx])%list
        /\ (handle this request connInfo).1.2
           = (call_handler safeParse this (handler route) ctx).1)
  /\ (forall ctx, In (EvHandler ctx) (handle this request connInfo).1.1 ->
      Forall passes (declared_checks route request params body)).
Proof.
  intros Hroutes Hmatch Hbody.
  pose proof (handle_checks this request connInfo _ _ _ _ Hroutes Hmatch Hbody) as H.
  split; [|split].
  - intros passed c rest error Hl Hp Hc.
    rewrite (first_failing_unique _ _ _ _ Hl Hp _ Hc) in H.
    rewrite H. by norm_app.
  - intros Hall. apply first_failing_None in Hall. rewrite Hall in H.
    destruct H as (ctx & -> & _). by exists ctx.
  - intros ctx Hin. apply first_failing_None.
    destruct (first_failing _) as [[[p c] e]|]; [|done].
    rewrite H in Hin. simpl in Hin. exfalso.
    apply in_app_or in Hin as [Hin|Hin].
    { unfold body_events in Hin. destruct (bodySchema route); simpl in Hin;
        [by destruct Hin|done]. }
    apply in_app_or in Hin as [Hin|Hin].
    { apply in_map_iff in Hin as (? & ? & _). done. }
    simpl in Hin. by destruct Hin.
Qed.

(** C7 (amended). Whenever the matched route declares a body schema,
    [request.json()] is called first, before any validation.  A body that
    is not JSON makes [handle] reject with the syntax error: nothing is
    validated, neither the validation error handler nor the handler runs,
    and no response is produced.  A schema mismatch is another matter:
    every failing validation, of the body or of another channel, is
    answered by the validation error handler's response. *)
Theorem C7_malformed_json_rejects this request connInfo routes route params s :
  routesByUppercasedMethodMap this !! req_method request = Some routes ->
  match_route routes (req_url request) = Some (route, params) ->
  bodySchema route = Some s ->
  (exists trace, (handle this request connInfo).1.1 = EvJson :: trace
                 /\ ~ In EvJson trace)
  /\ (req_json request = JsonSyntaxError ->
      handle this request connInfo = ([EvJson], Rejected SyntaxError, this))
  /\ (forall body passed c rest error,
        req_json request = JsonValue body ->
        declared_checks route request params body = (passed ++ c :: rest)%list ->
        Forall passes passed ->
        safeParse (ck_schema c) (ck_raw c) = ParseFailure error ->
        (handle this request connInfo).1.2 =
        Resolved (default (defaultValidationErrorHandler this)
                          (validationErrorHandler route) (ck_source c) error)).
Proof.
  intros Hroutes Hmatch Hs.
  assert (Hev : forall l, ~ In EvJson (map check_event l)).
  { intros l Hin. apply in_map_iff in Hin as (? & ? & _). done. }
  destruct (req_json request) as [body|] eqn:J.
  - assert (Hbody : body_read route request = Some body).
    { unfold body_read. by rewrite Hs, J. }
    pose proof (handle_checks this request connInfo _ _ _ _ Hroutes Hmatch Hbody) as H.
    assert (Hbe : body_events route = [EvJson]) by (unfold body_events; by rewrite Hs).
    rewrite Hbe in H.
    split; [|split; [done|]].
    + destruct (first_failing _) as [[[p c] e]|].
      * rewrite H. simpl. eexists; split; [reflexivity|].
        intros Hin. apply in_app_or in Hin as [Hin|Hin]; [by apply Hev in Hin|].
        simpl in Hin. by destruct Hin.
      * destruct H as (ctx & -> & _). simpl. eexists; split; [reflexivity|].
        intros Hin. apply in_app_or in Hin as [Hin|Hin]; [by apply Hev in Hin|].
        simpl in Hin. by destruct Hin.
    + intros body' passed c rest error [= <-] Hl Hp Hc.
      rewrite (first_failing_unique _ _ _ _ Hl Hp _ Hc) in H. by rewrite H.
  - assert (Hbody : body_read route request = None).
    { unfold body_read. by rewrite Hs, J. }
    rewrite (handle_body_unreadable _ _ connInfo _ _ _ Hroutes Hmatch Hbody).
    split; [by exists []; simpl; split; [|tauto]|].
    split; [done|]. by intros.
Qed.

Lemma handle_trace_checks this request connInfo routes route params body ev :
  routesByUppercasedMethodMap this !! req_method request = Some routes ->
  match_route routes (req_url request) = Some (route, params) ->
  body_read route request = Some body ->
  In ev (handle this request connInfo).1.1 ->
  ev = EvJson
  \/ (exists c, In c (declared_checks route request params body)
                /\ ev = check_event c)
  \/ (exists source error, ev = EvValidationError source error)
  \/ (exists ctx, ev = EvHandler ctx).
Proof.
  intros Hroutes Hmatch Hbody Hin.
  pose proof (handle_checks this request connInfo _ _ _ _ Hroutes Hmatch Hbody) as H.
  assert (Hbe : forall e, In e (body_events route) -> e = EvJson).
  { unfold body_events. destruct (bodySchema route); simpl; [|done].
    by intros ? [<-|[]]. }
  destruct (first_failing _) as [[[p c] e]|] eqn:F.
  - rewrite H in Hin. simpl in Hin.
    apply first_failing_Some in F as (rest & Hl & _).
    apply in_app_or in Hin as [Hin|Hin]; [left; by apply Hbe|].
    apply in_app_or in Hin as [Hin|Hin].
    + right; left. apply in_map_iff in Hin as (c' & <- & Hc').
      exists c'. split; [|done]. rewrite Hl.
      apply in_app_or in Hc' as [?|[<-|[]]]; apply in_or_app; [by left|].
      right. by left.
    + right; right; left. destruct Hin as [<-|[]]. by eexists _, _.
  - destruct H as (ctx & H & _). rewrite H in Hin. simpl in Hin.
    apply in_app_or in Hin as [Hin|Hin]; [left; by apply Hbe|].
    apply in_app_or in Hin as [Hin|Hin].
    + right; left. apply in_map_iff in Hin as (c' & <- & Hc'). by exists c'.
    + right; right; right. destruct Hin as [<-|[]]. by eexists.
Qed.

(** The query validations that [handle] performs are those of the declared
    query parameters, each on the raw value [query_raw] gives. *)
Lemma query_event_raw this request connInfo routes route params body
    config record key schema raw :
  routesByUppercasedMethodMap this !! req_method request = Some routes ->
  match_route routes (req_url request) = Some (route, params) ->
  body_read route request = Some body ->
  querySchemas route = extractRequestQuerySchema config ->
  Registry.request config ≫= Registry.query = Some record ->
  In (EvSafeParse src_query (Some key) schema raw)
     (handle this request connInfo).1.1 ->
  In (key, schema) record
  /\ raw = query_raw (searchParams (req_url request)) key schema.
Proof.
  intros Hroutes Hmatch Hbody Hq Hrec Hin.
  destruct (handle_trace_checks _ _ _ _ _ _ _ _ Hroutes Hmatch Hbody Hin)
    as [?|[(c & Hc & Hev)|[(?&?&?)|(?&?)]]]; try done.
  unfold declared_checks in Hc.
  rewrite Hq in Hc. unfold extractRequestQuerySchema in Hc. rewrite Hrec in Hc.
  simpl in Hc. rewrite map_map in Hc.
  apply in_app_or in Hc as [Hc|Hc].
  { apply in_map_iff in Hc as (? & <- & _). done. }
  apply in_app_or in Hc as [Hc|Hc].
  2:{ apply in_app_or in Hc as [Hc|Hc].
      - apply in_map_iff in Hc as (? & <- & _). done.
      - destruct (bodySchema route); [|done]. by destruct Hc as [<-|[]]. }
  apply in_map_iff in Hc as ([k s'] & <- & Hks).
  unfold check_event in Hev; simpl in Hev. injection Hev as -> -> ->.
  split; [done|]. unfold query_raw. done.
Qed.

Lemma query_event_reached this request connInfo routes route params body
    config record key schema :
  routesByUppercasedMethodMap this !! req_method request = Some routes ->
  match_route routes (req_url request) = Some (route, params) ->
  body_read route request = Some body ->
  querySchemas route = extractRequestQuerySchema config ->
  Registry.request config ≫= Registry.query = Some record ->
  Forall passes (declared_checks route request params body) ->
  In (key, schema) record ->
  In (EvSafeParse src_query (Some key) schema
        (query_raw (searchParams (req_url request)) key schema))
     (handle this request connInfo).1.1.
Proof.
  intros Hroutes Hmatch Hbody Hq Hrec Hall Hin.
  pose proof (handle_checks this request connInfo _ _ _ _ Hroutes Hmatch Hbody) as H.
  apply first_failing_None in Hall. rewrite Hall in H.
  destruct H as (ctx & -> & _). simpl.
  apply in_or_app; right. apply in_or_app; left.
  apply in_map_iff.
  exists {| ck_source := src_query; ck_key := Some key; ck_schema := schema;
            ck_raw := query_raw (searchParams (req_url request)) key schema |}.
  split; [done|].
  unfold declared_checks. apply in_or_app; right. apply in_or_app; left.
  rewrite Hq. unfold extractRequestQuerySchema. rewrite Hrec. simpl.
  rewrite map_map. apply in_map_iff. by exists (key, schema).
Qed.

(** C3. For a route whose query schemas were extracted from its
    configuration, every validation of a query parameter that [handle]
    performs is on the list of all values of the key when the unwrapped
    schema is an array, and on a single value (the first occurrence of the
    key, [null] when there is none) otherwise; and when every declared
    validation passes, each declared query parameter is validated so. *)
Theorem C3_query_array_reads_all_values this request connInfo routes route
    params body config record :
  routesByUppercasedMethodMap this !! req_method request = Some routes ->
  match_route routes (req_url request) = Some (route, params) ->
  body_read route request = Some body ->
  querySchemas route = extractRequestQuerySchema config ->
  Registry.request config ≫= Registry.query = Some record ->
  (forall key schema raw,
      In (EvSafeParse src_query (Some key) schema raw)
         (handle this request connInfo).1.1 ->
      In (key, schema) record
      /\ raw = if instanceof_ZodArray (unwrapZodType schema)
               then all_values (searchParams (req_url request)) key
               else first_value (searchParams (req_url request)) key)
  /\ (Forall passes (declared_checks route request params body) ->
      forall key schema,
        In (key, schema) record ->
        In (EvSafeParse src_query (Some key) schema
              (if instanceof_ZodArray (unwrapZodType schema)
               then all_values (searchParams (req_url request)) key
               else first_value (searchParams (req_url request)) key))
           (handle this request connInfo).1.1).
Proof.
  intros Hroutes Hmatch Hbody Hq Hrec. split.
  - intros key schema raw Hin.
    eapply query_event_raw; eauto.
  - intros Hall key schema Hin.
    eapply query_event_reached; eauto.
Qed.

Lemma find_first {A : Type} (f : A -> bool) (l : list A) (x : A) :
  List.find f l = Some x <->
  exists before after,
    l = (before ++ x :: after)%list /\ f x = true
    /\ Forall (fun y => f y = false) before.
Proof.
  induction l as [|y l IH]; simpl.
  - split; [done|]. intros (before & after & H & _). by destruct before.
  - destruct (f y) eqn:Fy.
    + split.
      * intros [= <-]. by exists [], l.
      * intros ([|z before] & after & H & Hx & Hb).
        -- by injection H as ->.
        -- injection H as -> _. inversion Hb; congruence.
    + rewrite IH. split.
      * intros (before & after & -> & Hx & Hb).
        exists (y :: before), after. split; [done|]. split; [done|].
        by constructor.
      * intros ([|z before] & after & H & Hx & Hb).
        -- injection H as -> _. congruence.
        -- injection H as -> ->. inversion Hb; subst. by exists before, after.
Qed.

Lemma match_route_exact routes url exact :
  byPathMap routes !! pathname url = Some exact ->
  match_route routes url = Some (exact, None).
Proof. intros H. unfold Server.match_route. by rewrite H. Qed.

Lemma match_route_pattern routes url r g :
  byPathMap routes !! pathname url = None ->
  match_route routes url = Some (r, g) <->
  first_pattern_match URLPattern_exec (patternList routes) url r g.
Proof.
  intros Hexact. unfold Server.match_route. rewrite Hexact.
  set (f := fun r : OpenapiRoute =>
              match urlPattern r with
              | Some p => URLPattern_test URLPattern_exec p url
              | None => false
              end).
  assert (Hf : forall r', f r' = false <-> ~ pattern_matches URLPattern_exec r' url).
  { intros r'. unfold f, pattern_matches, URLPattern_test.
    destruct (urlPattern r') as [p|].
    - rewrite bool_decide_eq_false. split.
      + intros Hn (p' & [= <-] & Hs). done.
      + intros Hn Hs. apply Hn. by exists p.
    - split; [|done]. by intros _ (? & ? & _). }
  split.
  - destruct (List.find f (patternList routes)) as [r'|] eqn:F; [|done].
    intros [= -> <-].
    apply find_first in F as (before & after & Hl & Hr & Hb).
    unfold f in Hr. destruct (urlPattern r) as [p|] eqn:P; [|done].
    unfold URLPattern_test in Hr. apply bool_decide_eq_true in Hr.
    exists before, after, p. split; [done|]. split; [|done].
    eapply Forall_impl; [exact Hb|]. intros ? ?. by apply Hf.
  - intros (before & after & p & Hl & Hb & P & Hs & ->).
    assert (F : List.find f (patternList routes) = Some r).
    { apply find_first. exists before, after. split; [done|]. split.
      - unfold f. rewrite P. unfold URLPattern_test. by apply bool_decide_eq_true.
      - eapply Forall_impl; [exact Hb|]. intros ? ?. by apply Hf. }
    rewrite F. by rewrite P.
Qed.

(** What a successful registration through [get], [put], [post], [patch]
    or [delete] adds to the routes of the upper-cased method: a path
    without placeholders goes into the exact-path map, any other path goes
    to the end of the pattern list. *)
Lemma method_str_inj m1 m2 : method_str m1 = method_str m2 -> m1 = m2.
Proof. by destruct m1, m2. Qed.

Lemma endpoints_consistent_empty : endpoints_consistent ∅.
Proof. intros path m ep. unfold endpoints_get. by rewrite lookup_empty. Qed.

Lemma endpoints_consistent_endpoint eps config :
  endpoints_consistent eps -> endpoints_consistent (endpoint eps config).
Proof.
  intros Hc path m ep. unfold endpoint, endpoints_get.
  destruct (decide (Registry.path config = path)) as [<-|Hp].
  - rewrite lookup_insert_eq.
    destruct (decide (method_str (Registry.method config) = m)) as [<-|Hm].
    + rewrite lookup_insert_eq. by intros [= <-].
    + rewrite lookup_insert_ne; [|done]. intros H. apply Hc.
      unfold endpoints_get. by destruct (eps !! Registry.path config).
  - rewrite lookup_insert_ne; [|done]. apply Hc.
Qed.

Lemma method_registers this m path h v this' :
  endpoints_consistent (endpoints this) ->
  Server.method this m path h v = Generator.Ok this' ->
  exists route old new,
    old = default {| byPathMap := ∅; byPathTemplateMap := ∅; patternList := [] |}
                  (routesByUppercasedMethodMap this !! toUpperCase m)
    /\ routesByUppercasedMethodMap this' !! toUpperCase m = Some new
    /\ Server.path route = path
    /\ handler route = UserHandler h
    /\ (patternPath_of path = path ->
        urlPattern route = None
        /\ byPathMap new = <[path := route]> (byPathMap old)
        /\ patternList new = patternList old)
    /\ (patternPath_of path <> path ->
        urlPattern route = Some {| up_pathname := patternPath_of path |}
        /\ byPathMap new = byPathMap old
        /\ patternList new = (patternList old ++ [route])%list).
Proof.
  intros Hc. unfold Server.method.
  destruct (match routesByUppercasedMethodMap this !! toUpperCase m with
            | Some routes => _ | None => false end); [done|].
  destruct (endpoints_get _ _ _) as [ep|] eqn:Hep; [|done].
  apply Hc in Hep as [Hpath Hm]. apply method_str_inj in Hm.
  intros [= <-].
  eexists {| Server.path := path;
             urlPattern :=
               if negb (str_eqb path (patternPath_of path))
               then Some {| up_pathname := patternPath_of path |} else None;
             paramSchemas := extractRequestParamsSchema (config ep);
             querySchemas := extractRequestQuerySchema (config ep);
             headerSchemas := extractRequestHeadersSchema (config ep);
             bodySchema := extractRequestBodySchema (config ep);
             validationErrorHandler := v;
             handler := UserHandler h |}, _, _.
  split; [reflexivity|]. unfold addRoute. simpl. rewrite Hm.
  split; [apply lookup_insert_eq|].
  split; [reflexivity|]. split; [reflexivity|]. simpl.
  unfold str_eqb. split; intros Hp.
  - rewrite (bool_decide_eq_true_2 (path = patternPath_of path)); [|done].
    done.
  - rewrite (bool_decide_eq_false_2 (path = patternPath_of path)); [|done].
    done.
Qed.

(** C2. Dispatch looks the request method up among the routes grouped by
    upper-cased method; without routes for it the answer is the 404
    response.  Otherwise an entry of the exact-path map for the request
    path is the match, whatever the pattern list holds; only without such
    an entry the match is the first route of the pattern list, in
    registration order, whose pattern matches, together with the groups
    captured; and without any match the answer is the 404 response and
    nothing is validated.  Registration files a route under its
    upper-cased method: a path without placeholders into the exact-path
    map, any other path at the end of the pattern list. *)
Theorem C2_exact_path_before_patterns :
  (forall this request connInfo,
      match routesByUppercasedMethodMap this !! req_method request with
      | None => handle this request connInfo = ([], Resolved notFound, this)
      | Some routes =>
          (forall exact,
              byPathMap routes !! pathname (req_url request) = Some exact ->
              match_route routes (req_url request) = Some (exact, None))
          /\ (byPathMap routes !! pathname (req_url request) = None ->
              forall r g,
                match_route routes (req_url request) = Some (r, g) <->
                first_pattern_match URLPattern_exec (patternList routes)
                  (req_url request) r g)
          /\ (match_route routes (req_url request) = None ->
              handle this request connInfo = ([], Resolved notFound, this))
      end)
  /\ (forall this m path h v this',
        endpoints_consistent (endpoints this) ->
        Server.method this m path h v = Generator.Ok this' ->
        exists route old new,
          old = default {| byPathMap := ∅; byPathTemplateMap := ∅;
                           patternList := [] |}
                        (routesByUppercasedMethodMap this !! toUpperCase m)
          /\ routesByUppercasedMethodMap this' !! toUpperCase m = Some new
          /\ Server.path route = path
          /\ handler route = UserHandler h
          /\ (patternPath_of path = path ->
              urlPattern route = None
              /\ byPathMap new = <[path := route]> (byPathMap old)
              /\ patternList new = patternList old)
          /\ (patternPath_of path <> path ->
              urlPattern route = Some {| up_pathname := patternPath_of path |}
              /\ byPathMap new = byPathMap old
              /\ patternList new = (patternList old ++ [route])%list)).
Proof.
  split.
  - intros this request connInfo.
    destruct (routesByUppercasedMethodMap this !! req_method request)
      as [routes|] eqn:Hroutes.
    + split; [|split].
      * intros exact. apply match_route_exact.
      * intros Hnone r g. by apply match_route_pattern.
      * intros Hnone. by apply handle_no_match with routes.
    + by apply handle_no_routes.
  - apply method_registers.
Qed.

End HandleFacts.

(** *** Header names *)

Lemma lower_ascii_idemp c : lower_ascii (lower_ascii c) = lower_ascii c.
Proof.
  destruct c as [[] [] [] [] [] [] [] []]; reflexivity.
Qed.

Lemma toLowerCase_idemp s : toLowerCase (toLowerCase s) = toLowerCase s.
Proof.
  induction s as [|c s IH]; simpl; [done|].
  by rewrite lower_ascii_idemp, IH.
Qed.

(** The keys of the object made from the request headers are lower-case. *)
Lemma headers_entries_lower sent k :
  is_Some (obj_get k (headers_entries sent)) -> toLowerCase k = k.
Proof.
  induction sent as [|[n v] sent IH]; simpl; [by intros [? ?]|].
  destruct (obj_get (toLowerCase n) (headers_entries sent)) as [[]|] eqn:E;
    simpl;
    try (destruct (str_eqb k (toLowerCase n)) eqn:Ek;
         [apply str_eqb_true in Ek as ->; intros _; apply toLowerCase_idemp
         |done]).
  destruct (decide (k = toLowerCase n)) as [->|Hne].
  - intros _. apply toLowerCase_idemp.
  - by rewrite obj_get_set_ne.
Qed.

(** A key is found among the request headers exactly when a header line
    has it as its lower-cased name: for a key declared in lower case the
    capitalization of the request does not matter. *)
Lemma headers_entries_found sent k :
  is_Some (obj_get k (headers_entries sent)) <->
  exists n v, In (n, v) sent /\ toLowerCase n = k.
Proof.
  induction sent as [|[n v] sent IH]; simpl.
  - split; [by intros [? ?]|by intros (? & ? & [] & _)].
  - assert (Hrest : (exists n0 v0, ((n, v) = (n0, v0) \/ In (n0, v0) sent)
                                   /\ toLowerCase n0 = k)
                    <-> toLowerCase n = k
                        \/ exists n0 v0, In (n0, v0) sent /\ toLowerCase n0 = k).
    { split.
      - intros (n0 & v0 & [[= <- <-]|Hin] & Hk); [by left|].
        right. by exists n0, v0.
      - intros [Hk|(n0 & v0 & Hin & Hk)].
        + exists n, v. split; [by left|done].
        + exists n0, v0. split; [by right|done]. }
    rewrite Hrest, <- IH. clear Hrest IH.
    destruct (decide (k = toLowerCase n)) as [->|Hne].
    + split; [by left|]. intros _.
      destruct (obj_get (toLowerCase n) (headers_entries sent)) as [[]|];
        simpl; rewrite ?str_eqb_refl, ?obj_get_set_eq; by eexists.
    + assert (obj_get k (match obj_get (toLowerCase n) (headers_entries sent) with
                         | Some (JStr v') =>
                             obj_set (toLowerCase n) (JStr (v ++ ", " ++ v'))
                               (headers_entries sent)
                         | _ => (toLowerCase n, JStr v) :: headers_entries sent
                         end)
              = obj_get k (headers_entries sent)) as ->.
      { destruct (obj_get (toLowerCase n) (headers_entries sent)) as [[]|];
          simpl; try (apply str_eqb_false in Hne as ->; done).
        by apply obj_get_set_ne. }
      split; [by right|]. by intros [?|?].
Qed.

(** C6 (what the code does). A header key declared with an upper-case
    letter, other than the name of a member every object inherits, is
    never found among the request headers, however the header is
    capitalized in the request: the value validated is [undefined]. *)
Theorem C6_mixed_case_key_reads_undefined sent key :
  toLowerCase key <> key ->
  inherited key = false ->
  default JUndefined (obj_get key (headers_entries sent)) = JUndefined.
Proof.
  intros Hne _. destruct (obj_get key (headers_entries sent)) eqn:E; [|done].
  exfalso. apply Hne. apply (headers_entries_lower sent). by rewrite E.
Qed.

(** *** The classification of query schemas *)



(** *** [memoizePromise] *)

Section MemoizeFacts.

Context {W T E : Type}.
Variable create : W -> Completion T E * W.

Lemma run_memoized tasks p w :
  Forall (fun c => c = Returned p) (run create tasks (Some p) w).1.1.1
  /\ (run create tasks (Some p) w).1.1.2 = O
  /\ (run create tasks (Some p) w).1.2 = Some p.
Proof.
  revert w. induction tasks as [|[|task] tasks IH]; intros w; simpl.
  - by split; [constructor|].
  - destruct (IH w) as (H1 & H2 & H3).
    destruct (run create tasks (Some p) w) as [[[cs n] m] w']; simpl in *.
    split; [by constructor|]. by subst.
  - apply IH.
Qed.

Lemma run_app tasks1 tasks2 m w :
  run create (tasks1 ++ tasks2) m w =
  let '(cs1, n1, m1, w1) := run create tasks1 m w in
  let '(cs2, n2, m2, w2) := run create tasks2 m1 w1 in
  ((cs1 ++ cs2)%list, (n1 + n2)%nat, m2, w2).
Proof.
  revert m w. induction tasks1 as [|[|task] tasks1 IH]; intros m w; simpl.
  - by destruct (run create tasks2 m w) as [[[??]?]?].
  - destruct (memoizePromise create m w) as [[[c ran] m'] w'].
    rewrite IH.
    destruct (run create tasks1 m' w') as [[[cs1 n1] m1] w1].
    destruct (run create tasks2 m1 w1) as [[[cs2 n2] m2] w2].
    simpl. f_equal. f_equal. f_equal. lia.
  - apply IH.
Qed.

Lemma run_no_call tasks m w :
  ~ In Call tasks ->
  (run create tasks m w).1.1 = ([], O) /\ (run create tasks m w).1.2 = m.
Proof.
  revert w. induction tasks as [|[|task] tasks IH]; intros w Hn; simpl.
  - done.
  - exfalso. apply Hn. by left.
  - apply IH. intros H. apply Hn. by right.
Qed.

(** For any [create] that returns a promise whenever it is called: in
    every sequence of calls, interleaved with any other tasks, [create]
    runs at most once (exactly once if there is a call), every call
    returns the same promise, and that promise is the one the single run
    of [create] returned. *)
Lemma memoize_single_flight tasks w :
  (forall w, exists p w', create w = (Returned p, w')) ->
  ((run create tasks None w).1.1.2 <= 1)%nat
  /\ (exists p, Forall (fun c => c = Returned p) (run create tasks None w).1.1.1)
  /\ (forall before after,
        tasks = (before ++ Call :: after)%list -> ~ In Call before ->
        (run create tasks None w).1.1.2 = 1%nat
        /\ exists p,
            (create (run create before None w).2).1 = Returned p
            /\ Forall (fun c => c = Returned p) (run create tasks None w).1.1.1
            /\ (run create tasks None w).1.2 = Some p).
Proof.
  intros Hret.
  assert (Hcall : forall tasks w,
             exists p, (create w).1 = Returned p
                       /\ (run create (Call :: tasks) None w).1.1.2 = 1%nat
                       /\ Forall (fun c => c = Returned p)
                            (run create (Call :: tasks) None w).1.1.1
                       /\ (run create (Call :: tasks) None w).1.2 = Some p).
  { intros ts w0. destruct (Hret w0) as (p & w' & Hc). exists p.
    simpl. rewrite Hc. simpl.
    destruct (run_memoized ts p w') as (H1 & H2 & H3).
    destruct (run create ts (Some p) w') as [[[cs n] m] w'']; simpl in *.
    subst. split; [done|]. split; [done|]. split; [by constructor|done]. }
  assert (Hsplit : forall before after,
             tasks = (before ++ Call :: after)%list -> ~ In Call before ->
             (run create tasks None w).1.1.2 = 1%nat
             /\ exists p,
                 (create (run create before None w).2).1 = Returned p
                 /\ Forall (fun c => c = Returned p) (run create tasks None w).1.1.1
                 /\ (run create tasks None w).1.2 = Some p).
  { intros before after -> Hn. rewrite run_app.
    destruct (run_no_call before None w Hn) as [Hb1 Hb2].
    destruct (run create before None w) as [[[cs1 n1] m1] w1].
    cbn [fst snd] in Hb1, Hb2 |- *. injection Hb1 as -> ->. subst m1.
    destruct (Hcall after w1) as (p & Hc & Hn1 & Hall & Hm).
    destruct (run create (Call :: after) None w1) as [[[cs2 n2] m2] w2].
    cbn [fst snd] in Hn1, Hall, Hm |- *. simpl. split; [done|]. by exists p. }
  assert (Hdec : In Call tasks \/ ~ In Call tasks).
  { clear. induction tasks as [|[|task] tasks IH]; simpl.
    - right; tauto.
    - left. by left.
    - destruct IH as [?|Hn]; [left; by right|]. right.
      intros [?|?]; [discriminate|done]. }
  destruct Hdec as [Hin|Hn].
  - assert (exists before after,
               tasks = (before ++ Call :: after)%list /\ ~ In Call before)
      as (before & after & Hl & Hb).
    { clear -Hin. induction tasks as [|[|task] tasks IH]; simpl in *; [done|..].
      - exists [], tasks. split; [done|]. by intros [].
      - destruct Hin as [?|Hin]; [discriminate|].
        destruct (IH Hin) as (before & after & -> & Hb).
        exists (Other task :: before), after. split; [done|].
        intros [?|?]; [discriminate|done]. }
    destruct (Hsplit before after Hl Hb) as (H1 & p & _ & Hall & _).
    split; [lia|]. split; [by exists p|]. apply Hsplit.
  - destruct (run_no_call tasks None w Hn) as [H1 _].
    destruct (Hret w) as (p & _ & _).
    split; [rewrite H1; simpl; lia|].
    split; [exists p; rewrite H1; by constructor|]. apply Hsplit.
Qed.

End MemoizeFacts.

(** C9 (amended). The function made by [memoizePromise] is single-flight
    for a [create] that returns a promise whenever it is called: in every
    sequence of calls, also with other tasks in between, [create] runs at
    most once, every call returns the same promise, and it is the promise
    of that single run.  For the generated-document endpoint: once a
    request has been answered with the document, every later request is
    answered with the same response and the router does not change. *)
Theorem C9_single_flight_when_create_returns :
  (forall (W T E : Type) (create : W -> Completion T E * W) tasks w,
      (forall w, exists p w', create w = (Returned p, w')) ->
      ((run create tasks None w).1.1.2 <= 1)%nat
      /\ (exists p, Forall (fun c => c = Returned p)
                      (run create tasks None w).1.1.1)
      /\ (forall before after,
            tasks = (before ++ Call :: after)%list -> ~ In Call before ->
            (run create tasks None w).1.1.2 = 1%nat
            /\ exists p,
                (create (run create before None w).2).1 = Returned p
                /\ Forall (fun c => c = Returned p)
                     (run create tasks None w).1.1.1
                /\ (run create tasks None w).1.2 = Some p))
  /\ (forall safeParse this ctx1 ctx2 response this1,
        call_handler safeParse this DocsHandler ctx1 = (Resolved response, this1) ->
        call_handler safeParse this1 DocsHandler ctx2 = (Resolved response, this1)).
Proof.
  split.
  - intros W T E create tasks w Hret. by apply memoize_single_flight.
  - intros safeParse this ctx1 ctx2 response this1. simpl.
    unfold memoizePromise.
    destruct (memoized this) as [p|] eqn:M.
    + intros [= <- <-]. simpl. done.
    + unfold create_docs.
      destruct (Generator.generateDocument _ _ _); simpl; [|done].
      intros [= <- <-]. simpl. done.
Qed.

End ServerFacts.

(** ** The router on the example requests *)

Module ServerExamples.
Import Js Zod Registry RuntimeRequest Endpoint Server Spec Sample ServerFacts.

(** An invalid path parameter together with a body that violates its
    schema: only the path parameter is reported. *)
Lemma C1_witness :
  handle sampleParse sampleExec (theRouter "x-some-uuid" true)
    (sampleRequest "PUT" "/users/abc" [("tag", "a")] [("X-Some-Uuid", "u")]
       (JsonValue JNull))
    connInfo
  = ([EvJson;
      EvSafeParse src_params (Some "id") (z_string_min 5) (JStr "abc");
      EvValidationError src_params
        {| errors := JArr [JObj [("message", JStr "String out of bounds")]] |}],
     Resolved
       (builtin_defaultValidationErrorHandler src_params
          {| errors := JArr [JObj [("message", JStr "String out of bounds")]] |}),
     theRouter "x-some-uuid" true).
Proof.
  destruct (C1_fail_fast_in_fixed_order sampleParse sampleExec
              (theRouter "x-some-uuid" true)
              (sampleRequest "PUT" "/users/abc" [("tag", "a")]
                 [("X-Some-Uuid", "u")] (JsonValue JNull))
              connInfo
              (theRoutes "x-some-uuid" true "PUT")
              (updateUserRoute "x-some-uuid")
              (Some [("id", "abc")])
              JNull) as (H & _ & _).
  - vm_compute; reflexivity.
  - vm_compute; reflexivity.
  - vm_compute; reflexivity.
  - etransitivity;
      [eapply (H [] {| ck_source := src_params; ck_key := Some "id";
                       ck_schema := z_string_min 5; ck_raw := JStr "abc" |}
                 _ {| errors := JArr [JObj [("message",
                                             JStr "String out of bounds")]] |})|].
    + reflexivity.
    + constructor.
    + vm_compute; reflexivity.
    + vm_compute; reflexivity.
Defined.

(** C1 as stated fails: the request below matches [PUT /users/{id}], its
    path parameter [abc] is invalid and its body is not JSON; [handle]
    rejects with the syntax error of [request.json()], reports no error of
    the params channel and validates nothing. *)
Lemma C1_counterexample :
  routesByUppercasedMethodMap (theRouter "x-some-uuid" true) !! "PUT"
  = Some (theRoutes "x-some-uuid" true "PUT")
  /\ match_route sampleExec (theRoutes "x-some-uuid" true "PUT")
       {| pathname := "/users/abc"; searchParams := [] |}
     = Some (updateUserRoute "x-some-uuid", Some [("id", "abc")])
  /\ paramSchemas (updateUserRoute "x-some-uuid") = Some [("id", z_string_min 5)]
  /\ sampleParse (z_string_min 5) (groups_get [("id", "abc")] "id")
     = invalid "String out of bounds"
  /\ handle sampleParse sampleExec (theRouter "x-some-uuid" true)
       (sampleRequest "PUT" "/users/abc" [] [("x-some-uuid", "u")]
          JsonSyntaxError)
       connInfo
     = ([EvJson], Rejected SyntaxError, theRouter "x-some-uuid" true).
Proof. repeat split; vm_compute; reflexivity. Qed.

(** [GET /users/list] reaches the exact route, whether it was registered
    before or after [GET /users/{id}]. *)
Lemma C2_witness :
  (match_route sampleExec (theRoutes "x-some-uuid" true "GET") (req_url listRequest)
   = Some (usersListRoute, None)
   /\ match_route sampleExec (theRoutes "x-some-uuid" false "GET") (req_url listRequest)
      = Some (usersListRoute, None))
  /\ (forall exact_first,
        sampleHandle "x-some-uuid" exact_first listRequest
        = Some ([EvHandler
                   {| ctx_url := req_url listRequest;
                      ctx_params := []; ctx_query := []; ctx_headers := [];
                      ctx_body := JNull; ctx_request := listRequest;
                      ctx_connInfo := connInfo |}],
                Resolved
                  {| status := 200;
                     resp_headers := [("content-type", JStr "application/json")];
                     resp_body :=
                       BodyStringify
                         (JObj [("handler", JStr "usersList");
                                ("params", JObj []); ("query", JObj []);
                                ("headers", JObj []); ("body", JNull)]) |})).
Proof.
  split; [split|].
  - pose proof (proj1 (C2_exact_path_before_patterns sampleParse sampleExec)
                  (theRouter "x-some-uuid" true) listRequest connInfo) as H.
    assert (L : routesByUppercasedMethodMap (theRouter "x-some-uuid" true)
                  !! req_method listRequest
                = Some (theRoutes "x-some-uuid" true "GET"))
      by (vm_compute; reflexivity).
    rewrite L in H. destruct H as (H & _ & _). apply H.
    vm_compute; reflexivity.
  - pose proof (proj1 (C2_exact_path_before_patterns sampleParse sampleExec)
                  (theRouter "x-some-uuid" false) listRequest connInfo) as H.
    assert (L : routesByUppercasedMethodMap (theRouter "x-some-uuid" false)
                  !! req_method listRequest
                = Some (theRoutes "x-some-uuid" false "GET"))
      by (vm_compute; reflexivity).
    rewrite L in H. destruct H as (H & _ & _). apply H.
    vm_compute; reflexivity.
  - intros []; vm_compute; reflexivity.
Defined.

(** [?tag=a&tag=b] is validated as [["a","b"]] by the array parameter
    [tag]; of [?first=1&first=2] the parameter [first] sees ["1"]. *)
Lemma C3_witness :
  In (EvSafeParse src_query (Some "tag") (optional (z_array z_string))
        (JArr [JStr "a"; JStr "b"]))
     (handle sampleParse sampleExec (theRouter "x-some-uuid" true)
        tagsRequest connInfo).1.1
  /\ In (EvSafeParse src_query (Some "first") (nullable z_string) (JStr "1"))
        (handle sampleParse sampleExec (theRouter "x-some-uuid" true)
           tagsRequest connInfo).1.1.
Proof.
  destruct (C3_query_array_reads_all_values sampleParse sampleExec
              (theRouter "x-some-uuid" true) tagsRequest connInfo
              (theRoutes "x-some-uuid" true "PUT")
              (updateUserRoute "x-some-uuid")
              (Some [("id", "abcdef")]) goodBody
              (updateUser "x-some-uuid")
              [("tag", optional (z_array z_string)); ("first", nullable z_string)])
    as [_ H].
  - vm_compute; reflexivity.
  - vm_compute; reflexivity.
  - vm_compute; reflexivity.
  - reflexivity.
  - reflexivity.
  - assert (Hall : Forall (passes sampleParse)
                     (declared_checks (updateUserRoute "x-some-uuid") tagsRequest
                        (Some [("id", "abcdef")]) goodBody)).
    { repeat constructor. }
    split.
    + apply (H Hall "tag" (optional (z_array z_string))). by left.
    + apply (H Hall "first" (nullable z_string)). right; by left.
Defined.

(** A header declared as [X-Some-Uuid] reads [undefined] from a request
    that carries [x-some-uuid]. *)
Lemma C6_witness :
  default JUndefined
    (obj_get "X-Some-Uuid" (headers_entries [("x-some-uuid", "u")]))
  = JUndefined.
Proof.
  apply (C6_mixed_case_key_reads_undefined [("x-some-uuid", "u")] "X-Some-Uuid").
  - vm_compute. discriminate.
  - vm_compute. reflexivity.
Defined.

(** The same on the router: the route declares the header [X-Some-Uuid],
    the request carries [x-some-uuid: u] and is valid otherwise; the
    header schema is applied to [undefined] and the request is answered
    with the validation error of the headers channel, although the header
    is there up to case. *)
Lemma C6_mixed_case_header_example :
  header_value_ci [("x-some-uuid", "u")] "X-Some-Uuid" = Some "u"
  /\ sampleHandle "X-Some-Uuid" true
       (sampleRequest "PUT" "/users/abcdef" [] [("x-some-uuid", "u")]
          (JsonValue goodBody))
     = Some ([EvJson;
              EvSafeParse src_params (Some "id") (z_string_min 5) (JStr "abcdef");
              EvSafeParse src_query (Some "tag") (optional (z_array z_string))
                (JArr []);
              EvSafeParse src_query (Some "first") (nullable z_string) JNull;
              EvSafeParse src_headers (Some "X-Some-Uuid") z_string JUndefined;
              EvValidationError src_headers
                {| errors := JArr [JObj [("message", JStr "Expected string")]] |}],
             Resolved
               (builtin_defaultValidationErrorHandler src_headers
                  {| errors := JArr [JObj [("message", JStr "Expected string")]] |}))
  /\ (exists trace response,
        sampleHandle "x-some-uuid" true
          (sampleRequest "PUT" "/users/abcdef" [] [("X-Some-Uuid", "u")]
             (JsonValue goodBody))
        = Some (trace, Resolved response)
        /\ In (EvSafeParse src_headers (Some "x-some-uuid") z_string (JStr "u"))
              trace
        /\ status response = 200).
Proof.
  split; [vm_compute; reflexivity|]. split; [vm_compute; reflexivity|].
  eexists _, _. split; [vm_compute; reflexivity|].
  split; [|reflexivity]. do 4 right. by left.
Qed.

(** A body that is not JSON: [handle] rejects. *)
Lemma C7_witness :
  handle sampleParse sampleExec (theRouter "x-some-uuid" true)
    malformedRequest connInfo
  = ([EvJson], Rejected SyntaxError, theRouter "x-some-uuid" true).
Proof.
  destruct (C7_malformed_json_rejects sampleParse sampleExec
              (theRouter "x-some-uuid" true) malformedRequest connInfo
              (theRoutes "x-some-uuid" true "PUT")
              (updateUserRoute "x-some-uuid")
              (Some [("id", "abcdef")])
              (z_object [("name", z_string)]))
    as (_ & H & _).
  - vm_compute; reflexivity.
  - vm_compute; reflexivity.
  - reflexivity.
  - apply H. reflexivity.
Defined.

(** C7 as stated fails: the request below is valid except that its body
    is not JSON; the promise of [handle] is rejected with the syntax error
    of [request.json()], so there is no response at all, in particular no
    error response of its own. *)
Lemma C7_counterexample :
  bodySchema (updateUserRoute "x-some-uuid") = Some (z_object [("name", z_string)])
  /\ match_route sampleExec (theRoutes "x-some-uuid" true "PUT")
       (req_url malformedRequest)
     = Some (updateUserRoute "x-some-uuid", Some [("id", "abcdef")])
  /\ (handle sampleParse sampleExec (theRouter "x-some-uuid" true)
        malformedRequest connInfo).1
     = ([EvJson], Rejected SyntaxError)
  /\ (forall response,
        (handle sampleParse sampleExec (theRouter "x-some-uuid" true)
           malformedRequest connInfo).1.2 <> Resolved response).
Proof.
  split; [reflexivity|]. split; [vm_compute; reflexivity|].
  split; [vm_compute; reflexivity|].
  intros response.
  assert (H : (handle sampleParse sampleExec (theRouter "x-some-uuid" true)
                 malformedRequest connInfo).1.2 = Rejected SyntaxError)
    by (vm_compute; reflexivity).
  rewrite H. discriminate.
Qed.

(** Three tasks, two of them calls: [create] runs once. *)
Lemma C9_witness :
  (run counting_create [Call; Other S; Call] None O).1.1.2 = 1%nat
  /\ exists p,
      (counting_create (run counting_create [] None O).2).1 = Returned p
      /\ Forall (fun c => c = Returned p)
           (run counting_create [Call; Other S; Call] None O).1.1.1
      /\ (run counting_create [Call; Other S; Call] None O).1.2 = Some p.
Proof.
  destruct (proj1 C9_single_flight_when_create_returns nat nat unit
              counting_create [Call; Other S; Call] O) as (_ & _ & H).
  - intros w. eexists _, _. reflexivity.
  - apply (H [] [Other S; Call]).
    + reflexivity.
    + simpl. tauto.
Defined.

(** C9 as stated fails: when [create] throws, nothing is memoized and
    every call runs [create] again; two calls run it twice and return no
    promise.  So it is for the document endpoint over a registry whose
    generation fails: the request is rejected and the router is as
    before, ready to generate again. *)
Lemma C9_counterexample :
  run throwing_create [Call; Call] None O
  = ([Thrown tt; Thrown tt], 2%nat, None, 2%nat)
  /\ handle sampleParse sampleExec brokenDocsRouter docsRequest connInfo
     = ([EvHandler {| ctx_url := req_url docsRequest;
                      ctx_params := []; ctx_query := []; ctx_headers := [];
                      ctx_body := JNull; ctx_request := docsRequest;
                      ctx_connInfo := connInfo |}],
        Rejected (GeneratorError
                    (Generator.MissingParameterDataError "name" None)),
        brokenDocsRouter)
  /\ memoized brokenDocsRouter = None.
Proof. repeat split; vm_compute; reflexivity. Qed.


End ServerExamples.

(** ** Properties of the document generator *)

Module GeneratorFacts.
Import Js Zod Registry Spec JsFacts Generator.

(** *** The component section *)

Lemma find_app {A : Type} (f : A -> bool) (l1 l2 : list A) :
  List.find f (l1 ++ l2) =
  match List.find f l1 with Some x => Some x | None => List.find f l2 end.
Proof.
  induction l1 as [|x l1 IH]; simpl; [done|]. by destruct (f x).
Qed.

Lemma last_raw_cons kind name c raws :
  last_raw kind name (c :: raws) =
  match last_raw kind name raws with
  | Some x => Some x
  | None => if raw_matches kind name c then Some (component c) else None
  end.
Proof.
  unfold last_raw. simpl. rewrite find_app.
  destruct (List.find (raw_matches kind name) (rev raws)); simpl; [done|].
  by destruct (raw_matches kind name c).
Qed.

Lemma all_objects_set k b o :
  all_objects o -> all_objects (obj_set k (JObj b) o).
Proof.
  unfold all_objects. induction o as [|[k' v'] o IH]; simpl; intros H.
  - constructor; [by eexists|done].
  - inversion H; subst. destruct (str_eqb k k'); constructor; eauto.
Qed.

Lemma all_objects_get k o :
  all_objects o ->
  match obj_get k o with Some (JObj _) | None => True | _ => False end.
Proof.
  intros H. destruct (obj_get k o) as [v|] eqn:E; [|done].
  apply obj_get_In in E. unfold all_objects in H.
  rewrite Forall_forall in H. apply list_elem_of_In in E.
  destruct (H _ E) as [b Hb]. simpl in Hb. by subst.
Qed.

(** The buckets built from the raw components: a kind and name hold the
    component registered last for them. *)
Lemma collect_rawComponents_get raws acc kind name :
  all_objects acc ->
  all_objects (fold_left add_rawComponent raws acc)
  /\ get_field name (get_field kind (JObj (fold_left add_rawComponent raws acc))) =
     match last_raw kind name raws with
     | Some c => c
     | None => get_field name (get_field kind (JObj acc))
     end.
Proof.
  revert acc. induction raws as [|c raws IH]; intros acc Hacc.
  - done.
  - cbn [fold_left].
    assert (Hacc' : all_objects (add_rawComponent acc c))
      by by apply all_objects_set.
    destruct (IH _ Hacc') as [Hres Hget]. split; [done|].
    rewrite Hget, last_raw_cons.
    destruct (last_raw kind name raws); [done|].
    unfold raw_matches, add_rawComponent. simpl.
    destruct (str_eqb (componentType c) kind) eqn:Ek; simpl.
    + apply str_eqb_true in Ek as <-. rewrite obj_get_set_eq. simpl.
      destruct (str_eqb (Generator.name c) name) eqn:En.
      * apply str_eqb_true in En as <-. by rewrite obj_get_set_eq.
      * apply str_eqb_false in En.
        rewrite obj_get_set_ne; [|done].
        pose proof (all_objects_get (componentType c) acc Hacc) as Ho.
        destruct (obj_get (componentType c) acc) as [[]|]; simpl; done.
    + apply str_eqb_false in Ek. rewrite obj_get_set_ne; done.
Qed.

Lemma collect_rawComponents_spec raws kind name :
  all_objects (collect_rawComponents raws)
  /\ get_field name (get_field kind (JObj (collect_rawComponents raws)))
     = default JUndefined (last_raw kind name raws).
Proof.
  destruct (collect_rawComponents_get raws [] kind name) as [H1 H2];
    [constructor|].
  split; [done|]. unfold collect_rawComponents. rewrite H2.
  by destruct (last_raw kind name raws).
Qed.

(** [components[kind][name]] after [buildComponents]. *)
Lemma buildComponents_get this kind name :
  NoDup (keys (schemaRefs this)) -> NoDup (keys (paramRefs this)) ->
  get_field name (get_field kind (JObj (buildComponents this))) =
  let raw := default JUndefined (last_raw kind name (rawComponents this)) in
  if str_eqb kind "schemas"
  then default raw (obj_get name (schemaRefs this))
  else if str_eqb kind "parameters"
       then default raw (obj_get name (paramRefs this))
       else raw.
Proof.
  intros Hs Hp. unfold buildComponents.
  set (raw := collect_rawComponents (rawComponents this)).
  destruct (collect_rawComponents_spec (rawComponents this) kind name)
    as [Hobj Hget].
  fold raw in Hobj, Hget. rewrite <- Hget. clear Hget.
  assert (Hbucket : forall k n,
             default JUndefined
               (obj_get n match obj_get k raw with
                          | Some (JObj o) => o
                          | _ => []
                          end)
             = get_field n (get_field k (JObj raw))).
  { intros k n. simpl. pose proof (all_objects_get k raw Hobj) as Ho.
    destruct (obj_get k raw) as [[]|]; simpl; done. }
  unfold obj_spread at 1. simpl.
  destruct (str_eqb kind "schemas") eqn:Ek.
  - apply str_eqb_true in Ek as ->.
    rewrite obj_get_set_ne; [|done]. rewrite obj_get_set_eq. simpl.
    rewrite obj_get_spread; [|done].
    destruct (obj_get name (schemaRefs this)); [done|]. apply Hbucket.
  - apply str_eqb_false in Ek.
    destruct (str_eqb kind "parameters") eqn:Ep.
    + apply str_eqb_true in Ep as ->. rewrite obj_get_set_eq. simpl.
      rewrite obj_get_spread; [|done].
      destruct (obj_get name (paramRefs this)); [done|]. apply Hbucket.
    + apply str_eqb_false in Ep. by rewrite !obj_get_set_ne.
Qed.

Lemma bind_Ok {A B : Type} (c : Result A) (k : A -> Result B) b :
  bind c k = Ok b -> exists a, c = Ok a /\ k a = Ok b.
Proof. destruct c as [a|e]; simpl; [|done]. intros H. by exists a. Qed.

(** *** The order of generation *)

Lemma raw_components_of_app l1 l2 :
  raw_components_of (l1 ++ l2) = (raw_components_of l1 ++ raw_components_of l2)%list.
Proof. unfold raw_components_of. apply omap_app. Qed.

(** Sorting is stable and puts raw components first: they keep their
    order of registration. *)
Lemma sort_insert_raw x sorted :
  raw_components_of (sort_insert by_generationOrder x sorted)
  = raw_components_of (x :: sorted).
Proof.
  induction sorted as [|y sorted IH]; [done|].
  cbn [sort_insert].
  destruct (by_generationOrder x y <=? 0) eqn:E; [done|].
  change (y :: sort_insert by_generationOrder x sorted)
    with ([y] ++ sort_insert by_generationOrder x sorted)%list.
  rewrite raw_components_of_app, IH.
  destruct x; [|by destruct y..].
  exfalso. apply Z.leb_gt in E. destruct y; vm_compute in E; discriminate.
Qed.

Lemma sortDefinitions_raw definitions :
  raw_components_of (sortDefinitions definitions) = raw_components_of definitions.
Proof.
  unfold sortDefinitions.
  induction definitions as [|d definitions IH]; [done|].
  cbn [stable_sort]. rewrite sort_insert_raw.
  change (d :: ?l) with ([d] ++ l)%list.
  by rewrite !raw_components_of_app, IH.
Qed.

Section GenerateFacts.

Variable safeParse : ZodType -> Json -> SafeParseReturnType.

(** One definition keeps the keys of the reference tables distinct and
    adds a raw component to the end of the list. *)
Lemma generateSingle_tables this definition this' :
  generateSingle safeParse this definition = Ok this' ->
  (NoDup (keys (schemaRefs this)) -> NoDup (keys (schemaRefs this')))
  /\ (NoDup (keys (paramRefs this)) -> NoDup (keys (paramRefs this')))
  /\ rawComponents this'
     = (rawComponents this ++ raw_components_of [definition])%list.
Proof.
  destruct definition as [t n c|schema|schema|route]; simpl.
  - intros [= <-]. simpl. done.
  - unfold generateSchemaDefinition. intros H.
    apply bind_Ok in H as (simple & _ & H).
    destruct (truthy_refId (getMetadata schema)); injection H as <-; simpl.
    + split; [apply obj_set_NoDup|]. by rewrite app_nil_r.
    + by rewrite app_nil_r.
  - unfold generateParameterDefinition. intros H.
    apply bind_Ok in H as (result & _ & H).
    destruct (truthy_refId (getMetadata schema)); injection H as <-; simpl.
    + split; [done|]. split; [apply obj_set_NoDup|]. by rewrite app_nil_r.
    + by rewrite app_nil_r.
  - unfold generateSingleRoute. intros H.
    apply bind_Ok in H as (? & _ & H).
    apply bind_Ok in H as (? & _ & H).
    apply bind_Ok in H as (? & _ & H).
    injection H as <-. simpl. by rewrite app_nil_r.
Qed.

Lemma forEach_generateSingle_tables definitions this this' :
  forEach_generateSingle safeParse this definitions = Ok this' ->
  (NoDup (keys (schemaRefs this)) -> NoDup (keys (schemaRefs this')))
  /\ (NoDup (keys (paramRefs this)) -> NoDup (keys (paramRefs this')))
  /\ rawComponents this'
     = (rawComponents this ++ raw_components_of definitions)%list.
Proof.
  revert this. induction definitions as [|d definitions IH]; intros this; simpl.
  - intros [= <-]. by rewrite app_nil_r.
  - intros H. apply bind_Ok in H as (this1 & H1 & H).
    apply generateSingle_tables in H1 as (Hs1 & Hp1 & Hr1).
    apply IH in H as (Hs & Hp & Hr).
    split; [auto|]. split; [auto|].
    rewrite Hr, Hr1, <- app_assoc. f_equal. by destruct d.
Qed.

(** C5 (amended). In the generated document, under [components.schemas]
    and [components.parameters] a name for which a schema or parameter
    reference was generated holds the generated entry, whether a raw
    component of that kind and name was registered before or after it;
    every other name of these kinds, and every name of another kind,
    holds the raw component registered last for it. *)
Theorem C5_generated_entry_wins definitions config document :
  generateDocument safeParse definitions config = Ok document ->
  exists this,
    forEach_generateSingle safeParse new_generator (sortDefinitions definitions)
    = Ok this
    /\ rawComponents this = raw_components_of definitions
    /\ forall kind name,
        doc_component document kind name =
        let raw := default JUndefined
                     (last_raw kind name (raw_components_of definitions)) in
        if str_eqb kind "schemas"
        then default raw (obj_get name (schemaRefs this))
        else if str_eqb kind "parameters"
             then default raw (obj_get name (paramRefs this))
             else raw.
Proof.
  unfold generateDocument. intros H.
  apply bind_Ok in H as (this & Hthis & H). injection H as <-.
  exists this. split; [done|].
  destruct (forEach_generateSingle_tables _ _ _ Hthis) as (Hs & Hp & Hr).
  simpl in Hr. rewrite sortDefinitions_raw in Hr.
  split; [done|]. intros kind name.
  unfold doc_component.
  assert (Hc : get_field "components"
                 (JObj (obj_set "paths" (JObj (pathRefs this))
                          (obj_set "components" (JObj (buildComponents this))
                             config)))
               = JObj (buildComponents this)).
  { simpl. rewrite obj_get_set_ne; [|done]. by rewrite obj_get_set_eq. }
  rewrite Hc, buildComponents_get, Hr; [done|..].
  - apply Hs. constructor.
  - apply Hp. constructor.
Qed.

(** *** Parameter references *)

Lemma location_str_inj l1 l2 : location_str l1 = location_str l2 -> l1 = l2.
Proof. by destruct l1, l2. Qed.

Lemma location_str_truthy l : truthy (JStr (location_str l)) = true.
Proof. by destruct l. Qed.

Lemma strict_neq_str a b : strict_neq (JStr a) (JStr b) = true <-> a <> b.
Proof.
  simpl. rewrite negb_true_iff. apply str_eqb_false.
Qed.

Lemma in_compact x xs : In x xs -> truthy x = true -> In x (compact xs).
Proof.
  intros Hin Ht. unfold compact. apply list_elem_of_In, list_elem_of_filter.
  split; [done|]. by apply list_elem_of_In.
Qed.

(** A reference registered at one location and used at another. *)
Lemma getParameterRef_location_conflict this metadata r existing l0 location key :
  truthy_refId metadata = Some r ->
  obj_get r (paramRefs this) = Some (JObj existing) ->
  obj_get "in" existing = Some (JStr (location_str l0)) ->
  l0 <> location ->
  exists message values,
    getParameterRef this metadata {| pd_in := Some location; pd_name := Some key |}
    = Throw (ConflictError message "in" values)
    /\ In (JStr (location_str l0)) values
    /\ In (JStr (location_str location)) values.
Proof.
  intros Hr Hex Hin Hne. unfold getParameterRef. rewrite Hr, Hex. simpl.
  rewrite Hin. simpl.
  assert (Hc : negb (str_eqb (location_str location) "")
               && negb (str_eqb (location_str l0) (location_str location))
               = true).
  { apply andb_true_iff. split; [by destruct location|].
    apply negb_true_iff, str_eqb_false. intros H.
    by apply location_str_inj in H. }
  rewrite Hc, orb_true_r.
  eexists _, _. split; [reflexivity|]. split.
  - apply in_compact; [by left|apply location_str_truthy].
  - apply in_compact; [right; by left|apply location_str_truthy].
Qed.

(** A reference registered under one name and used, at its own location,
    under another. *)
Lemma getParameterRef_name_conflict this metadata r existing location n0 key :
  truthy_refId metadata = Some r ->
  obj_get r (paramRefs this) = Some (JObj existing) ->
  obj_get "in" existing = Some (JStr (location_str location)) ->
  obj_get "name" existing = Some (JStr n0) ->
  (forall pm, param metadata = Some pm -> pm_in pm = Some location) ->
  n0 <> "" -> key <> "" -> n0 <> key ->
  exists values,
    getParameterRef this metadata {| pd_in := Some location; pd_name := Some key |}
    = Throw (ConflictError "Conflicting names for parameter" "name" values)
    /\ In (JStr n0) values
    /\ In (JStr key) values.
Proof.
  intros Hr Hex Hin Hname Hpm Hn0 Hkey Hne.
  assert (Hk : negb (str_eqb key "") = true)
    by by apply negb_true_iff, str_eqb_false.
  assert (Hc : negb (str_eqb n0 key) = true)
    by by apply negb_true_iff, str_eqb_false.
  assert (Ht : negb (str_eqb n0 "") = true)
    by by apply negb_true_iff, str_eqb_false.
  unfold getParameterRef. rewrite Hr, Hex.
  destruct (param metadata) as [pm|] eqn:P.
  - rewrite (Hpm pm eq_refl). simpl. rewrite Hin, Hname. simpl.
    rewrite str_eqb_refl. simpl. rewrite Hk, Hc. simpl.
    rewrite orb_true_r, andb_false_r.
    eexists. split; [reflexivity|]. split.
    + apply in_compact; [by left|exact Ht].
    + apply in_compact; [right; by left|exact Hk].
  - simpl. rewrite Hin, Hname. simpl.
    rewrite str_eqb_refl. simpl. rewrite Hk, Hc. simpl.
    rewrite andb_false_r.
    eexists. split; [reflexivity|]. split.
    + apply in_compact; [by left|exact Ht].
    + apply in_compact; [right; by left|exact Hk].
Qed.

Lemma omitBy_get_str k (o : JsObject) s :
  NoDup (keys o) -> obj_get k o = Some (JStr s) ->
  obj_get k (omitBy o isNil) = Some (JStr s).
Proof.
  intros Hnd Hget. unfold omitBy. rewrite obj_get_filter; [|done].
  rewrite Hget. by rewrite decide_True.
Qed.

Lemma obj_spread_app a b1 b2 :
  obj_spread a (b1 ++ b2) = obj_spread (obj_spread a b1) b2.
Proof. unfold obj_spread. apply fold_left_app. Qed.

Lemma param_object_in_name pm :
  NoDup (keys (param_object pm))
  /\ (forall l, pm_in pm = Some l ->
      obj_get "in" (param_object pm) = Some (JStr (location_str l)))
  /\ (forall n, pm_name pm = Some n ->
      obj_get "name" (param_object pm) = Some (JStr n)).
Proof.
  unfold param_object, fromEntries.
  split; [apply obj_spread_NoDup; constructor|].
  rewrite obj_spread_app.
  set (base := obj_spread [] (pm_rest pm)).
  split.
  - intros l ->. destruct (pm_name pm); unfold obj_spread; simpl.
    + rewrite obj_get_set_ne; [|done]. apply obj_get_set_eq.
    + apply obj_get_set_eq.
  - intros n ->. destruct (pm_in pm); unfold obj_spread; simpl;
      apply obj_get_set_eq.
Qed.

(** What the registration of a parameter leaves in [paramRefs]. *)
Lemma registered_parameter this schema this' r :
  generateParameterDefinition safeParse this schema = Ok this' ->
  truthy_refId (getMetadata schema) = Some r ->
  exists pm l0 n0 existing,
    param (getMetadata schema) = Some pm
    /\ pm_in pm = Some l0 /\ pm_name pm = Some n0 /\ n0 <> ""
    /\ schemaRefs this' = schemaRefs this
    /\ obj_get r (paramRefs this') = Some (JObj existing)
    /\ obj_get "in" existing = Some (JStr (location_str l0))
    /\ obj_get "name" existing = Some (JStr n0).
Proof.
  unfold generateParameterDefinition, generateParameter. intros H Hr.
  rewrite Hr in H.
  destruct (param (getMetadata schema)) as [pm|] eqn:P; [|done]. simpl in H.
  destruct (pm_name pm) as [n0|] eqn:N; [|done]. simpl in H.
  destruct (truthy_str n0) eqn:Tn; [|done]. simpl in H.
  destruct (pm_in pm) as [l0|] eqn:L; [|done]. simpl in H.
  apply bind_Ok in H as (result & H & Hthis).
  apply bind_Ok in H as (simple & _ & H). injection H as <-.
  injection Hthis as <-. simpl.
  exists pm, l0, n0. eexists. split; [done|]. split; [done|]. split; [done|].
  split.
  { intros ->. done. }
  split; [done|]. split; [apply obj_get_set_eq|].
  destruct (param_object_in_name pm) as (Hnd & Hin & Hname).
  assert (Hnd' : NoDup (keys (buildParameterMetadata pm))).
  { unfold buildParameterMetadata, omitBy. by apply filter_keys_NoDup. }
  split.
  - rewrite obj_get_spread; [|done].
    unfold buildParameterMetadata. by rewrite (omitBy_get_str _ _ _ Hnd (Hin _ L)).
  - rewrite obj_get_spread; [|done].
    unfold buildParameterMetadata. by rewrite (omitBy_get_str _ _ _ Hnd (Hname _ N)).
Qed.

Lemma mapM_app {A B : Type} (f : A -> Result B) l1 l2 :
  mapM f (l1 ++ l2) =
  (ys1 <- mapM f l1 ;; ys2 <- mapM f l2 ;; Ok (ys1 ++ ys2)%list).
Proof.
  induction l1 as [|x l1 IH]; simpl.
  - by destruct (mapM f l2).
  - destruct (f x); simpl; [|done]. rewrite IH.
    destruct (mapM f l1); simpl; [|done]. by destruct (mapM f l2).
Qed.

(** The first exception of [getParameterRef] ends the conversion of a
    section of a route. *)
Lemma generateInlineParameters_throw this before key schema after location
    converted e :
  generateInlineParameters safeParse this before location = Ok converted ->
  getParameterRef this (getMetadata schema)
    {| pd_in := Some location; pd_name := Some key |} = Throw e ->
  generateInlineParameters safeParse this (before ++ (key, schema) :: after)
    location = Throw e.
Proof.
  unfold generateInlineParameters. intros Hb He.
  rewrite mapM_app, Hb. simpl. by rewrite He.
Qed.

(** *** The bound on the call depth suffices *)

Lemma bind_fuel {A B : Type} (c : Result A) (k : A -> Result B) :
  c <> Throw OutOfFuel ->
  (forall a, c = Ok a -> k a <> Throw OutOfFuel) ->
  bind c k <> Throw OutOfFuel.
Proof.
  intros Hc Hk. destruct c as [a|e]; simpl; [by apply Hk|].
  intros [= ->]. done.
Qed.

Lemma mapM_fuel {A B : Type} (f : A -> Result B) (l : list A) :
  (forall x, In x l -> f x <> Throw OutOfFuel) ->
  mapM f l <> Throw OutOfFuel.
Proof.
  induction l as [|x l IH]; intros H; simpl; [done|].
  apply bind_fuel; [apply H; by left|]. intros y _.
  apply bind_fuel; [apply IH; intros; apply H; by right|]. done.
Qed.

Lemma mapValuesM_fuel {A B : Type} (f : A -> Result B) (o : list (string * A)) :
  (forall kv, In kv o -> f kv.2 <> Throw OutOfFuel) ->
  mapValuesM o f <> Throw OutOfFuel.
Proof.
  intros H. unfold mapValuesM. apply mapM_fuel. intros kv Hin.
  apply bind_fuel; [by apply H|]. done.
Qed.

Lemma height_pos z : (1 <= height z)%nat.
Proof. destruct z; simpl; lia. Qed.

Lemma height_shape d shape u kv :
  In kv shape -> (height kv.2 < height (ZodObject d shape u))%nat.
Proof.
  simpl. induction shape as [|kv' shape IH]; simpl; [done|].
  intros [->|Hin]; [lia|]. specialize (IH Hin). lia.
Qed.

Lemma height_union d options o :
  In o options -> (height o < height (ZodUnion d options))%nat.
Proof.
  simpl. induction options as [|o' options IH]; simpl; [done|].
  intros [->|Hin]; [lia|]. specialize (IH Hin). lia.
Qed.

Lemma height_discriminated d k options o :
  In o options -> (height o < height (ZodDiscriminatedUnion d k options))%nat.
Proof.
  simpl. induction options as [|o' options IH]; simpl; [done|].
  intros [->|Hin]; [lia|]. specialize (IH Hin). lia.
Qed.

Lemma height_unwrapChained z : (height (unwrapChained z) <= height z)%nat.
Proof.
  induction z; simpl; try lia.
  destruct effect; simpl; lia.
Qed.

Lemma flattenUnionTypes_height n z x :
  (height z <= n)%nat -> In x (flattenUnionTypes z) ->
  (height x <= height z)%nat
  /\ (forall d options, z = ZodUnion d options -> (height x < height z)%nat).
Proof.
  revert z x. induction n as [|n IH]; intros z x Hn Hin.
  { pose proof (height_pos z). lia. }
  destruct z; try (destruct Hin as [<-|[]]; split; [lia|by intros]).
  assert (Hx : exists o, In o options /\ In x (flattenUnionTypes o)).
  { simpl in Hin. clear -Hin.
    induction options as [|o options IHo]; [done|].
    apply in_app_or in Hin as [Hin|Hin].
    - exists o. split; [by left|done].
    - destruct (IHo Hin) as (o' & ? & ?). exists o'. split; [by right|done]. }
  destruct Hx as (o & Ho & Hxo).
  pose proof (height_union d options o Ho) as Hlt.
  destruct (IH o x) as [Hle _]; [lia|done|].
  split; [lia|]. intros. lia.
Qed.

Lemma flattenIntersectionTypes_height z x :
  In x (flattenIntersectionTypes z) ->
  (height x <= height z)%nat
  /\ (forall d l r, z = ZodIntersection d l r -> (height x < height z)%nat).
Proof.
  revert x. induction z; intros x Hin;
    try (destruct Hin as [<-|[]]; split; [lia|by intros]).
  simpl in Hin. apply in_app_or in Hin as [Hin|Hin].
  - destruct (IHz1 x Hin) as [H _]. simpl. split; [lia|]. intros. lia.
  - destruct (IHz2 x Hin) as [H _]. simpl. split; [lia|]. intros. lia.
Qed.

(** Converting a schema within four calls for every level of nesting, and
    two more, never exhausts the bound on the call depth. *)
Lemma generateSimpleSchema_fuel n :
  forall zodSchema this fuel,
    (height zodSchema <= n)%nat -> (4 * n + 2 <= fuel)%nat ->
    generateSimpleSchema safeParse fuel this zodSchema <> Throw OutOfFuel.
Proof.
  induction n as [|n IH]; intros z this fuel Hn Hf.
  { pose proof (height_pos z). lia. }
  assert (Inner : forall z' fuel',
             (height z' <= n)%nat -> (4 * n + 3 <= fuel')%nat ->
             generateInnerSchema safeParse fuel' this z' None <> Throw OutOfFuel).
  { intros z' [|f] Hz' Hf'; [lia|]. cbn [generateInnerSchema].
    apply bind_fuel; [apply IH; [done|lia]|]. intros a _.
    by destruct (truthy _). }
  assert (Object : forall d shape u isN fuel',
             (height (ZodObject d shape u) <= S n)%nat -> (4 * n + 4 <= fuel')%nat ->
             toOpenapiObjectSchema safeParse fuel' this (ZodObject d shape u) isN
             <> Throw OutOfFuel).
  { intros d shape u isN [|f] Hz' Hf'; [lia|]. cbn [toOpenapiObjectSchema].
    apply bind_fuel.
    { apply mapValuesM_fuel. intros kv Hin.
      apply bind_fuel; [|done]. apply Inner; [|lia].
      pose proof (height_shape d shape u kv Hin). lia. }
    intros props _. apply bind_fuel.
    { destruct (match openapi d ≫= Zod.extendedFrom with
                | Some e => _ | None => None end); [|done].
      destruct (obj_get _ _); [|done]. by destruct (negb _). }
    intros [a b] _.
    by destruct (match openapi d ≫= Zod.extendedFrom with
                 | Some e => _ | None => None end). }
  assert (Schema : forall z' isN fuel',
             (height z' <= S n)%nat -> (4 * n + 5 <= fuel')%nat ->
             toOpenapiSchema safeParse fuel' this z' isN <> Throw OutOfFuel).
  { intros z' isN [|f] Hz' Hf'; [lia|]. cbn [toOpenapiSchema].
    destruct z'; try done.
    - apply Inner; [simpl in Hz'; lia|lia].
    - destruct effect; try done; (apply Inner; [simpl in Hz'; lia|lia]).
    - apply Object; [done|lia].
    - apply bind_fuel; [|done]. apply Inner; [simpl in Hz'; lia|lia].
    - apply bind_fuel; [|done]. apply mapM_fuel. intros x Hin.
      apply Inner; [|lia].
      destruct (flattenUnionTypes_height (S n) _ x Hz' Hin) as [_ H].
      specialize (H _ _ eq_refl). lia.
    - apply bind_fuel; [|done]. apply mapM_fuel. intros x Hin.
      apply Inner; [|lia].
      pose proof (height_discriminated d discriminator options x Hin). lia.
    - apply bind_fuel; [|done]. apply mapM_fuel. intros x Hin.
      apply Inner; [|lia].
      destruct (flattenIntersectionTypes_height _ x Hin) as [_ H].
      specialize (H _ _ _ eq_refl). lia.
    - apply bind_fuel; [|done]. apply Inner; [simpl in Hz'; lia|lia]. }
  destruct fuel as [|f]; [lia|]. cbn [generateSimpleSchema].
  destruct (_ ≫= _) as [[r x]|].
  { by destruct (0 <? _)%nat. }
  pose proof (height_unwrapChained z) as Hu.
  apply bind_fuel.
  - destruct (_ ≫= _) as [t|]; [destruct (truthy t); [done|]|];
      (apply Schema; [lia|lia]).
  - intros result _. by destruct (match openapi (_def z) with
                                  | Some m => _ | None => _ end).
Qed.

Lemma generateSimpleSchema_stack_bound this zodSchema :
  generateSimpleSchema safeParse (stack_bound zodSchema) this zodSchema
  <> Throw OutOfFuel.
Proof.
  apply (generateSimpleSchema_fuel (height zodSchema)); [done|].
  unfold stack_bound. lia.
Qed.

Ltac fuel_step :=
  match goal with
  | |- Ok _ <> _ => discriminate
  | |- Throw _ <> Throw OutOfFuel => discriminate
  | |- generateSimpleSchema _ (stack_bound _) _ _ <> _ =>
      apply generateSimpleSchema_stack_bound
  | |- bind _ _ <> Throw OutOfFuel => apply bind_fuel; [|intros ? _]
  | |- mapM _ _ <> _ => apply mapM_fuel; intros ? _
  | |- mapValuesM _ _ <> _ => apply mapValuesM_fuel; intros ? _
  | |- (let (_, _) := ?x in _) <> _ => destruct x
  | |- (match ?x with _ => _ end) <> _ => destruct x
  | |- (if ?x then _ else _) <> _ => destruct x
  end.

Lemma generateParameter_fuel this zodSchema :
  generateParameter safeParse this zodSchema <> Throw OutOfFuel.
Proof. unfold generateParameter. repeat fuel_step. Qed.

Lemma generateInlineParameters_fuel this params location :
  generateInlineParameters safeParse this params location <> Throw OutOfFuel.
Proof.
  unfold generateInlineParameters. apply mapM_fuel. intros [key schema] _.
  apply bind_fuel.
  { unfold getParameterRef. repeat fuel_step. }
  intros [ref|] _; [done|].
  apply bind_fuel; [repeat fuel_step|]. intros _ _.
  apply bind_fuel; [repeat fuel_step|]. intros _ _.
  apply bind_fuel; [apply generateParameter_fuel|]. done.
Qed.

Lemma getBodyContent_fuel this content :
  getBodyContent safeParse this content <> Throw OutOfFuel.
Proof. unfold getBodyContent. repeat fuel_step. Qed.

Lemma getResponse_fuel this response :
  getResponse safeParse this response <> Throw OutOfFuel.
Proof.
  unfold getResponse. apply bind_fuel.
  { destruct (rc_content response); [|done].
    apply bind_fuel; [apply getBodyContent_fuel|done]. }
  intros ? _. apply bind_fuel; [|done].
  destruct (rc_headers response); [|done].
  apply bind_fuel; [|done]. unfold getResponseHeaders.
  apply mapValuesM_fuel. intros kv _.
  destruct (rh_schema kv.2) as [z|]; [|done].
  apply bind_fuel; [|done]. cbn [generateInnerSchema].
  apply bind_fuel; [apply generateSimpleSchema_stack_bound|].
  intros ? _. by destruct (truthy _).
Qed.

Lemma generateSingle_fuel this definition :
  generateSingle safeParse this definition <> Throw OutOfFuel.
Proof.
  destruct definition as [t n c|schema|schema|route]; simpl.
  - done.
  - unfold generateSchemaDefinition. repeat fuel_step.
  - unfold generateParameterDefinition.
    apply bind_fuel; [apply generateParameter_fuel|]. intros ? _.
    by destruct (truthy_refId _).
  - unfold generateSingleRoute.
    apply bind_fuel.
    { apply mapValuesM_fuel. intros kv _.
      apply bind_fuel; [apply getResponse_fuel|done]. }
    intros ? _. apply bind_fuel.
    { unfold getParameters. destruct (zr_request route) as [request|]; [|done].
      apply bind_fuel.
      { destruct (Registry.query request);
          [apply generateInlineParameters_fuel|done]. }
      intros ? _. apply bind_fuel.
      { destruct (Registry.params request);
          [apply generateInlineParameters_fuel|done]. }
      intros ? _. apply bind_fuel; [|done].
      destruct (Registry.headers request);
        [apply generateInlineParameters_fuel|done]. }
    intros ? _. apply bind_fuel; [|done].
    unfold getRequestBody. destruct (zr_request route ≫= body); [|done].
    apply bind_fuel; [apply getBodyContent_fuel|done].
Qed.

(** The generation of a document ends with the document or with one of
    the exceptions of the generator, never on the bound of the model. *)
Lemma generateDocument_fuel definitions config :
  generateDocument safeParse definitions config <> Throw OutOfFuel.
Proof.
  unfold generateDocument. apply bind_fuel; [|done].
  generalize new_generator.
  induction (sortDefinitions definitions) as [|d l IH]; intros this; simpl.
  - done.
  - apply bind_fuel; [apply generateSingle_fuel|]. intros this' _. apply IH.
Qed.

(** *** Objects that extend a registered schema *)



End GenerateFacts.

End GeneratorFacts.

(** ** The generator on the example definitions *)

Module GeneratorExamples.
Import Js Zod Registry Spec Sample Generator GeneratorFacts.

(** The repository's test "Generate OpenAPI docs": the model generates
    the document the test expects. *)
Lemma generate_openapi_docs_test :
  generateDocument sampleParse testDefinitions docConfig =
  Ok (JObj [("openapi", JStr "3.0.0"); ("info", JObj [("title", JStr "Test");
    ("version", JStr "1.0.0")]); ("components", JObj [("schemas", JObj
    [("Sword", JObj [("type", JStr "object"); ("properties", JObj [("type",
    JObj [("type", JStr "string"); ("enum", JArr [JStr "sword"])]); ("sword",
    JObj [("type", JStr "object"); ("properties", JObj [("sharpness", JObj
    [("type", JStr "number"); ("minimum", JNum 1); ("maximum", JNum 10)])]);
    ("required", JArr [JStr "sharpness"])])]); ("required", JArr [JStr "type";
    JStr "sword"])]); ("User", JObj [("type", JStr "object"); ("properties",
    JObj [("id", JObj [("type", JStr "integer"); ("minimum", JNum 1);
    ("maximum", JNum 9999); ("example", JNum 1212121)]); ("name", JObj
    [("type", JStr "string"); ("example", JStr "John Doe")]); ("age", JObj
    [("type", JStr "number"); ("minimum", JNum 1); ("maximum", JNum 200);
    ("example", JNum 42)]); ("gender", JObj [("type", JStr "string"); ("enum",
    JArr [JStr "male"; JStr "female"; JStr "unknown"])]); ("weapon", JObj
    [("oneOf", JArr [JObj [("$ref", JStr "#/components/schemas/Sword")]; JObj
    [("type", JStr "object"); ("properties", JObj [("type", JObj [("type",
    JStr "string"); ("enum", JArr [JStr "bow"])]); ("bow", JObj [("type", JStr
    "object"); ("properties", JObj [("range", JObj [("type", JStr
    "number")])]); ("required", JArr [JStr "range"])])]); ("required", JArr
    [JStr "type"; JStr "bow"])]]); ("discriminator", JObj [("propertyName",
    JStr "type")])])]); ("required", JArr [JStr "id"; JStr "name"; JStr "age";
    JStr "gender"; JStr "weapon"])]); ("NotFoundError", JObj [("type", JStr
    "object"); ("properties", JObj [("error", JObj [("type", JStr
    "boolean")]); ("message", JObj [("type", JStr "string")])]); ("required",
    JArr [JStr "error"; JStr "message"])]); ("DateTime", JObj [("type", JStr
    "string"); ("format", JStr "date-time")])]); ("parameters", JObj [])]);
    ("paths", JObj [("/users/{id}", JObj [("post", JObj [("summary", JStr
    "Update a single user"); ("parameters", JArr [JObj [("in", JStr "path");
    ("name", JStr "id"); ("schema", JObj [("type", JStr "integer");
    ("minimum", JNum 0)]); ("required", JBool true); ("description", JStr
    "The user ID, must be a positive integer")]; JObj [("in", JStr "query");
    ("name", JStr "dryRun"); ("schema", JObj [("type", JStr "boolean")]);
    ("required", JBool true)]; JObj [("in", JStr "header"); ("name", JStr
    "x-some-uuid"); ("schema", JObj [("type", JStr "string"); ("format", JStr
    "uuid")]); ("required", JBool true); ("description", JStr "Some UUID")];
    JObj [("in", JStr "header"); ("name", JStr "x-some-date"); ("schema", JObj
    [("$ref", JStr "#/components/schemas/DateTime")]); ("required", JBool
    true)]]); ("requestBody", JObj [("content", JObj [("application/json",
    JObj [("schema", JObj [("$ref", JStr "#/components/schemas/User")])])])]);
    ("responses", JObj [("200", JObj [("description", JStr
    "Object with user data."); ("content", JObj [("application/json", JObj
    [("schema", JObj [("$ref", JStr "#/components/schemas/User")])])]);
    ("headers", JObj [("X-RateLimit-Limit", JObj [("schema", JObj [("type",
    JStr "integer"); ("minimum", JNum 0)]); ("description", JStr
    "Request limit per hour.")]); ("X-RateLimit-Remaining", JObj [("schema",
    JObj [("type", JStr "integer"); ("minimum", JNum 0)]); ("description",
    JStr "The number of requests left for the time window.")]);
    ("X-RateLimit-Reset", JObj [("schema", JObj [("$ref", JStr
    "#/components/schemas/DateTime")]); ("description", JStr
    "The UTC date/time at which the current rate limit window resets.")])])]);
    ("201", JObj [("description", JStr "Object with user data."); ("content",
    JObj [("application/json", JObj [("schema", JObj [("$ref", JStr
    "#/components/schemas/User")])])])]); ("400", JObj [("description", JStr
    "Access denied"); ("content", JObj [("text/plain", JObj [("schema", JObj
    [("type", JStr "string"); ("enum", JArr [JStr "Access denied"])])])])]);
    ("404", JObj [("description", JStr "The user is not found"); ("content",
    JObj [("application/json", JObj [("schema", JObj [("$ref", JStr
    "#/components/schemas/NotFoundError")])])])])])])])])]).
Proof. vm_compute; reflexivity. Qed.


(** The document generated for [Parent] and [Child]: [a] and [b] do not
    reappear in the child. *)
Lemma inheritance_example :
  childRegistration.2
  = ZodObject (_def childRegistration.2)
      [("a", z_string); ("b", z_number); ("c", z_boolean)] strip
  /\ generateDocument sampleParse childRegistration.1 docConfig
     = Ok (JObj
             [("openapi", JStr "3.0.0");
              ("info", JObj [("title", JStr "Test"); ("version", JStr "1.0.0")]);
              ("components",
               JObj
                 [("schemas",
                   JObj
                     [("Parent",
                       JObj [("type", JStr "object");
                             ("properties",
                              JObj [("a", JObj [("type", JStr "string")]);
                                    ("b", JObj [("type", JStr "number")])]);
                             ("required", JArr [JStr "a"; JStr "b"])]);
                      ("Child",
                       JObj [("allOf",
                              JArr [JObj [("$ref",
                                           JStr "#/components/schemas/Parent")];
                                    JObj [("type", JStr "object");
                                          ("properties",
                                           JObj [("c", JObj [("type",
                                                              JStr "boolean")])]);
                                          ("required", JArr [JStr "c"])]])])]);
                  ("parameters", JObj [])]);
              ("paths", JObj [])]).
Proof. split; vm_compute; reflexivity. Qed.

(** The schema [Foo] and, registered after it, a raw component
    [schemas/Foo]: the theorem on the generated document. *)
Lemma C5_witness :
  exists this,
    forEach_generateSingle sampleParse new_generator
      (sortDefinitions rawAfterGenerated) = Ok this
    /\ rawComponents this = raw_components_of rawAfterGenerated
    /\ forall kind name,
        doc_component fooDocument kind name =
        let raw := default JUndefined
                     (last_raw kind name (raw_components_of rawAfterGenerated)) in
        if str_eqb kind "schemas"
        then default raw (obj_get name (schemaRefs this))
        else if str_eqb kind "parameters"
             then default raw (obj_get name (paramRefs this))
             else raw.
Proof.
  apply (C5_generated_entry_wins sampleParse rawAfterGenerated docConfig fooDocument).
  vm_compute; reflexivity.
Defined.

(** C5 as stated fails: the raw component [schemas/Foo] is registered
    after the schema [Foo], and the document holds the generated entry,
    not the raw component. *)
Lemma C5_counterexample :
  rawAfterGenerated
  = [DSchema fooRegistration.2; DComponent "schemas" "Foo" rawFoo]
  /\ generateDocument sampleParse rawAfterGenerated docConfig = Ok fooDocument
  /\ doc_component fooDocument "schemas" "Foo" = JObj [("type", JStr "string")]
  /\ doc_component fooDocument "schemas" "Foo" <> rawFoo.
Proof.
  split; [reflexivity|]. split; [vm_compute; reflexivity|].
  split; [vm_compute; reflexivity|].
  vm_compute. discriminate.
Qed.

(** The exceptions themselves, for the two orders of registration and for
    a reference under another key. *)
Lemma parameter_conflict_examples :
  generateDocument sampleParse (registerPath myParam.1 queryRoute) docConfig
  = Throw (ConflictError "Conflicting location for parameter myParam" "in"
             [JStr "header"; JStr "query"; JStr "header"])
  /\ generateDocument sampleParse (DRoute queryRoute :: myParam.1) docConfig
     = Throw (ConflictError "Conflicting location for parameter myParam" "in"
                [JStr "header"; JStr "query"; JStr "header"])
  /\ generateDocument sampleParse (registerPath myParam.1 (headerRoute "other"))
       docConfig
     = Throw (ConflictError "Conflicting names for parameter" "name"
                [JStr "myParam"; JStr "other"; JStr "myParam"])
  /\ exists document,
      generateDocument sampleParse (registerPath myParam.1 (headerRoute "myParam"))
        docConfig
      = Ok document
      /\ get_field "parameters"
           (get_field "get" (get_field "/x" (get_field "paths" document)))
         = JArr [JObj [("$ref", JStr "#/components/parameters/myParam")]].
Proof.
  split; [vm_compute; reflexivity|]. split; [vm_compute; reflexivity|].
  split; [vm_compute; reflexivity|].
  eexists. split; vm_compute; reflexivity.
Qed.

End GeneratorExamples.

(** ** The order of generation, as a grouping *)

Module GeneratorOrderFacts.
Import Js Zod Registry Generator Spec JsFacts GeneratorFacts.

Lemma sort_insert_skip {A : Type} (cmp : A -> A -> Z) x l1 l2 :
  Forall (fun y => 0 < cmp x y) l1 ->
  sort_insert cmp x (l1 ++ l2) = (l1 ++ sort_insert cmp x l2)%list.
Proof.
  induction 1 as [|y l1 Hy _ IH]; simpl; [done|].
  destruct (cmp x y <=? 0) eqn:E; [lia|]. by rewrite IH.
Qed.

Lemma sort_insert_front {A : Type} (cmp : A -> A -> Z) x l :
  Forall (fun y => cmp x y <= 0) l -> sort_insert cmp x l = x :: l.
Proof.
  destruct 1 as [|y l Hy _]; simpl; [done|].
  destruct (cmp x y <=? 0) eqn:E; [done|lia].
Qed.

Lemma Forall_filter_type (P : OpenapiDefinitions -> Prop) t ds :
  (forall d, def_type d = t -> P d) ->
  Forall P (filter (fun d => def_type d = t) ds).
Proof.
  intros H. apply Forall_forall. intros d Hd.
  apply list_elem_of_filter in Hd as [Hd _]. by apply H.
Qed.

Lemma sortDefinitions_by_type definitions :
  sortDefinitions definitions =
  (filter (fun d => def_type d = "component") definitions
   ++ filter (fun d => def_type d = "schema") definitions
   ++ filter (fun d => def_type d = "parameter") definitions
   ++ filter (fun d => def_type d = "route") definitions)%list.
Proof.
  unfold sortDefinitions.
  induction definitions as [|x ds IH]; simpl; [done|].
  rewrite IH. clear IH. rewrite !filter_cons.
  destruct x as [t n c|s|s|r]; simpl.
  - rewrite sort_insert_front; [done|].
    apply Forall_forall. intros d _. by destruct d.
  - rewrite sort_insert_skip.
    2:{ apply Forall_filter_type. by intros [] Hd. }
    rewrite sort_insert_front; [done|].
    rewrite !Forall_app. repeat split; apply Forall_filter_type; by intros [] Hd.
  - rewrite sort_insert_skip.
    2:{ apply Forall_filter_type. by intros [] Hd. }
    rewrite sort_insert_skip.
    2:{ apply Forall_filter_type. by intros [] Hd. }
    rewrite sort_insert_front; [done|].
    rewrite !Forall_app. repeat split; apply Forall_filter_type; by intros [] Hd.
  - rewrite sort_insert_skip.
    2:{ apply Forall_filter_type. by intros [] Hd. }
    rewrite sort_insert_skip.
    2:{ apply Forall_filter_type. by intros [] Hd. }
    rewrite sort_insert_skip.
    2:{ apply Forall_filter_type. by intros [] Hd. }
    rewrite sort_insert_front; [done|].
    apply Forall_filter_type; by intros [] Hd.
Qed.

(** X1. Sorting the definitions for generation is a stable grouping by
    type: the raw components come first, then the schemas, then the
    parameters, then the routes, and each group keeps its registration
    order. *)
Theorem sortDefinitions_groups definitions :
  sortDefinitions definitions =
  (filter (fun d => def_type d = "component") definitions
   ++ filter (fun d => def_type d = "schema") definitions
   ++ filter (fun d => def_type d = "parameter") definitions
   ++ filter (fun d => def_type d = "route") definitions)%list.
Proof. apply sortDefinitions_by_type. Qed.

End GeneratorOrderFacts.

(** ** What a generated document contains *)

Module DocumentFacts.
Import Js Zod Registry Generator Spec JsFacts GeneratorFacts.

Lemma In_sortDefinitions d definitions :
  In d definitions -> In d (sortDefinitions definitions).
Proof.
  unfold sortDefinitions.
  assert (Hins : forall (x y : OpenapiDefinitions) l,
             In y (sort_insert by_generationOrder x l) <-> y = x \/ In y l).
  { intros x y l. induction l as [|z l IH]; simpl; [intuition congruence|].
    destruct (by_generationOrder x z <=? 0); simpl; [intuition congruence|].
    rewrite IH. intuition congruence. }
  induction definitions as [|x ds IH]; simpl; [done|].
  intros [->|H]; apply Hins; [by left|right; by apply IH].
Qed.

Section WithValidator.

Variable safeParse : ZodType -> Json -> SafeParseReturnType.

Lemma forEach_generateSingle_invariant (P : OpenapiGenerator -> Prop)
    d definitions this this' :
  In d definitions ->
  (forall t t', generateSingle safeParse t d = Ok t' -> P t') ->
  (forall t t' d', generateSingle safeParse t d' = Ok t' -> P t -> P t') ->
  forEach_generateSingle safeParse this definitions = Ok this' -> P this'.
Proof.
  intros Hin Hadd Hkeep. revert this Hin.
  induction definitions as [|d0 ds IH]; intros this Hin; [done|]. simpl.
  intros H. apply bind_Ok in H as (this1 & H1 & H).
  destruct Hin as [->|Hin]; [|by apply (IH this1)].
  clear IH. apply Hadd in H1. revert this1 H1 H.
  induction ds as [|d1 ds IH]; intros this1 H1; simpl; [by intros [= <-]|].
  intros H. apply bind_Ok in H as (this2 & H2 & H).
  apply (IH this2); [|done]. by apply (Hkeep this1 _ d1).
Qed.

Lemma document_fields definitions config document :
  generateDocument safeParse definitions config = Ok document ->
  exists this,
    forEach_generateSingle safeParse new_generator (sortDefinitions definitions)
    = Ok this
    /\ get_field "paths" document = JObj (pathRefs this)
    /\ get_field "components" document = JObj (buildComponents this).
Proof.
  unfold generateDocument. intros H.
  apply bind_Ok in H as (this & Hthis & H). injection H as <-.
  exists this. split; [done|]. unfold obj_spread. simpl. split.
  - by rewrite obj_get_set_eq.
  - rewrite obj_get_set_ne; [|done]. by rewrite obj_get_set_eq.
Qed.

Lemma generateSingle_schemaRefs this d this' r :
  generateSingle safeParse this d = Ok this' ->
  ((exists o, obj_get r (schemaRefs this) = Some (JObj o)) ->
   exists o, obj_get r (schemaRefs this') = Some (JObj o))
  /\ (forall s, d = DSchema s -> truthy_refId (getMetadata s) = Some r ->
      exists o, obj_get r (schemaRefs this') = Some (JObj o)).
Proof.
  destruct d as [t n c|schema|schema|route]; simpl.
  - intros [= <-]. simpl. split; [done|]. by intros ?.
  - unfold generateSchemaDefinition. intros H.
    apply bind_Ok in H as (simple & _ & H).
    destruct (truthy_refId (getMetadata schema)) as [r'|] eqn:R;
      injection H as <-; simpl.
    + split.
      * intros Hold. destruct (decide (r = r')) as [->|Hne].
        -- rewrite obj_get_set_eq. by eexists.
        -- by rewrite obj_get_set_ne.
      * intros ? [= <-]. rewrite R. intros [= ->].
        rewrite obj_get_set_eq. by eexists.
    + split; [done|]. intros ? [= <-]. by rewrite R.
  - unfold generateParameterDefinition. intros H.
    apply bind_Ok in H as (result & _ & H).
    destruct (truthy_refId (getMetadata schema)); injection H as <-; simpl;
      (split; [done|]; by intros ?).
  - unfold generateSingleRoute. intros H.
    apply bind_Ok in H as (? & _ & H).
    apply bind_Ok in H as (? & _ & H).
    apply bind_Ok in H as (? & _ & H).
    injection H as <-. simpl. split; [done|]. by intros ?.
Qed.

Lemma generateSingle_paramRefs this d this' r :
  generateSingle safeParse this d = Ok this' ->
  ((exists o, obj_get r (paramRefs this) = Some (JObj o)) ->
   exists o, obj_get r (paramRefs this') = Some (JObj o))
  /\ (forall s, d = DParameter s -> truthy_refId (getMetadata s) = Some r ->
      exists o, obj_get r (paramRefs this') = Some (JObj o)).
Proof.
  destruct d as [t n c|schema|schema|route]; simpl.
  - intros [= <-]. simpl. split; [done|]. by intros ?.
  - unfold generateSchemaDefinition. intros H.
    apply bind_Ok in H as (simple & _ & H).
    destruct (truthy_refId (getMetadata schema)); injection H as <-; simpl;
      (split; [done|]; by intros ?).
  - unfold generateParameterDefinition. intros H.
    apply bind_Ok in H as (result & _ & H).
    destruct (truthy_refId (getMetadata schema)) as [r'|] eqn:R;
      injection H as <-; simpl.
    + split.
      * intros Hold. destruct (decide (r = r')) as [->|Hne].
        -- rewrite obj_get_set_eq. by eexists.
        -- by rewrite obj_get_set_ne.
      * intros ? [= <-]. rewrite R. intros [= ->].
        rewrite obj_get_set_eq. by eexists.
    + split; [done|]. intros ? [= <-]. by rewrite R.
  - unfold generateSingleRoute. intros H.
    apply bind_Ok in H as (? & _ & H).
    apply bind_Ok in H as (? & _ & H).
    apply bind_Ok in H as (? & _ & H).
    injection H as <-. simpl. split; [done|]. by intros ?.
Qed.

Lemma generateSingle_pathRefs this d this' p m :
  generateSingle safeParse this d = Ok this' ->
  ((exists item operation responses,
       obj_get p (pathRefs this) = Some (JObj item)
       /\ obj_get m item = Some (JObj operation)
       /\ obj_get "responses" operation = Some (JObj responses)) ->
   exists item operation responses,
     obj_get p (pathRefs this') = Some (JObj item)
     /\ obj_get m item = Some (JObj operation)
     /\ obj_get "responses" operation = Some (JObj responses))
  /\ (forall route, d = DRoute route ->
      zr_path route = p -> method_str (zr_method route) = m ->
      exists item operation responses,
        obj_get p (pathRefs this') = Some (JObj item)
        /\ obj_get m item = Some (JObj operation)
        /\ obj_get "responses" operation = Some (JObj responses)).
Proof.
  destruct d as [t n c|schema|schema|route]; simpl.
  - intros [= <-]. simpl. split; [done|]. by intros ?.
  - unfold generateSchemaDefinition. intros H.
    apply bind_Ok in H as (simple & _ & H).
    destruct (truthy_refId (getMetadata schema)); injection H as <-; simpl;
      (split; [done|]; by intros ?).
  - unfold generateParameterDefinition. intros H.
    apply bind_Ok in H as (result & _ & H).
    destruct (truthy_refId (getMetadata schema)); injection H as <-; simpl;
      (split; [done|]; by intros ?).
  - unfold generateSingleRoute. intros H.
    apply bind_Ok in H as (generated & _ & H).
    apply bind_Ok in H as (parameters & _ & H).
    apply bind_Ok in H as (requestBody & _ & H).
    injection H as <-. simpl.
    set (operation := obj_set "responses" (JObj generated) _).
    assert (Hop : obj_get "responses" operation = Some (JObj generated)).
    { subst operation. apply obj_get_set_eq. }
    clearbody operation. split.
    + intros (item & op & resp & Hitem & Hm & Hresp).
      destruct (decide (p = zr_path route)) as [->|Hp].
      * rewrite obj_get_set_eq, Hitem.
        destruct (decide (m = method_str (zr_method route))) as [->|Hm'].
        -- eexists _, _, _. split; [done|]. rewrite obj_get_set_eq. done.
        -- eexists _, _, _. split; [done|]. rewrite obj_get_set_ne; done.
      * rewrite obj_get_set_ne; [|done]. by exists item, op, resp.
    + intros ? [= <-] <- <-. rewrite obj_get_set_eq.
      eexists _, _, _. split; [done|]. rewrite obj_get_set_eq. done.
Qed.

Lemma def_with_def s d : _def (with_def s d) = d.
Proof. by destruct s. Qed.

Lemma register_refId reg refId zodSchema :
  refId <> "" ->
  truthy_refId (getMetadata (register reg refId zodSchema).2) = Some refId.
Proof.
  intros Hne. unfold register, getMetadata, openapi_method, truthy_refId. simpl.
  rewrite def_with_def. simpl. unfold truthy_str.
  by apply str_eqb_false in Hne as ->.
Qed.

Lemma registerParameter_refId reg refId zodSchema :
  refId <> "" ->
  truthy_refId (getMetadata (registerParameter reg refId zodSchema).2)
  = Some refId.
Proof.
  intros Hne. unfold registerParameter, getMetadata, openapi_method, truthy_refId.
  simpl. rewrite def_with_def. simpl. unfold truthy_str.
  by apply str_eqb_false in Hne as ->.
Qed.

Lemma schema_in_document reg refId zodSchema definitions config document :
  refId <> "" ->
  In (DSchema (register reg refId zodSchema).2) definitions ->
  generateDocument safeParse definitions config = Ok document ->
  exists schemaObject,
    doc_component document "schemas" refId = JObj schemaObject.
Proof.
  intros Hne Hin Hdoc.
  apply document_fields in Hdoc as (this & Hthis & _ & Hc).
  destruct (forEach_generateSingle_tables _ _ _ _ Hthis) as (Hs & Hp & _).
  unfold doc_component. rewrite Hc, buildComponents_get.
  2:{ apply Hs. constructor. }
  2:{ apply Hp. constructor. }
  simpl.
  assert (exists o, obj_get refId (schemaRefs this) = Some (JObj o)) as [o ->].
  { eapply (forEach_generateSingle_invariant
             (fun t => exists o, obj_get refId (schemaRefs t) = Some (JObj o))
             _ _ _ _ (In_sortDefinitions _ _ Hin)); [| |exact Hthis].
    - intros t t' H.
      apply (generateSingle_schemaRefs _ _ _ refId) in H as [_ H].
      apply (H _ eq_refl). by apply register_refId.
    - intros t t' d' H. by apply (generateSingle_schemaRefs _ _ _ refId) in H as [H _]. }
  by exists o.
Qed.

(** X2. Whenever generateDocument returns a document, every schema that
    was registered with a non-empty reference id is an object under
    components.schemas at that id. *)
Theorem registered_schema_is_documented reg refId zodSchema definitions config
    document :
  refId <> "" ->
  In (DSchema (register reg refId zodSchema).2) definitions ->
  generateDocument safeParse definitions config = Ok document ->
  exists schemaObject,
    doc_component document "schemas" refId = JObj schemaObject.
Proof. apply schema_in_document. Qed.

(** X3. Whenever generateDocument returns a document, every parameter
    that was registered with a non-empty reference id is an object under
    components.parameters at that id. *)
Theorem registered_parameter_is_documented reg refId zodSchema definitions
    config document :
  refId <> "" ->
  In (DParameter (registerParameter reg refId zodSchema).2) definitions ->
  generateDocument safeParse definitions config = Ok document ->
  exists parameterObject,
    doc_component document "parameters" refId = JObj parameterObject.
Proof.
  intros Hne Hin Hdoc.
  apply document_fields in Hdoc as (this & Hthis & _ & Hc).
  destruct (forEach_generateSingle_tables _ _ _ _ Hthis) as (Hs & Hp & _).
  unfold doc_component. rewrite Hc, buildComponents_get.
  2:{ apply Hs. constructor. }
  2:{ apply Hp. constructor. }
  simpl.
  assert (exists o, obj_get refId (paramRefs this) = Some (JObj o)) as [o ->].
  { eapply (forEach_generateSingle_invariant
             (fun t => exists o, obj_get refId (paramRefs t) = Some (JObj o))
             _ _ _ _ (In_sortDefinitions _ _ Hin)); [| |exact Hthis].
    - intros t t' H.
      apply (generateSingle_paramRefs _ _ _ refId) in H as [_ H].
      apply (H _ eq_refl). by apply registerParameter_refId.
    - intros t t' d' H. by apply (generateSingle_paramRefs _ _ _ refId) in H as [H _]. }
  by exists o.
Qed.

Lemma route_in_document route definitions config document :
  In (DRoute route) definitions ->
  generateDocument safeParse definitions config = Ok document ->
  exists operation responses,
    get_field (method_str (zr_method route))
      (get_field (zr_path route) (get_field "paths" document))
    = JObj operation
    /\ obj_get "responses" operation = Some (JObj responses).
Proof.
  intros Hin Hdoc.
  apply document_fields in Hdoc as (this & Hthis & Hpaths & _).
  rewrite Hpaths.
  assert (exists item operation responses,
             obj_get (zr_path route) (pathRefs this) = Some (JObj item)
             /\ obj_get (method_str (zr_method route)) item = Some (JObj operation)
             /\ obj_get "responses" operation = Some (JObj responses))
    as (item & op & resp & Hitem & Hop & Hresp).
  { eapply (forEach_generateSingle_invariant
             (fun t => exists item operation responses,
                  obj_get (zr_path route) (pathRefs t) = Some (JObj item)
                  /\ obj_get (method_str (zr_method route)) item
                     = Some (JObj operation)
                  /\ obj_get "responses" operation = Some (JObj responses))
             _ _ _ _ (In_sortDefinitions _ _ Hin)); [| |exact Hthis].
    - intros t t' H.
      apply (generateSingle_pathRefs _ _ _ (zr_path route)
               (method_str (zr_method route))) in H as [_ H].
      by apply (H _ eq_refl).
    - intros t t' d' H.
      by apply (generateSingle_pathRefs _ _ _ (zr_path route)
                  (method_str (zr_method route))) in H as [H _]. }
  exists op, resp. simpl. rewrite Hitem. simpl. by rewrite Hop.
Qed.

(** X4. Whenever generateDocument returns a document, every registered
    route has an operation object at paths[path][method], and that
    operation has a responses object. *)
Theorem registered_route_is_documented route definitions config document :
  In (DRoute route) definitions ->
  generateDocument safeParse definitions config = Ok document ->
  exists operation responses,
    get_field (method_str (zr_method route))
      (get_field (zr_path route) (get_field "paths" document))
    = JObj operation
    /\ obj_get "responses" operation = Some (JObj responses).
Proof. apply route_in_document. Qed.

Lemma In_parent_definitions parent parents own d :
  In parent parents -> In d (definitions parent) ->
  In d (definitions (Registry_of (Some parents) own)).
Proof.
  intros Hp Hd. simpl. apply in_or_app. left.
  apply in_flat_map. by exists parent.
Qed.

(** X7. The definitions of a registry include those of its parents:
    every route, and every schema with a non-empty reference id,
    registered in a parent is present in a document generated from the
    definitions of the child. *)
Theorem parent_registrations_are_documented parent parents own config document :
  In parent parents ->
  generateDocument safeParse (definitions (Registry_of (Some parents) own)) config
  = Ok document ->
  (forall route,
      In (DRoute route) (definitions parent) ->
      exists operation responses,
        get_field (method_str (zr_method route))
          (get_field (zr_path route) (get_field "paths" document))
        = JObj operation
        /\ obj_get "responses" operation = Some (JObj responses))
  /\ (forall reg refId zodSchema,
        refId <> "" ->
        In (DSchema (register reg refId zodSchema).2) (definitions parent) ->
        exists schemaObject,
          doc_component document "schemas" refId = JObj schemaObject).
Proof.
  intros Hp Hdoc. split.
  - intros route Hin. apply (route_in_document _ _ _ _ (In_parent_definitions _ _ own _ Hp Hin) Hdoc).
  - intros reg refId zodSchema Hne Hin.
    apply (schema_in_document reg refId zodSchema _ _ _ Hne
             (In_parent_definitions _ _ own _ Hp Hin) Hdoc).
Qed.

End WithValidator.

End DocumentFacts.

(** ** Properties of endpoints *)

Module EndpointFacts.
Import Js Zod Registry RuntimeRequest Endpoint Spec JsFacts.

(** X21. After endpoint(config), get(path, method) returns the endpoint
    made from config exactly at the path and method of config, and what
    it returned before at every other path and method. *)
Theorem endpoint_then_get this config path m :
  endpoints_get (endpoint this config) path m =
  if bool_decide (path = Registry.path config
                  /\ m = method_str (Registry.method config))
  then Some {| Endpoint.config := config;
               ep_request :=
                 {| er_query := extractRequestQuerySchema config;
                    er_params := extractRequestParamsSchema config;
                    er_headers := extractRequestParamsSchema config;
                    er_body := extractRequestBodySchema config |} |}
  else endpoints_get this path m.
Proof.
  unfold endpoint, endpoints_get.
  destruct (decide (path = Registry.path config)) as [->|Hp].
  - rewrite lookup_insert_eq.
    destruct (decide (m = method_str (Registry.method config))) as [->|Hm].
    + rewrite lookup_insert_eq. by rewrite bool_decide_eq_true_2.
    + rewrite lookup_insert_ne; [|done].
      rewrite bool_decide_eq_false_2; [|by intros [_ ?]].
      by destruct (this !! Registry.path config).
  - rewrite lookup_insert_ne; [|done].
    rewrite bool_decide_eq_false_2; [done|by intros [? _]].
Qed.

Lemma merge_entries_path path methodMap mergedMap p m :
  endpoints_get
    (map_fold
       (fun method endpoint mergedMap =>
          <[path := <[method := endpoint]> (default ∅ (mergedMap !! path))]>
            mergedMap)
       mergedMap methodMap) p m =
  match (if bool_decide (p = path) then methodMap !! m else None) with
  | Some e => Some e
  | None => endpoints_get mergedMap p m
  end.
Proof.
  apply (map_fold_weak_ind
           (fun r (mm : gmap string OpenapiEndpoint) =>
              endpoints_get r p m =
              match (if bool_decide (p = path) then mm !! m else None) with
              | Some e => Some e
              | None => endpoints_get mergedMap p m
              end)).
  - rewrite lookup_empty. by case_bool_decide.
  - intros i x mm r Hi IH. unfold endpoints_get in *.
    case_bool_decide as Hp.
    + subst p. rewrite lookup_insert_eq.
      destruct (decide (m = i)) as [->|Hm].
      * by rewrite !lookup_insert_eq.
      * rewrite !lookup_insert_ne; [|done..].
        rewrite <- IH. by destruct (r !! path).
    + rewrite lookup_insert_ne; [|done]. exact IH.
Qed.

Lemma merge_entries_get source mergedMap p m :
  endpoints_get (merge_entries source mergedMap) p m =
  match endpoints_get source p m with
  | Some e => Some e
  | None => endpoints_get mergedMap p m
  end.
Proof.
  unfold merge_entries.
  apply (map_fold_weak_ind
           (fun r (src : OpenapiEndpoints) =>
              endpoints_get r p m =
              match endpoints_get src p m with
              | Some e => Some e
              | None => endpoints_get mergedMap p m
              end)).
  - unfold endpoints_get at 2. by rewrite lookup_empty.
  - intros path methodMap src r Hpath IH.
    rewrite merge_entries_path.
    unfold endpoints_get at 2.
    case_bool_decide as Hp.
    + subst p. rewrite lookup_insert_eq.
      destruct (methodMap !! m); [done|].
      assert (endpoints_get src path m = None) as Hsrc.
      { unfold endpoints_get. by rewrite Hpath. }
      rewrite Hsrc in IH. rewrite <- IH.
      case_bool_decide; [done|].
      unfold endpoints_get. rewrite lookup_insert_eq, lookup_empty.
      destruct (r !! path) eqn:E; [|done]. exfalso. eauto.
    + rewrite lookup_insert_ne; [|done].
      change (match src !! p with
              | Some byMethod => byMethod !! m
              | None => None
              end) with (endpoints_get src p m).
      rewrite <- IH. case_bool_decide; [done|].
      unfold endpoints_get. by rewrite lookup_insert_ne.
Qed.

(** X22. In merge(left, right), get returns the endpoint of right where
    right has one for the path and method, and the endpoint of left
    otherwise. *)
Theorem merge_then_get left right path m :
  endpoints_get (endpoints_merge left right) path m =
  match endpoints_get right path m with
  | Some e => Some e
  | None => endpoints_get left path m
  end.
Proof.
  unfold endpoints_merge. rewrite !merge_entries_get.
  destruct (endpoints_get right path m); [done|].
  destruct (endpoints_get left path m); [done|].
  unfold endpoints_get. by rewrite lookup_empty.
Qed.

(** X23. The route config made from a JSON route config keeps method and
    path and gives back the body, params, headers and query schemas
    through the extract functions of the router; summary, tags and
    description are not carried over, and there is a 200 response, with
    the JSON body schema, only when a response body schema is given. *)
Theorem json_route_round_trip jsonConfig :
  let config := jsonRouteConfigToRouteConfig jsonConfig in
  Registry.method config = js_method jsonConfig
  /\ Registry.path config = js_path jsonConfig
  /\ extractRequestBodySchema config = js_request jsonConfig ≫= jr_body
  /\ extractRequestParamsSchema config = js_request jsonConfig ≫= jr_params
  /\ extractRequestHeadersSchema config = js_request jsonConfig ≫= jr_headers
  /\ extractRequestQuerySchema config =
     (map (fun kv => {| key := kv.1; schema := kv.2;
                        isArray := instanceof_ZodArray (unwrapZodType kv.2) |}))
       <$> (js_request jsonConfig ≫= jr_query)
  /\ rest config = []
  /\ responses config =
     (fun responseBody =>
        [("200", {| rc_rest := js_response_rest jsonConfig;
                    rc_headers := None;
                    rc_content :=
                      Some [("application/json", IsZod responseBody)] |})])
       <$> js_response_body jsonConfig.
Proof.
  destruct jsonConfig as [m p [[b ps q h]|] rb rr r]; simpl;
    repeat split; try done; try (by destruct rb).
  unfold extractRequestBodySchema. simpl. by destruct b.
Qed.

End EndpointFacts.

(** ** Registration and the handler context *)

Module RouterFacts.
Import Js Zod Registry RuntimeRequest Endpoint Server Spec JsFacts ServerFacts.

Lemma addRoute_template this config route :
  exists routes,
    routesByUppercasedMethodMap (addRoute this config route)
      !! toUpperCase (Registry.method config) = Some routes
    /\ byPathTemplateMap routes !! Registry.path config = Some route.
Proof.
  unfold addRoute. simpl. eexists. split; [apply lookup_insert_eq|].
  simpl. apply lookup_insert_eq.
Qed.

(** X16. Once a handler is registered for a method and path, registering
    a handler for the same method and path again throws Duplicate route
    for the combination of method=<method> path=<path>. *)
Theorem method_rejects_duplicate this m path h v this' h' v' :
  endpoints_consistent (endpoints this) ->
  Server.method this m path h v = Generator.Ok this' ->
  Server.method this' m path h' v' =
  Generator.Throw
    (Generator.Error ("Duplicate route for the combination of method="
                        ++ method_str m ++ " path=" ++ path)).
Proof.
  intros Hc. unfold Server.method at 1.
  destruct (match routesByUppercasedMethodMap this !! toUpperCase m with
            | Some routes => _ | None => false end); [done|].
  destruct (endpoints_get _ _ _) as [ep|] eqn:Hep; [|done].
  apply Hc in Hep as [Hpath Hm]. apply method_str_inj in Hm.
  intros [= <-].
  match goal with
  | |- context [addRoute this (config ep) ?r] =>
      destruct (addRoute_template this (config ep) r) as (routes & Hr & Ht)
  end.
  rewrite Hm, Hpath in *. unfold Server.method. rewrite Hr.
  rewrite bool_decide_eq_true_2; [done|]. by rewrite Ht.
Qed.

(** X17. A new router already serves GET on its openapiSpecPath:
    registering a GET handler on that path throws the duplicate route
    error, whatever the endpoints are. *)
Theorem docs_path_is_taken endpoints registry d openapiSpecPath h v :
  Server.method (new_OpenapiRouter endpoints registry d openapiSpecPath)
    get openapiSpecPath h v =
  Generator.Throw
    (Generator.Error ("Duplicate route for the combination of method=get path="
                        ++ openapiSpecPath)).
Proof.
  unfold new_OpenapiRouter.
  match goal with
  | |- context [addRoute ?t ?c ?r] =>
      destruct (addRoute_template t c r) as (routes & Hr & Ht)
  end.
  simpl in Hr, Ht. unfold Server.method. simpl. rewrite Hr.
  rewrite bool_decide_eq_true_2; [done|]. by rewrite Ht.
Qed.

Lemma obj_get_spread_In k v a l :
  obj_get k (obj_spread a l) = Some v -> In (k, v) l \/ obj_get k a = Some v.
Proof.
  unfold obj_spread. revert a.
  induction l as [|[k0 v0] l IH]; intros a; simpl; [by right|].
  intros H. apply IH in H as [H|H]; [left; by right|].
  destruct (decide (k = k0)) as [->|Hne].
  - rewrite obj_get_set_eq in H. injection H as ->. left. by left.
  - rewrite obj_get_set_ne in H; [|done]. by right.
Qed.

Lemma fromEntries_get_In k v l : obj_get k (fromEntries l) = Some v -> In (k, v) l.
Proof.
  unfold fromEntries. intros H. by apply obj_get_spread_In in H as [H|H].
Qed.

Section ContextFacts.

Variable safeParse : ZodType -> Json -> SafeParseReturnType.
Variable URLPattern_exec : URLPattern -> URL -> option (list (string * string)).

Local Abbreviation handle := (handle safeParse URLPattern_exec).
Local Abbreviation match_route := (match_route URLPattern_exec).

Lemma validate_loop_no_handler source entries ctx :
  ~ In (EvHandler ctx) (validate_loop safeParse source entries).1.
Proof.
  induction entries as [|[[k s] raw] entries IH]; simpl; [tauto|].
  destruct (safeParse s raw).
  - destruct (validate_loop safeParse source entries) as [evs r]. simpl in *.
    intros [?|?]; [done|tauto].
  - simpl. intros [?|?]; [done|tauto].
Qed.

Lemma validate_loop_data source entries evs validated :
  validate_loop safeParse source entries = (evs, inr validated) ->
  forall k v, In (k, v) validated ->
    exists s raw, In (k, s, raw) entries /\ safeParse s raw = ParseSuccess v.
Proof.
  revert evs validated.
  induction entries as [|[[k0 s0] raw0] entries IH]; intros evs validated; simpl.
  - intros [= <- <-] k v [].
  - destruct (safeParse s0 raw0) as [data|] eqn:P; [|done].
    destruct (validate_loop safeParse source entries) as [evs' [e|vs]] eqn:L;
      [done|].
    intros [= <- <-] k v [[= <- <-]|Hin].
    + exists s0, raw0. split; [by left|done].
    + destruct (IH _ _ eq_refl k v Hin) as (s & raw & Hin' & Hp).
      exists s, raw. split; [by right|done].
Qed.

(** X18. Whenever handle calls the handler of the matched route, every
    entry of the context's params, query and headers is the parsed
    output of a declared schema on the raw value of its key (the
    captured group, get or getAll of the search parameters, the header
    entry), and the context's body is the parsed output of the body
    schema on the JSON body, or the raw body when the route has no body
    schema. *)
Theorem handler_context_is_validated this request connInfo routes route params
    ctx :
  routesByUppercasedMethodMap this !! req_method request = Some routes ->
  match_route routes (req_url request) = Some (route, params) ->
  In (EvHandler ctx) (handle this request connInfo).1.1 ->
  (forall k v, obj_get k (ctx_params ctx) = Some v ->
     exists schema,
       In (k, schema) (default [] (paramSchemas route))
       /\ safeParse schema (groups_get (default [] params) k) = ParseSuccess v)
  /\ (forall k v, obj_get k (ctx_query ctx) = Some v ->
      exists q,
        In q (default [] (querySchemas route)) /\ key q = k
        /\ safeParse (schema q)
             (if isArray q
              then searchParams_getAll (searchParams (req_url request)) k
              else searchParams_get (searchParams (req_url request)) k)
           = ParseSuccess v)
  /\ (forall k v, obj_get k (ctx_headers ctx) = Some v ->
      exists schema,
        In (k, schema) (default [] (headerSchemas route))
        /\ safeParse schema
             (default JUndefined
                (obj_get k (headers_entries (req_headers request))))
           = ParseSuccess v)
  /\ match bodySchema route with
     | Some bodySchema =>
         exists body, req_json request = JsonValue body
                      /\ safeParse bodySchema body = ParseSuccess (ctx_body ctx)
     | None => ctx_body ctx = req_body request
     end.
Proof.
  intros Hroutes Hmatch. unfold Server.handle. rewrite Hroutes, Hmatch.
  set (E1 := map _ (default [] (paramSchemas route))).
  set (E2 := map _ (default [] (querySchemas route))).
  set (E3 := map _ (default [] (headerSchemas route))).
  assert (Hbody : exists t0 body,
             Forall (fun ev => ev = EvJson) t0
             /\ (match bodySchema route with
                 | Some _ =>
                     match req_json request with
                     | JsonValue v => inr ([EvJson], v)
                     | JsonSyntaxError => inl [EvJson]
                     end
                 | None => inr ([], req_body request)
                 end = inr (t0, body)
                 /\ match bodySchema route with
                    | Some _ => req_json request = JsonValue body
                    | None => body = req_body request
                    end
                 \/ match bodySchema route with
                    | Some _ =>
                        match req_json request with
                        | JsonValue v => inr ([EvJson], v)
                        | JsonSyntaxError => inl [EvJson]
                        end
                    | None => inr ([], req_body request)
                    end = inl t0 :> list Event + list Event * Json)).
  { destruct (bodySchema route).
    - destruct (req_json request) as [v|].
      + exists [EvJson], v. split; [by repeat constructor|]. by left.
      + exists [EvJson], JNull. split; [by repeat constructor|]. by right.
    - exists [], (req_body request). split; [constructor|]. by left. }
  destruct Hbody as (t0 & body & Ht0 & [[-> Hb]| ->]).
  2:{ simpl. intros Hin. exfalso. rewrite <- list_elem_of_In in Hin.
      apply (proj1 (Forall_forall _ _) Ht0) in Hin. done. }
  assert (Hno0 : ~ In (EvHandler ctx) t0).
  { intros Hin. rewrite <- list_elem_of_In in Hin.
    apply (proj1 (Forall_forall _ _) Ht0) in Hin. done. }
  pose proof (validate_loop_no_handler src_params E1 ctx) as Hno1.
  pose proof (validate_loop_no_handler src_query E2 ctx) as Hno2.
  pose proof (validate_loop_no_handler src_headers E3 ctx) as Hno3.
  destruct (validate_loop safeParse src_params E1) as [t1 [e1|v1]] eqn:L1.
  { simpl. rewrite !in_app_iff. simpl in *. intros [[?|?]|[?|[]]]; by exfalso. }
  destruct (validate_loop safeParse src_query E2) as [t2 [e2|v2]] eqn:L2.
  { simpl. rewrite !in_app_iff. simpl in *.
    intros [[?|[?|?]]|[?|[]]]; by exfalso. }
  destruct (validate_loop safeParse src_headers E3) as [t3 [e3|v3]] eqn:L3.
  { simpl. rewrite !in_app_iff. simpl in *.
    intros [[?|[?|[?|?]]]|[?|[]]]; by exfalso. }
  simpl in Hno1, Hno2, Hno3.
  assert (Hfields : forall validatedBody,
             In (EvHandler ctx)
                (t0 ++ t1 ++ t2 ++ t3
                    ++ match bodySchema route with
                       | Some bodySchema => [EvSafeParse src_body None bodySchema body]
                       | None => []
                       end
                    ++ [EvHandler
                          {| ctx_url := req_url request;
                             ctx_params := fromEntries v1;
                             ctx_query := fromEntries v2;
                             ctx_headers := fromEntries v3;
                             ctx_body := validatedBody;
                             ctx_request := request;
                             ctx_connInfo := connInfo |}])%list ->
             ctx_params ctx = fromEntries v1 /\ ctx_query ctx = fromEntries v2
             /\ ctx_headers ctx = fromEntries v3 /\ ctx_body ctx = validatedBody).
  { intros vb. rewrite !in_app_iff. simpl.
    intros [?|[?|[?|[?|[Hin|[Hin|[]]]]]]]; try by exfalso.
    - destruct (bodySchema route); simpl in Hin; [by destruct Hin|done].
    - by injection Hin as <-. }
  assert (Hconcl : forall validatedBody,
             ctx_params ctx = fromEntries v1 /\ ctx_query ctx = fromEntries v2
             /\ ctx_headers ctx = fromEntries v3 /\ ctx_body ctx = validatedBody ->
             match bodySchema route with
             | Some bodySchema =>
                 safeParse bodySchema body = ParseSuccess validatedBody
             | None => validatedBody = body
             end ->
             (forall k v, obj_get k (ctx_params ctx) = Some v ->
                exists schema,
                  In (k, schema) (default [] (paramSchemas route))
                  /\ safeParse schema (groups_get (default [] params) k)
                     = ParseSuccess v)
             /\ (forall k v, obj_get k (ctx_query ctx) = Some v ->
                 exists q,
                   In q (default [] (querySchemas route)) /\ key q = k
                   /\ safeParse (schema q)
                        (if isArray q
                         then searchParams_getAll (searchParams (req_url request)) k
                         else searchParams_get (searchParams (req_url request)) k)
                      = ParseSuccess v)
             /\ (forall k v, obj_get k (ctx_headers ctx) = Some v ->
                 exists schema,
                   In (k, schema) (default [] (headerSchemas route))
                   /\ safeParse schema
                        (default JUndefined
                           (obj_get k (headers_entries (req_headers request))))
                      = ParseSuccess v)
             /\ match bodySchema route with
                | Some bodySchema =>
                    exists body, req_json request = JsonValue body
                                 /\ safeParse bodySchema body
                                    = ParseSuccess (ctx_body ctx)
                | None => ctx_body ctx = req_body request
                end).
  { intros vb (-> & -> & -> & ->) Hvb. split; [|split; [|split]].
    - intros k v Hk. apply fromEntries_get_In in Hk.
      destruct (validate_loop_data _ _ _ _ L1 k v Hk) as (s & raw & Hin & Hp).
      subst E1. apply in_map_iff in Hin as ([k' s'] & [= -> -> <-] & Hin).
      by exists s.
    - intros k v Hk. apply fromEntries_get_In in Hk.
      destruct (validate_loop_data _ _ _ _ L2 k v Hk) as (s & raw & Hin & Hp).
      subst E2. apply in_map_iff in Hin as (q & [= <- <- <-] & Hin).
      by exists q.
    - intros k v Hk. apply fromEntries_get_In in Hk.
      destruct (validate_loop_data _ _ _ _ L3 k v Hk) as (s & raw & Hin & Hp).
      subst E3. apply in_map_iff in Hin as ([k' s'] & [= -> -> <-] & Hin).
      by exists s.
    - destruct (bodySchema route); [|by subst]. by exists body. }
  destruct (bodySchema route) as [bs|] eqn:B.
  - destruct (safeParse bs body) as [data|err] eqn:P.
    + destruct (call_handler _ _ _ _) as [o t]. simpl. intros Hin.
      apply (Hconcl data); [by apply Hfields|done].
    + simpl. rewrite !in_app_iff. simpl.
      intros [[?|[?|[?|[?|[?|[]]]]]]|[?|[]]]; by exfalso.
  - destruct (call_handler _ _ _ _) as [o t]. simpl. intros Hin.
    apply (Hconcl body); [by apply Hfields|done].
Qed.

End ContextFacts.

Lemma replace_placeholders_no_brace s :
  ~ In "{"%char (list_ascii_of_string s) -> replace_placeholders None s = s.
Proof.
  induction s as [|c s IH]; simpl; [done|].
  intros H. destruct (Ascii.eqb c "{") eqn:E.
  - apply Ascii.eqb_eq in E. subst. exfalso. apply H. by left.
  - rewrite IH; [done|]. intros Hin. apply H. by right.
Qed.

Section ReachFacts.

Variable safeParse : ZodType -> Json -> SafeParseReturnType.
Variable URLPattern_exec : URLPattern -> URL -> option (list (string * string)).

(** X19. After a handler is registered for a path without placeholders,
    a request URL whose pathname is that path is matched, under the
    upper-cased method, to that route and handler without captured
    groups. *)
Theorem static_route_is_matched_exactly this m path h v this' url :
  endpoints_consistent (endpoints this) ->
  ~ In "{"%char (list_ascii_of_string path) ->
  Server.method this m path h v = Generator.Ok this' ->
  pathname url = path ->
  exists routes route,
    routesByUppercasedMethodMap this' !! toUpperCase m = Some routes
    /\ match_route URLPattern_exec routes url = Some (route, None)
    /\ Server.path route = path
    /\ urlPattern route = None
    /\ handler route = UserHandler h.
Proof.
  intros Hc Hbrace Hm Hurl.
  destruct (method_registers _ _ _ _ _ _ Hc Hm)
    as (route & old & new & _ & Hnew & Hpath & Hh & Hexact & _).
  destruct Hexact as (Hu & Hby & _).
  { by apply replace_placeholders_no_brace. }
  exists new, route. split; [done|]. split; [|done].
  apply match_route_exact. rewrite Hby, Hurl. apply lookup_insert_eq.
Qed.

(** X20. Once the documentation handler has answered, routes registered
    afterwards do not change what it serves: it answers with the same
    response from the memo and leaves the router as it is. *)
Theorem document_is_generated_once this ctx response this1 m path h v this2 ctx' :
  call_handler safeParse this DocsHandler ctx = (Resolved response, this1) ->
  Server.method this1 m path h v = Generator.Ok this2 ->
  call_handler safeParse this2 DocsHandler ctx' = (Resolved response, this2).
Proof.
  unfold call_handler, memoizePromise.
  intros H1 H2.
  assert (Hm : exists typedResponse,
             memoized this1 = Some typedResponse
             /\ response = toResponse typedResponse).
  { destruct (memoized this) as [r|] eqn:M.
    - injection H1 as Ha Hb. subst. simpl. by exists r.
    - destruct (create_docs safeParse (registry this)) as [[r|e] w];
        injection H1 as Ha Hb; [|done]. subst. simpl. by exists r. }
  destruct Hm as (r & Hr & ->).
  assert (Hm2 : memoized this2 = Some r).
  { unfold Server.method in H2.
    destruct (match routesByUppercasedMethodMap this1 !! toUpperCase m with
              | Some routes => _ | None => false end); [done|].
    destruct (endpoints_get _ _ _); [|done]. by injection H2 as <-. }
  rewrite Hm2. f_equal. destruct this2. simpl in Hm2. by subst.
Qed.

End ReachFacts.

End RouterFacts.

(** ** Properties of the conversion of schemas *)

Module ConversionFacts.
Import Js Zod Registry RuntimeRequest Generator Spec JsFacts GeneratorFacts.

(** X10. unwrapChained of the generator and unwrapZodType of the router
    strip the same wrappers from every schema; the result is never an
    optional, a nullable, a default or a refinement effect, and
    unwrapping it again changes nothing. *)
Theorem unwrapChained_normal_form schema :
  unwrapZodType schema = unwrapChained schema
  /\ unwrapChained (unwrapChained schema) = unwrapChained schema
  /\ match unwrapChained schema with
     | ZodOptional _ _ | ZodNullable _ _ | ZodDefault _ _ _
     | ZodEffects _ refinement _ => False
     | _ => True
     end.
Proof.
  induction schema; simpl; try done.
  destruct effect; simpl; done.
Qed.

Lemma flattenUnionTypes_no_union n schema x :
  (height schema <= n)%nat ->
  In x (flattenUnionTypes schema) ->
  match x with ZodUnion _ _ => False | _ => True end.
Proof.
  revert schema x. induction n as [|n IH]; intros z x Hn Hin.
  { pose proof (height_pos z). lia. }
  destruct z; try (by destruct Hin as [<-|[]]).
  assert (Hx : exists o, In o options /\ In x (flattenUnionTypes o)).
  { simpl in Hin. clear -Hin.
    induction options as [|o options IHo]; [done|].
    apply in_app_or in Hin as [Hin|Hin].
    - exists o. split; [by left|done].
    - destruct (IHo Hin) as (o' & ? & ?). exists o'. split; [by right|done]. }
  destruct Hx as (o & Ho & Hxo).
  pose proof (height_union d options o Ho) as Hlt.
  apply (IH o x); [lia|done].
Qed.

Lemma flattenIntersectionTypes_no_intersection schema x :
  In x (flattenIntersectionTypes schema) ->
  match x with ZodIntersection _ _ _ => False | _ => True end.
Proof.
  revert x. induction schema; intros x Hin; try (by destruct Hin as [<-|[]]).
  simpl in Hin. apply in_app_or in Hin as [Hin|Hin];
    [by apply IHschema1|by apply IHschema2].
Qed.

(** X9. flattenUnionTypes never returns a union and
    flattenIntersectionTypes never returns an intersection: nested
    unions and intersections are flattened at every depth. *)
Theorem flattening_is_complete schema :
  Forall (fun x => match x with ZodUnion _ _ => False | _ => True end)
         (flattenUnionTypes schema)
  /\ Forall (fun x => match x with ZodIntersection _ _ _ => False | _ => True end)
            (flattenIntersectionTypes schema).
Proof.
  split; apply List.Forall_forall; intros x Hin.
  - by apply (flattenUnionTypes_no_union (height schema) schema).
  - by apply (flattenIntersectionTypes_no_intersection schema).
Qed.

Section WithValidator.

Variable safeParse : ZodType -> Json -> SafeParseReturnType.

Lemma omitBy_isNil_Forall (o : JsObject) :
  Forall (fun kv => isNil kv.2 = false) (omitBy o isNil).
Proof.
  unfold omitBy. apply Forall_forall. intros kv Hin.
  apply list_elem_of_filter in Hin as [Hin _].
  by destruct (isNil kv.2).
Qed.

(** X8. A schema object returned by generateSimpleSchema has no member
    whose value is null or undefined. *)
Theorem generateSimpleSchema_has_no_nil_member fuel this zodSchema converted :
  generateSimpleSchema safeParse fuel this zodSchema = Ok converted ->
  Forall (fun kv => isNil kv.2 = false) converted.
Proof.
  destruct fuel as [|fuel]; [done|]. simpl.
  destruct (_ ≫= (fun r => (fun x => (r, x)) <$> obj_get r (schemaRefs this)))
    as [[r x]|].
  - destruct (0 <? length _)%nat; intros [= <-]; by repeat constructor.
  - intros H. apply bind_Ok in H as (result & _ & H).
    destruct (match openapi (_def zodSchema) with
              | Some m => Some m
              | None => openapi (_def (unwrapChained zodSchema))
              end); injection H as <-.
    + apply omitBy_isNil_Forall.
    + apply omitBy_isNil_Forall.
Qed.

Lemma mapValuesM_keys {A B : Type} (f : A -> Result B) (o : list (string * A)) r :
  mapValuesM o f = Ok r -> map fst r = map fst o.
Proof.
  unfold mapValuesM. revert r.
  induction o as [|[k a] o IH]; intros r; simpl; [by intros [= <-]|].
  intros H. apply bind_Ok in H as ([k' b] & Hb & H).
  apply bind_Ok in Hb as (b' & _ & [= <- <-]).
  apply bind_Ok in H as (r' & Hr & [= <-]). simpl. f_equal. by apply IH.
Qed.

Lemma filter_all {A : Type} (P : A -> Prop) `{!forall x, Decision (P x)} (l : list A) :
  (forall x, P x) -> filter P l = l.
Proof.
  intros HP. induction l as [|x l IH]; [done|].
  rewrite filter_cons, decide_True; [|done]. by rewrite IH.
Qed.

Lemma plain_object_schema fuel this d propTypes unknownKeys isNullable converted :
  openapi d ≫= Zod.extendedFrom = None ->
  toOpenapiObjectSchema safeParse fuel this (ZodObject d propTypes unknownKeys)
    isNullable = Ok converted ->
  exists properties,
    keys properties = map fst propTypes
    /\ converted =
       ([("type", JStr "object"); ("properties", JObj properties)]
          ++ (if isNullable then [("nullable", JBool true)] else [])
          ++ match map fst (filter (fun kv => isOptionalSchema safeParse kv.2 = false)
                              propTypes) with
             | [] => []
             | required => [("required", JArr (map JStr required))]
             end)%list.
Proof.
  intros Hext. destruct fuel as [|fuel]; [done|]. simpl. rewrite Hext.
  intros H. apply bind_Ok in H as (schemaProperties & Hsp & H). simpl in H.
  injection H as <-.
  unfold omit. rewrite (filter_all (fun kv : string * Json => kv.1 ∉ [])).
  2:{ intros kv Hin. by apply elem_of_nil in Hin. }
  rewrite (filter_all (fun prop : string => array_includes [] (JStr prop) = false));
    [|done].
  exists schemaProperties. split; [by apply mapValuesM_keys in Hsp|].
  rewrite app_nil_r. by destruct (map fst _).
Qed.

(** X11. For an object schema that extends no registered parent, a
    successful conversion has type object, properties with exactly the
    keys of the shape in their order, a required list of exactly the
    keys whose schema is not optional (no required member when there is
    none), nullable: true only when asked for, and no
    additionalProperties member, whatever the unknown-keys option of the
    object is, passthrough included: the converter reads the option from
    a member that objects do not have. *)
Theorem object_schema_lists_required_keys fuel this d propTypes unknownKeys
    isNullable converted :
  openapi d ≫= Zod.extendedFrom = None ->
  toOpenapiObjectSchema safeParse fuel this (ZodObject d propTypes unknownKeys)
    isNullable = Ok converted ->
  let required :=
    map fst (filter (fun kv => isOptionalSchema safeParse kv.2 = false) propTypes) in
  obj_get "type" converted = Some (JStr "object")
  /\ (exists properties,
        obj_get "properties" converted = Some (JObj properties)
        /\ keys properties = map fst propTypes)
  /\ obj_get "required" converted =
     match required with
     | [] => None
     | _ :: _ => Some (JArr (map JStr required))
     end
  /\ obj_get "nullable" converted =
     (if isNullable then Some (JBool true) else None)
  /\ obj_get "additionalProperties" converted = None.
Proof.
  intros Hext H.
  destruct (plain_object_schema _ _ _ _ _ _ _ Hext H) as (properties & Hk & ->).
  simpl. split; [done|]. split; [by exists properties|].
  destruct (map fst _) as [|r0 required]; destruct isNullable; simpl; done.
Qed.

Lemma object_without_metadata_in_place fuel this describedAs shape unknownKeys
    converted :
  generateSimpleSchema safeParse fuel this
    (ZodObject {| openapi := None; description := describedAs |} shape unknownKeys)
  = Ok converted ->
  obj_get "type" converted = Some (JStr "object")
  /\ obj_get "$ref" converted = None
  /\ obj_get "allOf" converted = None
  /\ exists properties,
      obj_get "properties" converted = Some (JObj properties)
      /\ keys properties = map fst shape.
Proof.
  destruct fuel as [|fuel]; [done|]. simpl.
  destruct fuel as [|fuel]; [done|]. simpl.
  intros H. apply bind_Ok in H as (result & H & [= <-]).
  apply plain_object_schema in H as (properties & Hk & ->); [|done].
  assert (Hdata : forall data : JsObject,
             Forall (fun kv => isNil kv.2 = false) data ->
             omitBy data isNil = data).
  { intros data Hd. unfold omitBy.
    induction Hd as [|kv data Hkv _ IH]; [done|].
    rewrite filter_cons, decide_True; [by rewrite IH|]. by rewrite Hkv. }
  set (required := map fst (filter _ shape)).
  rewrite Hdata.
  2:{ destruct (isNullable safeParse _), required; simpl; repeat constructor. }
  split; [done|].
  split.
  { destruct (isNullable safeParse _), required; simpl; done. }
  split.
  { destruct (isNullable safeParse _), required; simpl; done. }
  by exists properties.
Qed.

(** X15. The result of pick or omit carries no openapi metadata: when it
    is an object schema, its conversion is an inline object schema with
    the properties of the picked shape, never a $ref or an allOf that
    refers to the schema it was taken from. *)
Theorem picked_object_is_converted_in_place
    (zodPick zodOmit : ZodType -> list (string * Json) -> ZodType) zodSchema
    mask d shape unknownKeys fuel this converted :
  (zodPick zodSchema mask = ZodObject d shape unknownKeys
   /\ generateSimpleSchema safeParse fuel this
        (ZodObjectPatch.pick zodPick zodSchema mask) = Ok converted)
  \/ (zodOmit zodSchema mask = ZodObject d shape unknownKeys
      /\ generateSimpleSchema safeParse fuel this
           (ZodObjectPatch.omit zodOmit zodSchema mask) = Ok converted) ->
  obj_get "type" converted = Some (JStr "object")
  /\ obj_get "$ref" converted = None
  /\ obj_get "allOf" converted = None
  /\ exists properties,
      obj_get "properties" converted = Some (JObj properties)
      /\ keys properties = map fst shape.
Proof.
  unfold ZodObjectPatch.pick, ZodObjectPatch.omit.
  intros [[-> H]|[-> H]]; simpl in H;
    by apply object_without_metadata_in_place in H.
Qed.

(** An object marked as extending a parent id is converted only if the
    generator holds an entry for that id; without one, once the
    properties are converted, the conversion throws. *)
Lemma extended_object_conversion fuel this d propTypes unknownKeys isNullable
    parent :
  openapi d ≫= Zod.extendedFrom = Some parent ->
  parent <> "" ->
  (forall converted,
      toOpenapiObjectSchema safeParse fuel this (ZodObject d propTypes unknownKeys)
        isNullable = Ok converted ->
      exists registered,
        obj_get parent (schemaRefs this) = Some registered
        /\ truthy registered = true)
  /\ (obj_get parent (schemaRefs this) = None ->
      forall schemaProperties,
        mapValuesM propTypes
          (fun propSchema =>
             JObj <$$> generateInnerSchema safeParse fuel this propSchema None)
        = Ok schemaProperties ->
        toOpenapiObjectSchema safeParse (S fuel) this
          (ZodObject d propTypes unknownKeys) isNullable
        = Throw (Error ("Attempt to extend an unregistered schema with id "
                          ++ parent ++ "."))).
Proof.
  intros Hext Hne.
  assert (Ht : truthy_str parent = true).
  { unfold truthy_str. by apply str_eqb_false in Hne as ->. }
  split.
  - intros converted. destruct fuel as [|fuel]; [done|]. simpl.
    rewrite Hext, Ht. intros H.
    apply bind_Ok in H as (schemaProperties & _ & H).
    apply bind_Ok in H as (diff & Hdiff & _).
    destruct (obj_get parent (schemaRefs this)) as [registered|]; [|done].
    exists registered. split; [done|].
    by destruct (truthy registered).
  - intros Hnone schemaProperties Hsp. simpl. rewrite Hext, Ht.
    unfold mapValuesM in *. 
    match goal with
    | |- bind ?c _ = _ => assert (c = Ok schemaProperties) as ->
    end.
    { rewrite <- Hsp. apply f_equal2; [|done]. done. }
    simpl. by rewrite Hnone.
Qed.

Lemma mapM_Ok_Forall2 {A B : Type} (f : A -> Result B) l ys :
  mapM f l = Ok ys -> Forall2 (fun x y => f x = Ok y) l ys.
Proof.
  revert ys. induction l as [|x l IH]; intros ys; simpl.
  - intros [= <-]. constructor.
  - intros H. apply bind_Ok in H as (y & Hy & H).
    apply bind_Ok in H as (ys' & Hys & [= <-]).
    constructor; [done|]. by apply IH.
Qed.

Lemma generateParameter_in_name this zodSchema converted :
  generateParameter safeParse this zodSchema = Ok converted ->
  exists pm l n,
    param (getMetadata zodSchema) = Some pm
    /\ pm_in pm = Some l /\ pm_name pm = Some n /\ n <> ""
    /\ obj_get "in" converted = Some (JStr (location_str l))
    /\ obj_get "name" converted = Some (JStr n).
Proof.
  unfold generateParameter. intros H.
  destruct (param (getMetadata zodSchema)) as [pm|] eqn:P; [|done]. simpl in H.
  destruct (pm_name pm) as [n0|] eqn:N; [|done]. simpl in H.
  destruct (truthy_str n0) eqn:Tn; [|done]. simpl in H.
  destruct (pm_in pm) as [l0|] eqn:L; [|done]. simpl in H.
  apply bind_Ok in H as (simple & _ & H). injection H as <-.
  exists pm, l0, n0. split; [done|]. split; [done|]. split; [done|].
  split.
  { intros ->. done. }
  destruct (param_object_in_name pm) as (Hnd & Hin & Hname).
  assert (Hnd' : NoDup (keys (buildParameterMetadata pm))).
  { unfold buildParameterMetadata, omitBy. by apply filter_keys_NoDup. }
  split.
  - rewrite obj_get_spread; [|done].
    unfold buildParameterMetadata. by rewrite (omitBy_get_str _ _ _ Hnd (Hin _ L)).
  - rewrite obj_get_spread; [|done].
    unfold buildParameterMetadata. by rewrite (omitBy_get_str _ _ _ Hnd (Hname _ N)).
Qed.

(** The parameters of a section of a route: a reference to a registered
    parameter, or an object named by its key and located in the section. *)
Lemma generateInlineParameters_entries this params location converted :
  generateInlineParameters safeParse this params location = Ok converted ->
  Forall2
    (fun kv parameter =>
       (exists refId,
           truthy_refId (getMetadata kv.2) = Some refId
           /\ is_Some (obj_get refId (paramRefs this))
           /\ parameter
              = JObj [("$ref", JStr ("#/components/parameters/" ++ refId))])
       \/ (exists object,
              parameter = JObj object
              /\ obj_get "in" object = Some (JStr (location_str location))
              /\ obj_get "name" object = Some (JStr kv.1)))
    params converted.
Proof.
  unfold generateInlineParameters. intros H. apply mapM_Ok_Forall2 in H.
  eapply Forall2_impl; [exact H|]. clear H.
  intros [key schema] parameter H. simpl in *.
  apply bind_Ok in H as (referencedSchema & Href & H).
  destruct referencedSchema as [ref|].
  - injection H as <-. left.
    unfold getParameterRef in Href.
    destruct (truthy_refId (getMetadata schema)) as [r|]; [|done].
    destruct (obj_get r (paramRefs this)) as [existing|] eqn:E; [|done].
    destruct (negb (truthy existing)); [done|].
    destruct (_ || _); [done|]. destruct (_ || _); [done|].
    injection Href as <-. exists r. by rewrite E.
  - right. apply bind_Ok in H as (? & _ & H). apply bind_Ok in H as (? & _ & H).
    apply bind_Ok in H as (object & Hgen & [= <-]).
    apply generateParameter_in_name in Hgen
      as (pm & l & n & Hpm & Hl & Hn & _ & Hin & Hname).
    exists object. split; [done|].
    unfold getMetadata, openapi_method in Hpm.
    assert (Hd : forall s d, _def (with_def s d) = d) by (by intros []).
    rewrite !Hd in Hpm. simpl in Hpm. injection Hpm as <-.
    simpl in Hl, Hn. injection Hl as <-. injection Hn as <-. done.
Qed.

(** X13. The parameters generated for the request of a route are one per
    declared key, those of params first, then those of query, then those
    of headers, each in declaration order; each is either a $ref to a
    registered parameter or an object whose in is path, query or header
    according to its section and whose name is the declared key. *)
Theorem route_parameters_follow_their_sections this request converted :
  getParameters safeParse this (Some request) = Ok converted ->
  Forall2
    (fun declared parameter =>
       (exists refId,
           truthy_refId (getMetadata declared.2.2) = Some refId
           /\ is_Some (obj_get refId (paramRefs this))
           /\ parameter
              = JObj [("$ref", JStr ("#/components/parameters/" ++ refId))])
       \/ (exists object,
              parameter = JObj object
              /\ obj_get "in" object = Some (JStr (location_str declared.1))
              /\ obj_get "name" object = Some (JStr declared.2.1)))
    (map (fun kv => (Zod.path, kv)) (default [] (Registry.params request))
     ++ map (fun kv => (Zod.query, kv)) (default [] (Registry.query request))
     ++ map (fun kv => (Zod.header, kv)) (default [] (Registry.headers request)))
    converted.
Proof.
  unfold getParameters. intros H.
  apply bind_Ok in H as (qp & Hq & H).
  apply bind_Ok in H as (pp & Hp & H).
  apply bind_Ok in H as (hp & Hh & [= <-]).
  assert (Hsec : forall section location ps,
             match section with
             | Some s => generateInlineParameters safeParse this s location
             | None => Ok []
             end = Ok ps ->
             Forall2
               (fun declared parameter =>
                  (exists refId,
                      truthy_refId (getMetadata declared.2.2) = Some refId
                      /\ is_Some (obj_get refId (paramRefs this))
                      /\ parameter
                         = JObj [("$ref",
                                  JStr ("#/components/parameters/" ++ refId))])
                  \/ (exists object,
                         parameter = JObj object
                         /\ obj_get "in" object
                            = Some (JStr (location_str declared.1))
                         /\ obj_get "name" object = Some (JStr declared.2.1)))
               (map (fun kv => (location, kv)) (default [] section)) ps).
  { intros [s|] location ps Hs; simpl.
    - apply generateInlineParameters_entries in Hs.
      apply Forall2_fmap_l. eapply Forall2_impl; [exact Hs|]. by intros [??] ?.
    - injection Hs as <-. constructor. }
  apply Forall2_app; [by apply Hsec|].
  apply Forall2_app; by apply Hsec.
Qed.

Lemma unwrapChained_optional zodSchema :
  unwrapChained (optional zodSchema) = unwrapChained zodSchema
  /\ unwrapChained (nullable zodSchema) = unwrapChained zodSchema.
Proof. done. Qed.

(** X27. A schema whose reference id has a generated object among the
    schema references is converted, also when wrapped in optional or
    nullable, to a $ref to #/components/schemas/<id>, alone or as the
    first member of an allOf; it is not converted inline again. *)
Theorem registered_schema_is_referenced_everywhere fuel this zodSchema refId
    registered wrapped :
  truthy_refId (getMetadata zodSchema) = Some refId ->
  obj_get refId (schemaRefs this) = Some (JObj registered) ->
  wrapped = zodSchema \/ wrapped = optional zodSchema
  \/ wrapped = nullable zodSchema ->
  exists extra,
    generateSimpleSchema safeParse (S fuel) this wrapped =
    Ok match extra with
       | [] => [("$ref", JStr ("#/components/schemas/" ++ refId))]
       | _ :: _ =>
           [("allOf",
             JArr [JObj [("$ref", JStr ("#/components/schemas/" ++ refId))];
                   JObj extra])]
       end.
Proof.
  intros Href Hreg Hw.
  assert (Hmeta : match openapi (_def wrapped) with
                  | Some m => Some m
                  | None => openapi (_def (unwrapChained wrapped))
                  end
                  = match openapi (_def zodSchema) with
                    | Some m => Some m
                    | None => openapi (_def (unwrapChained zodSchema))
                    end).
  { destruct Hw as [->|[->| ->]]; [done|..]; simpl;
      by destruct (openapi (_def zodSchema)). }
  simpl. rewrite Hmeta.
  assert (Hr : match openapi (_def zodSchema) with
               | Some m => Some m
               | None => openapi (_def (unwrapChained zodSchema))
               end ≫= truthy_refId = Some refId).
  { unfold getMetadata, truthy_refId, nullish in Href. simpl in Href.
    unfold truthy_refId.
    destruct (openapi (_def zodSchema)) as [m|]; simpl in *.
    - by destruct (Zod.refId m).
    - destruct (openapi (_def (unwrapChained zodSchema))) as [m|]; simpl in *;
        [|done]. by destruct (Zod.refId m). }
  rewrite Hr. simpl. rewrite Hreg. simpl.
  set (applied := applySchemaMetadata _ _).
  exists applied. by destruct applied.
Qed.

(** X14. Generating a registered parameter whose schema metadata gives
    no location (in) throws MissingParameterDataError: for the name when
    the parameter name is empty, otherwise for in with the parameter
    name. *)
Theorem parameter_without_location_is_rejected reg refId zodSchema this :
  let given := openapi (_def zodSchema) ≫= param in
  let name := default refId (given ≫= pm_name) in
  given ≫= pm_in = None ->
  generateParameterDefinition safeParse this
    (registerParameter reg refId zodSchema).2 =
  if str_eqb name ""
  then Throw (MissingParameterDataError "name" None)
  else Throw (MissingParameterDataError "in" (Some name)).
Proof.
  intros given name Hin. subst given name.
  unfold generateParameterDefinition, generateParameter, registerParameter.
  simpl. unfold getMetadata, openapi_method.
  assert (Hd : forall s d, _def (with_def s d) = d) by (by intros []).
  rewrite !Hd. simpl.
  destruct (openapi (_def zodSchema)) as [[r e [[i n rest]|] so]|];
    simpl in *; subst; simpl.
  - destruct n as [n|]; simpl; unfold truthy_str;
      by destruct (str_eqb _ "").
  - unfold truthy_str. by destruct (str_eqb refId "").
  - unfold truthy_str. by destruct (str_eqb refId "").
Qed.

End WithValidator.

End ConversionFacts.

(** ** From the router to the document *)

Module CompositionFacts.
Import Js Zod Registry RuntimeRequest Endpoint Generator Spec JsFacts GeneratorFacts.
Import GeneratorOrderFacts DocumentFacts.

Lemma forEach_generateSingle_app safeParse l1 l2 this this' :
  forEach_generateSingle safeParse this (l1 ++ l2) = Ok this' ->
  exists this1,
    forEach_generateSingle safeParse this l1 = Ok this1
    /\ forEach_generateSingle safeParse this1 l2 = Ok this'.
Proof.
  revert this. induction l1 as [|d l1 IH]; intros this; simpl.
  - intros H. by exists this.
  - intros H. apply bind_Ok in H as (t & Ht & H).
    apply IH in H as (this1 & H1 & H2). exists this1. by rewrite Ht.
Qed.

Lemma sortDefinitions_last_route definitions route :
  sortDefinitions (definitions ++ [DRoute route])
  = (sortDefinitions definitions ++ [DRoute route])%list.
Proof.
  rewrite !sortDefinitions_by_type, !filter_app, !filter_cons, !filter_nil.
  simpl. rewrite !app_nil_r. by rewrite <- !app_assoc.
Qed.

Section WithValidator.

Variable safeParse : ZodType -> Json -> SafeParseReturnType.

Lemma last_route_in_document definitions route config document :
  generateDocument safeParse (definitions ++ [DRoute route]) config
  = Ok document ->
  exists this generatedResponses operation,
    mapValuesM (zr_responses route)
      (fun response => JObj <$$> getResponse safeParse this response)
    = Ok generatedResponses
    /\ get_field (method_str (zr_method route))
         (get_field (zr_path route) (get_field "paths" document))
       = JObj operation
    /\ obj_get "responses" operation = Some (JObj generatedResponses).
Proof.
  intros Hdoc.
  apply document_fields in Hdoc as (this & Hthis & Hpaths & _).
  rewrite sortDefinitions_last_route in Hthis.
  apply forEach_generateSingle_app in Hthis as (this1 & _ & H).
  simpl in H. apply bind_Ok in H as (this2 & H & [= <-]).
  unfold generateSingleRoute in H.
  apply bind_Ok in H as (generated & Hgen & H).
  apply bind_Ok in H as (parameters & _ & H).
  apply bind_Ok in H as (requestBody & _ & H).
  injection H as <-. simpl in Hpaths.
  exists this1, generated. eexists. split; [exact Hgen|].
  rewrite Hpaths. simpl. rewrite obj_get_set_eq. simpl.
  unfold obj_spread at 1. simpl. rewrite obj_get_set_eq.
  split; [reflexivity|]. unfold obj_spread at 1. simpl. apply obj_get_set_eq.
Qed.

(** X6. After the router has registered a handler for a method and path
    of its endpoints, a document generated from the router's registry
    has an operation with a responses object at paths[path][method];
    when the endpoint declares no responses these are exactly {200:
    {description: OK}}. *)
Theorem routed_endpoint_is_documented this m path h v this' config document :
  endpoints_consistent (Server.endpoints this) ->
  Server.method this m path h v = Ok this' ->
  generateDocument safeParse (Server.registry this') config = Ok document ->
  exists endpoint operation responses,
    endpoints_get (Server.endpoints this) path (method_str m) = Some endpoint
    /\ get_field (method_str m) (get_field path (get_field "paths" document))
       = JObj operation
    /\ obj_get "responses" operation = Some (JObj responses)
    /\ (Registry.responses (Endpoint.config endpoint) = None ->
        responses = [("200", JObj [("description", JStr "OK")])]).
Proof.
  intros Hc. unfold Server.method.
  destruct (match Server.routesByUppercasedMethodMap this !! toUpperCase m with
            | Some routes => _ | None => false end); [done|].
  destruct (endpoints_get _ _ _) as [ep|] eqn:Hep; [|done].
  destruct (Hc _ _ _ Hep) as [Hpath Hm]. apply ServerFacts.method_str_inj in Hm.
  intros [= <-]. unfold Server.addRoute, registerPath. simpl. intros Hdoc.
  apply last_route_in_document in Hdoc
    as (t & generated & operation & Hgen & Hop & Hresp).
  simpl in *. rewrite Hm, Hpath in Hop.
  exists ep, operation, generated. split; [done|]. split; [done|].
  split; [done|]. intros Hnone. rewrite Hnone in Hgen. simpl in Hgen.
  by injection Hgen as <-.
Qed.

Lemma forEach_generateSingle_preserved (I P : OpenapiGenerator -> Prop)
    (ok : OpenapiDefinitions -> Prop) l this this' :
  Forall ok l ->
  (forall t t' d', ok d' -> generateSingle safeParse t d' = Ok t' -> I t -> I t') ->
  (forall t t' d', ok d' -> generateSingle safeParse t d' = Ok t' ->
                   I t -> P t -> P t') ->
  I this -> P this ->
  forEach_generateSingle safeParse this l = Ok this' -> P this'.
Proof.
  intros Hok HI HP. revert this.
  induction Hok as [|d0 l Hd0 _ IH]; intros this Hi Hp; simpl.
  - by intros [= <-].
  - intros H. apply bind_Ok in H as (t1 & H1 & H).
    apply (IH t1); [by apply (HI this _ d0)|by apply (HP this _ d0)|done].
Qed.

Lemma forEach_generateSingle_two_phase (I P : OpenapiGenerator -> Prop)
    (ok : OpenapiDefinitions -> Prop) d l this this' :
  Forall ok l -> In d l ->
  (forall t t' d', ok d' -> generateSingle safeParse t d' = Ok t' -> I t -> I t') ->
  (forall t t', generateSingle safeParse t d = Ok t' -> I t -> P t') ->
  (forall t t' d', ok d' -> generateSingle safeParse t d' = Ok t' ->
                   I t -> P t -> P t') ->
  I this ->
  forEach_generateSingle safeParse this l = Ok this' -> P this'.
Proof.
  intros Hok Hin HI Hadd HP. revert this Hin.
  induction Hok as [|d0 l Hd0 Hok IH]; intros this Hin Hi; [done|]. simpl.
  intros H. apply bind_Ok in H as (t1 & H1 & H).
  destruct Hin as [->|Hin].
  - apply (forEach_generateSingle_preserved I P ok l t1); try done.
    + by apply (HI this _ d).
    + by apply (Hadd this).
  - apply (IH t1); [done| |done]. by apply (HI this _ d0).
Qed.

Lemma mapValuesM_get {A : Type} (f : A -> Result Json) (o : list (string * A))
    r k a :
  mapValuesM o f = Ok r -> NoDup (map fst o) -> In (k, a) o ->
  exists b, f a = Ok b /\ obj_get k r = Some b.
Proof.
  unfold mapValuesM. revert r.
  induction o as [|[k0 a0] o IH]; intros r; simpl; [done|].
  intros H Hnd Hin. apply bind_Ok in H as ([k' b] & Hb & H).
  apply bind_Ok in Hb as (b' & Hb & [= <- <-]).
  apply bind_Ok in H as (r' & Hr & [= <-]).
  inversion Hnd as [|?? Hk0 Hnd']; subst. simpl.
  destruct Hin as [[= -> ->]|Hin].
  - exists b'. by rewrite str_eqb_refl.
  - destruct (IH _ Hr Hnd' Hin) as (b & Hfa & Hget). exists b. split; [done|].
    assert (k <> k0) as Hne.
    { intros ->. apply Hk0. apply list_elem_of_In, in_map_iff. by exists (k0, a). }
    by apply str_eqb_false in Hne as ->.
Qed.

(** X5. If the request body of a registered route declares, under a
    media type, a schema registered under a non-empty reference id (the
    schema having no openapi metadata before), then in the generated
    document the schema of that request body is a $ref to
    #/components/schemas/<id> (inside allOf with nullable: true when the
    schema accepts null), whether the route or the schema was registered
    first. *)
Theorem registered_body_schema_is_referenced reg refId zodSchema definitions
    route request requestBody mediaType config document :
  let schema := (register reg refId zodSchema).2 in
  refId <> "" ->
  openapi (_def zodSchema) = None ->
  In (DSchema schema) definitions ->
  In (DRoute route) definitions ->
  (forall route',
      In (DRoute route') definitions ->
      zr_path route' = zr_path route -> zr_method route' = zr_method route ->
      route' = route) ->
  zr_request route = Some request ->
  body request = Some requestBody ->
  NoDup (map fst (rb_content requestBody)) ->
  In (mediaType, IsZod schema) (rb_content requestBody) ->
  generateDocument safeParse definitions config = Ok document ->
  get_field "schema"
    (get_field mediaType
       (get_field "content"
          (get_field "requestBody"
             (get_field (method_str (zr_method route))
                (get_field (zr_path route) (get_field "paths" document))))))
  = JObj (if isNullable safeParse schema
          then [("allOf",
                 JArr [JObj [("$ref", JStr ("#/components/schemas/" ++ refId))];
                       JObj [("nullable", JBool true)]])]
          else [("$ref", JStr ("#/components/schemas/" ++ refId))]).
Proof.
  intros schema Hne Hmeta Hs Hr Huniq Hreq Hbody Hnd Hcontent Hdoc.
  set (expected := JObj (if isNullable safeParse schema then _ else _)).
  apply document_fields in Hdoc as (this & Hthis & Hpaths & _).
  rewrite Hpaths. clear Hpaths.
  rewrite sortDefinitions_by_type, !app_assoc in Hthis.
  apply forEach_generateSingle_app in Hthis as (this1 & Hpre & Hroutes).
  (* the schema is registered before the first route is converted *)
  assert (Href : exists o, obj_get refId (schemaRefs this1) = Some (JObj o)).
  { eapply (forEach_generateSingle_invariant safeParse
              (fun t => exists o, obj_get refId (schemaRefs t) = Some (JObj o))
              (DSchema schema)); [| | |exact Hpre].
    - apply in_or_app. left. apply in_or_app. right.
      apply list_elem_of_In, list_elem_of_filter. split; [done|].
      by apply list_elem_of_In.
    - intros t t' H.
      apply (generateSingle_schemaRefs _ _ _ _ refId) in H as [_ H].
      apply (H _ eq_refl). by apply register_refId.
    - intros t t' d' H.
      by apply (generateSingle_schemaRefs _ _ _ _ refId) in H as [H _]. }
  (* the conversion of the schema in a generator that holds its id *)
  assert (Hsimple : forall t fuel,
             (exists o, obj_get refId (schemaRefs t) = Some (JObj o)) ->
             generateSimpleSchema safeParse (S fuel) t schema =
             Ok (if isNullable safeParse schema
                 then [("allOf",
                        JArr [JObj [("$ref", JStr ("#/components/schemas/" ++ refId))];
                              JObj [("nullable", JBool true)]])]
                 else [("$ref", JStr ("#/components/schemas/" ++ refId))])).
  { intros t fuel [o Ho]. subst schema. unfold register. simpl.
    unfold openapi_method. rewrite def_with_def. simpl.
    unfold truthy_refId. simpl. unfold truthy_str.
    apply str_eqb_false in Hne as Hne'. rewrite Hne'. simpl. rewrite Ho. simpl.
    rewrite Hmeta. simpl.
    clear. unfold isNullable.
    destruct (success (safeParse _ JNull)); reflexivity. }
  eapply (forEach_generateSingle_two_phase
            (fun t => exists o, obj_get refId (schemaRefs t) = Some (JObj o))
            (fun t => get_field "schema"
                        (get_field mediaType
                           (get_field "content"
                              (get_field "requestBody"
                                 (get_field (method_str (zr_method route))
                                    (get_field (zr_path route)
                                       (JObj (pathRefs t)))))))
                      = expected)
            (fun d => exists route',
                 d = DRoute route'
                 /\ (zr_path route' = zr_path route ->
                     zr_method route' = zr_method route -> route' = route))
            (DRoute route)); [| | | | |exact Href|exact Hroutes].
  - apply Forall_forall. intros d Hd.
    apply list_elem_of_filter in Hd as [Hd Hin].
    destruct d as [| | |route']; try done. exists route'. split; [done|].
    apply Huniq. by apply list_elem_of_In.
  - apply list_elem_of_In, list_elem_of_filter. split; [done|].
    by apply list_elem_of_In.
  - intros t t' d' _ H.
    by apply (generateSingle_schemaRefs _ _ _ _ refId) in H as [H _].
  - intros t t' H Ht. simpl in H. unfold generateSingleRoute in H.
    apply bind_Ok in H as (generated & _ & H).
    apply bind_Ok in H as (parameters & _ & H).
    apply bind_Ok in H as (rb & Hrb & H). injection H as <-.
    rewrite Hreq in Hrb. simpl in Hrb. rewrite Hbody in Hrb. simpl in Hrb.
    apply bind_Ok in Hrb as (content & Hc & [= <-]).
    unfold getBodyContent in Hc.
    destruct (mapValuesM_get _ _ _ _ _ Hc Hnd Hcontent) as (b & Hb & Hget).
    simpl. rewrite obj_get_set_eq. simpl.
    rewrite obj_get_set_eq. simpl. rewrite obj_get_set_ne; [|done].
    rewrite obj_get_set_eq. simpl. rewrite obj_get_set_eq. simpl.
    rewrite Hget.
    destruct (stack_bound schema) as [|fuel] eqn:Hfuel;
      [unfold stack_bound in Hfuel; lia|].
    rewrite (Hsimple t fuel Ht) in Hb. simpl in Hb. injection Hb as <-.
    done.
  - intros t t' d' (route' & -> & Hsame) H Ht Hp. simpl in H.
    destruct (decide (zr_path route' = zr_path route
                      /\ method_str (zr_method route')
                         = method_str (zr_method route))) as [[Hp1 Hp2]|Hdiff].
    { apply ServerFacts.method_str_inj in Hp2. rewrite (Hsame Hp1 Hp2) in H.
      (* the same route again: converted as before *)
      unfold generateSingleRoute in H.
      apply bind_Ok in H as (generated & _ & H).
      apply bind_Ok in H as (parameters & _ & H).
      apply bind_Ok in H as (rb & Hrb & H). injection H as <-.
      rewrite Hreq in Hrb. simpl in Hrb. rewrite Hbody in Hrb. simpl in Hrb.
      apply bind_Ok in Hrb as (content & Hc & [= <-]).
      unfold getBodyContent in Hc.
      destruct (mapValuesM_get _ _ _ _ _ Hc Hnd Hcontent) as (b & Hb & Hget).
        simpl. rewrite obj_get_set_eq. simpl.
      rewrite obj_get_set_eq. simpl. rewrite obj_get_set_ne; [|done].
      rewrite obj_get_set_eq. simpl. rewrite obj_get_set_eq. simpl.
      rewrite Hget.
      destruct (stack_bound schema) as [|fuel] eqn:Hfuel;
      [unfold stack_bound in Hfuel; lia|].
      rewrite (Hsimple t fuel Ht) in Hb. simpl in Hb. injection Hb as <-.
      done. }
    unfold generateSingleRoute in H.
    apply bind_Ok in H as (generated & _ & H).
    apply bind_Ok in H as (parameters & _ & H).
    apply bind_Ok in H as (rb & _ & H). injection H as <-. simpl.
    rewrite <- Hp. clear Hp. simpl.
    destruct (decide (zr_path route = zr_path route')) as [Hpath|Hpath].
    + rewrite <- Hpath. rewrite obj_get_set_eq. simpl.
      unfold obj_spread at 1. simpl.
      rewrite obj_get_set_ne.
      2:{ intros Hm. by apply Hdiff. }
      by destruct (obj_get (zr_path route) (pathRefs t)) as [[]|].
    + by rewrite obj_get_set_ne.
Qed.

End WithValidator.

End CompositionFacts.

(** ** Conflicting references to a registered parameter *)

Module ConflictFacts.
Import Js Zod Registry RuntimeRequest Endpoint Generator Spec JsFacts GeneratorFacts.
Import GeneratorOrderFacts DocumentFacts CompositionFacts.

Section WithValidator.

Variable safeParse : ZodType -> Json -> SafeParseReturnType.

(** A reference to a registered parameter from a section for another
    location, in any state that holds an entry for the reference id. *)
Lemma getParameterRef_other_location this metadata r existingRef pm l0 location
    key :
  truthy_refId metadata = Some r ->
  obj_get r (paramRefs this) = Some existingRef ->
  truthy existingRef = true ->
  param metadata = Some pm ->
  pm_in pm = Some l0 ->
  l0 <> location ->
  exists message values,
    getParameterRef this metadata {| pd_in := Some location; pd_name := Some key |}
    = Throw (ConflictError message "in" values)
    /\ In (JStr (location_str l0)) values
    /\ In (JStr (location_str location)) values.
Proof.
  intros Hr Hex Ht Hpm Hin Hne. unfold getParameterRef.
  rewrite Hr, Hex, Ht, Hpm, Hin.
  cbn -[strict_neq truthy compact get_field template].
  assert (Hc : strict_neq (get_field "in" existingRef) (JStr (location_str l0))
               || (truthy (JStr (location_str location))
                   && strict_neq (get_field "in" existingRef)
                        (JStr (location_str location))) = true).
  { rewrite location_str_truthy.
    destruct (get_field "in" existingRef) as [| | | |s| |] eqn:E; simpl; try done.
    destruct (decide (s = location_str l0)) as [->|Hs].
    - apply orb_true_iff. right.
      apply negb_true_iff, str_eqb_false. intros H.
      by apply location_str_inj in H.
    - apply orb_true_iff. left. by apply negb_true_iff, str_eqb_false. }
  rewrite Hc, Hin. eexists _, _. split; [reflexivity|]. split.
  - apply in_compact; [right; right; by left|apply location_str_truthy].
  - apply in_compact; [right; by left|apply location_str_truthy].
Qed.

(** A reference under another key than the registered name. *)
Lemma getParameterRef_other_name this metadata r existing pm l0 n0 key :
  truthy_refId metadata = Some r ->
  obj_get r (paramRefs this) = Some (JObj existing) ->
  obj_get "in" existing = Some (JStr (location_str l0)) ->
  param metadata = Some pm ->
  pm_in pm = Some l0 ->
  pm_name pm = Some n0 ->
  n0 <> "" -> key <> "" -> n0 <> key ->
  exists values,
    getParameterRef this metadata {| pd_in := Some l0; pd_name := Some key |}
    = Throw (ConflictError "Conflicting names for parameter" "name" values)
    /\ In (JStr n0) values
    /\ In (JStr key) values.
Proof.
  intros Hr Hex Hin Hpm Hl Hn Hn0 Hkey Hne. unfold getParameterRef.
  rewrite Hr, Hex, Hpm, Hl, Hn.
  cbn -[strict_neq truthy compact template]. rewrite Hin.
  cbn -[strict_neq truthy compact template].
  assert (Hsame : strict_neq (JStr (location_str l0)) (JStr (location_str l0))
                  = false).
  { simpl. by rewrite str_eqb_refl. }
  rewrite Hsame, andb_false_r. cbn [orb].
  assert (Hk : truthy (JStr key) = true).
  { simpl. by apply negb_true_iff, str_eqb_false. }
  assert (Ht : truthy (JStr n0) = true).
  { simpl. by apply negb_true_iff, str_eqb_false. }
  assert (Hc : strict_neq (default JUndefined (obj_get "name" existing)) (JStr n0)
               || (truthy (JStr key)
                   && strict_neq (default JUndefined (obj_get "name" existing))
                        (JStr key)) = true).
  { rewrite Hk.
    destruct (default JUndefined (obj_get "name" existing)) as [| | | |s| |];
      simpl; try done.
    destruct (decide (s = n0)) as [->|Hs].
    - apply orb_true_iff. right. by apply negb_true_iff, str_eqb_false.
    - apply orb_true_iff. left. by apply negb_true_iff, str_eqb_false. }
  rewrite Hc, Hn. change (negb (truthy (JObj existing))) with false. cbn [opt_str].
  eexists. split; [reflexivity|]. split.
  - apply in_compact; [right; right; by left|done].
  - apply in_compact; [right; by left|done].
Qed.

(** Either way the reference throws, whatever the entry for the
    reference id holds. *)
Lemma getParameterRef_conflict this metadata r existingRef pm l0 n0 location key :
  truthy_refId metadata = Some r ->
  obj_get r (paramRefs this) = Some existingRef ->
  truthy existingRef = true ->
  param metadata = Some pm ->
  pm_in pm = Some l0 ->
  pm_name pm = Some n0 ->
  l0 <> location \/ (key <> "" /\ n0 <> key) ->
  exists message conflicting values,
    getParameterRef this metadata {| pd_in := Some location; pd_name := Some key |}
    = Throw (ConflictError message conflicting values).
Proof.
  intros Hr Hex Ht Hpm Hl Hn [Hne|[Hkey Hne]].
  { destruct (getParameterRef_other_location this metadata r existingRef pm l0
                location key) as (message & values & H & _); try done.
    by eexists _, _, _. }
  unfold getParameterRef. rewrite Hr, Hex, Ht, Hpm, Hl, Hn.
  cbn -[strict_neq truthy compact get_field template].
  destruct (_ || _); [by eexists _, _, _|].
  assert (Hk : truthy (JStr key) = true).
  { simpl. by apply negb_true_iff, str_eqb_false. }
  assert (Hc : strict_neq (get_field "name" existingRef) (JStr n0)
               || (truthy (JStr key)
                   && strict_neq (get_field "name" existingRef) (JStr key))
               = true).
  { rewrite Hk.
    destruct (get_field "name" existingRef) as [| | | |s| |]; simpl; try done.
    destruct (decide (s = n0)) as [->|Hs].
    - apply orb_true_iff. right. by apply negb_true_iff, str_eqb_false.
    - apply orb_true_iff. left. by apply negb_true_iff, str_eqb_false. }
  rewrite Hc. by eexists _, _, _.
Qed.

(** *** The parameters of a request, one at a time *)

Lemma mapM_Ok_each {A B : Type} (f : A -> Result B) xs ys x :
  mapM f xs = Ok ys -> In x xs -> exists y, f x = Ok y.
Proof.
  revert ys. induction xs as [|x0 xs IH]; intros ys; simpl; [done|].
  intros H Hin. apply bind_Ok in H as (y0 & H0 & H).
  apply bind_Ok in H as (ys' & H' & _).
  destruct Hin as [->|Hin]; [by exists y0|]. by apply (IH ys').
Qed.

Lemma mapM_first_throw {A B : Type} (f : A -> Result B) before x after e :
  Forall (fun x' => exists y, f x' = Ok y) before ->
  f x = Throw e ->
  mapM f (before ++ x :: after) = Throw e.
Proof.
  induction 1 as [|x' before [y Hy] _ IH]; intros Hx; simpl.
  - by rewrite Hx.
  - rewrite Hy. simpl. by rewrite IH.
Qed.

(** Two results that are both values, or the same exception. *)
Local Abbreviation alike r1 r2 :=
  (match r1, r2 with
   | Ok _, Ok _ => True
   | Throw e1, Throw e2 => e1 = e2
   | _, _ => False
   end).

Lemma generateInlineParameters_cons this x entries location :
  generateInlineParameters safeParse this (x :: entries) location =
  (c <- generateInlineParameters safeParse this [x] location ;;
   cs <- generateInlineParameters safeParse this entries location ;;
   Ok (c ++ cs)%list).
Proof.
  unfold generateInlineParameters. cbn [mapM].
  match goal with |- bind ?fx _ = _ => destruct fx end; simpl; [|done].
  by destruct (mapM _ entries).
Qed.

Lemma generateInlineParameters_alike this entries location :
  alike (generateInlineParameters safeParse this entries location)
        (mapM (fun d => generateInlineParameters safeParse this [d.2] d.1)
              (map (fun kv => (location, kv)) entries)).
Proof.
  induction entries as [|x entries IH]; [done|].
  rewrite generateInlineParameters_cons. cbn [map mapM fst snd].
  destruct (generateInlineParameters safeParse this [x] location) as [c|e];
    simpl; [|done].
  destruct (generateInlineParameters safeParse this entries location);
    destruct (mapM _ (map _ entries)); simpl; done.
Qed.

Lemma getParameters_alike this request :
  alike (getParameters safeParse this (Some request))
        (mapM (fun d => generateInlineParameters safeParse this [d.2] d.1)
              (declared_parameters request)).
Proof.
  unfold getParameters, declared_parameters. rewrite !mapM_app.
  assert (Hs : forall (section : option (list (string * ZodType))) location,
             alike (match section with
                    | Some entries =>
                        generateInlineParameters safeParse this entries location
                    | None => Ok []
                    end)
                   (mapM (fun d => generateInlineParameters safeParse this
                                     [d.2] d.1)
                         (map (fun kv => (location, kv)) (default [] section)))).
  { intros [entries|] location; simpl; [|done].
    apply generateInlineParameters_alike. }
  pose proof (Hs (Registry.query request) Zod.query) as Hq.
  pose proof (Hs (Registry.params request) Zod.path) as Hp.
  pose proof (Hs (Registry.headers request) Zod.header) as Hh.
  destruct (match Registry.query request with Some _ => _ | None => _ end);
    destruct (mapM _ (map _ (default [] (Registry.query request))));
    simpl; try done.
  destruct (match Registry.params request with Some _ => _ | None => _ end);
    destruct (mapM _ (map _ (default [] (Registry.params request))));
    simpl; try done.
  destruct (match Registry.headers request with Some _ => _ | None => _ end);
    destruct (mapM _ (map _ (default [] (Registry.headers request))));
    simpl; done.
Qed.

(** When the parameters of a request are converted, each one is. *)
Lemma getParameters_Ok_each this request converted d :
  getParameters safeParse this (Some request) = Ok converted ->
  In d (declared_parameters request) ->
  exists c, generateInlineParameters safeParse this [d.2] d.1 = Ok c.
Proof.
  intros H Hin. pose proof (getParameters_alike this request) as Ha.
  rewrite H in Ha.
  destruct (mapM _ (declared_parameters request)) as [cs|] eqn:M; [|done].
  by apply (mapM_Ok_each _ _ _ d) in M.
Qed.

(** The first parameter that throws ends the conversion of the request. *)
Lemma getParameters_first_throw this request before d after e :
  declared_parameters request = (before ++ d :: after)%list ->
  Forall (fun d' => exists c,
              generateInlineParameters safeParse this [d'.2] d'.1 = Ok c) before ->
  generateInlineParameters safeParse this [d.2] d.1 = Throw e ->
  getParameters safeParse this (Some request) = Throw e.
Proof.
  intros Hd Hb He. pose proof (getParameters_alike this request) as Ha.
  rewrite Hd in Ha.
  rewrite (mapM_first_throw _ before d after e Hb He) in Ha.
  by destruct (getParameters safeParse this (Some request)) as [|e']; [|subst].
Qed.

(** *** The registration at the time a route is converted *)

Lemma forEach_generateSingle_invariant_in (P : OpenapiGenerator -> Prop)
    d definitions this this' :
  In d definitions ->
  (forall t t', generateSingle safeParse t d = Ok t' -> P t') ->
  (forall t t' d', In d' definitions ->
                   generateSingle safeParse t d' = Ok t' -> P t -> P t') ->
  forEach_generateSingle safeParse this definitions = Ok this' -> P this'.
Proof.
  intros Hin Hadd Hkeep. revert this Hin Hkeep.
  induction definitions as [|d0 ds IH]; intros this Hin Hkeep; [done|]. simpl.
  intros H. apply bind_Ok in H as (this1 & H1 & H).
  destruct Hin as [->|Hin].
  - clear IH. apply Hadd in H1.
    assert (Hkeep' : forall t t' d', In d' ds ->
                       generateSingle safeParse t d' = Ok t' -> P t -> P t').
    { intros t t' d' Hd'. apply Hkeep. by right. }
    clear Hkeep Hadd. revert this1 H1 H Hkeep'.
    induction ds as [|d1 ds IH]; intros this1 H1; simpl; [by intros [= <-]|].
    intros H Hkeep. apply bind_Ok in H as (this2 & H2 & H).
    apply (IH this2); [|done|].
    + apply (Hkeep this1 _ d1); [by left|done..].
    + intros t t' d' Hd'. apply Hkeep. by right.
  - apply (IH this1); [done| |done].
    intros t t' d' Hd'. apply Hkeep. by right.
Qed.

(** The definitions before a route, in the order of generation, include
    every registered parameter, and all of them are registered. *)
Lemma parameters_before_routes definitions pre route post schema :
  sortDefinitions definitions = (pre ++ DRoute route :: post)%list ->
  In (DParameter schema) definitions ->
  In (DParameter schema) pre.
Proof.
  rewrite sortDefinitions_by_type.
  set (front := (filter (fun d => def_type d = "component") definitions
                 ++ filter (fun d => def_type d = "schema") definitions
                 ++ filter (fun d => def_type d = "parameter") definitions)%list).
  replace (_ ++ _ ++ _ ++ filter (fun d => def_type d = "route") definitions)%list
    with (front ++ filter (fun d => def_type d = "route") definitions)%list
    by (subst front; by rewrite <- !app_assoc).
  assert (Hfront : Forall (fun d => def_type d <> "route") front).
  { subst front. rewrite !Forall_app. repeat split;
      apply Forall_filter_type; by intros d ->. }
  assert (Hin : In (DParameter schema) definitions -> In (DParameter schema) front).
  { intros H. subst front. apply in_or_app. right. apply in_or_app. right.
    apply list_elem_of_In, list_elem_of_filter. split; [done|].
    by apply list_elem_of_In. }
  intros Hsplit H. apply Hin in H. clear Hin.
  revert pre Hsplit H. clearbody front.
  induction front as [|d front IH]; intros pre Hsplit H; [done|].
  apply Forall_cons in Hfront as [Hd Hfront].
  destruct pre as [|d' pre]; simpl in Hsplit.
  - injection Hsplit as -> _. by simpl in Hd.
  - injection Hsplit as -> Hsplit. destruct H as [<-|H]; [by left|].
    right. by apply IH.
Qed.

Lemma In_sortDefinitions_inv d definitions :
  In d (sortDefinitions definitions) -> In d definitions.
Proof.
  rewrite sortDefinitions_by_type. intros H.
  repeat (apply in_app_or in H as [H|H]);
    apply list_elem_of_In, list_elem_of_filter in H as [_ H];
    by apply list_elem_of_In.
Qed.

(** Once a parameter is registered, its reference id has an entry. *)
Lemma registration_in_force definitions this this' schema r :
  forEach_generateSingle safeParse this definitions = Ok this' ->
  In (DParameter schema) definitions ->
  truthy_refId (getMetadata schema) = Some r ->
  exists existing, obj_get r (paramRefs this') = Some (JObj existing).
Proof.
  intros H Hin Hr.
  eapply (forEach_generateSingle_invariant safeParse
            (fun t => exists o, obj_get r (paramRefs t) = Some (JObj o))
            _ _ _ _ Hin); [| |exact H].
  - intros t t' Ht.
    apply (generateSingle_paramRefs safeParse _ _ _ r) in Ht as [_ Ht].
    by apply (Ht schema).
  - intros t t' d' Ht.
    by apply (generateSingle_paramRefs safeParse _ _ _ r) in Ht as [Ht _].
Qed.

(** The entry is the one of the registration when no other parameter is
    registered under the reference id. *)
Lemma registration_entry definitions this this' schema r pm l0 n0 :
  forEach_generateSingle safeParse this definitions = Ok this' ->
  In (DParameter schema) definitions ->
  truthy_refId (getMetadata schema) = Some r ->
  param (getMetadata schema) = Some pm ->
  pm_in pm = Some l0 ->
  pm_name pm = Some n0 ->
  only_parameter_of r schema definitions ->
  exists existing,
    obj_get r (paramRefs this') = Some (JObj existing)
    /\ obj_get "in" existing = Some (JStr (location_str l0))
    /\ obj_get "name" existing = Some (JStr n0)
    /\ n0 <> "".
Proof.
  intros H Hin Hr Hpm Hl Hn Honly.
  assert (Hadd : forall t t',
             generateSingle safeParse t (DParameter schema) = Ok t' ->
             exists existing,
               obj_get r (paramRefs t') = Some (JObj existing)
               /\ obj_get "in" existing = Some (JStr (location_str l0))
               /\ obj_get "name" existing = Some (JStr n0)
               /\ n0 <> "").
  { intros t t' Ht. simpl in Ht.
    destruct (registered_parameter safeParse _ _ _ _ Ht Hr)
      as (pm' & l0' & n0' & existing & P' & L' & N' & Hn0 & _ & Hex & Hi & Hna).
    rewrite Hpm in P'. injection P' as <-.
    rewrite Hl in L'. injection L' as <-.
    rewrite Hn in N'. injection N' as <-.
    by exists existing. }
  eapply (forEach_generateSingle_invariant_in _ _ _ _ _ Hin Hadd); [|exact H].
  intros t t' d' Hd' Ht HP.
  destruct d' as [ty n c|s|s|route]; simpl in Ht.
  - by injection Ht as <-.
  - unfold generateSchemaDefinition in Ht.
    apply bind_Ok in Ht as (simple & _ & Ht).
    by destruct (truthy_refId (getMetadata s)); injection Ht as <-.
  - destruct (decide (truthy_refId (getMetadata s) = Some r)) as [Hs|Hs].
    + rewrite (Honly s Hd' Hs) in Ht. by apply (Hadd t).
    + unfold generateParameterDefinition in Ht.
      apply bind_Ok in Ht as (result & _ & Ht).
      destruct (truthy_refId (getMetadata s)) as [r'|]; injection Ht as <-;
        simpl; [|done].
      rewrite obj_get_set_ne; [done|]. intros ->. done.
  - unfold generateSingleRoute in Ht.
    apply bind_Ok in Ht as (? & _ & Ht).
    apply bind_Ok in Ht as (? & _ & Ht).
    apply bind_Ok in Ht as (? & _ & Ht).
    by injection Ht as <-.
Qed.

(** An exception of a definition is the exception of the generation. *)
Lemma forEach_generateSingle_throw pre d post this this1 e :
  forEach_generateSingle safeParse this pre = Ok this1 ->
  generateSingle safeParse this1 d = Throw e ->
  forEach_generateSingle safeParse this (pre ++ d :: post) = Throw e.
Proof.
  revert this. induction pre as [|d0 pre IH]; intros this; simpl.
  - intros [= ->] ->. done.
  - intros H Hd. apply bind_Ok in H as (t & Ht & H). rewrite Ht. simpl.
    by apply IH.
Qed.

Lemma only_parameter_of_incl r schema definitions pre :
  (forall d, In d pre -> In d definitions) ->
  only_parameter_of r schema definitions -> only_parameter_of r schema pre.
Proof. intros Hincl Honly schema' Hin. apply Honly. by apply Hincl. Qed.

Lemma reference_throws this key schema location e :
  getParameterRef this (getMetadata schema)
    {| pd_in := Some location; pd_name := Some key |} = Throw e ->
  generateInlineParameters safeParse this [(key, schema)] location = Throw e.
Proof.
  intros He.
  by apply (generateInlineParameters_throw safeParse this [] key schema []
              location []).
Qed.

Lemma route_throws definitions config pre route post this1 request
    generatedResponses before d after e :
  sortDefinitions definitions = (pre ++ DRoute route :: post)%list ->
  forEach_generateSingle safeParse new_generator pre = Ok this1 ->
  mapValuesM (zr_responses route)
    (fun response => JObj <$$> getResponse safeParse this1 response)
  = Ok generatedResponses ->
  zr_request route = Some request ->
  declared_parameters request = (before ++ d :: after)%list ->
  Forall (fun d' => exists converted,
              generateInlineParameters safeParse this1 [d'.2] d'.1 = Ok converted)
         before ->
  generateInlineParameters safeParse this1 [d.2] d.1 = Throw e ->
  generateDocument safeParse definitions config = Throw e.
Proof.
  intros Hsorted Hpre Hresp Hreq Hdecl Hbefore Hd.
  unfold generateDocument. rewrite Hsorted.
  rewrite (forEach_generateSingle_throw pre (DRoute route) post _ this1 e);
    [done|done|].
  simpl. unfold generateSingleRoute. rewrite Hresp. cbn [bind]. rewrite Hreq.
  by rewrite (getParameters_first_throw _ _ _ _ _ _ Hdecl Hbefore Hd).
Qed.

(** C8. Let a parameter schema be registered, in any registry, with a
    reference id; its metadata record a location and a name.  In every
    state of the generator that holds an entry for the reference id,
    referencing the schema in a section of a route for another location
    throws a [ConflictError] with key ["in"] whose values include both
    locations.  A registry that also holds a route referencing the schema
    at another location, or under another key than its name, never
    yields a document, whatever else is registered and in whichever order.
    When the generation reaches the reference, that is when the
    definitions generated before the route, the responses of the route and
    the parameters declared before the reference are converted, the
    exception of the generation is the [ConflictError] with key ["in"],
    listing the registered location and the location of the section (for
    a parameter registered with location [header] and referenced in the
    query section: [header] and [query]); and for a reference at the
    registered location under another key, the parameter being the only one
    registered under its reference id, it is the [ConflictError] with key
    ["name"], listing both names. *)
Theorem C8_parameter_reference_conflicts schema r pm l0 n0 definitions config :
  truthy_refId (getMetadata schema) = Some r ->
  param (getMetadata schema) = Some pm ->
  pm_in pm = Some l0 ->
  pm_name pm = Some n0 ->
  In (DParameter schema) definitions ->
  (forall this existingRef before key after location converted,
      obj_get r (paramRefs this) = Some existingRef ->
      truthy existingRef = true ->
      l0 <> location ->
      generateInlineParameters safeParse this before location = Ok converted ->
      exists message values,
        generateInlineParameters safeParse this
          (before ++ (key, schema) :: after) location
        = Throw (ConflictError message "in" values)
        /\ In (JStr (location_str l0)) values
        /\ In (JStr (location_str location)) values)
  /\ (forall route request location key,
        In (DRoute route) definitions ->
        zr_request route = Some request ->
        In (location, (key, schema)) (declared_parameters request) ->
        l0 <> location \/ (key <> "" /\ n0 <> key) ->
        exists e, generateDocument safeParse definitions config = Throw e)
  /\ (forall pre route post this1 request generatedResponses before location
             key after,
        sortDefinitions definitions = (pre ++ DRoute route :: post)%list ->
        forEach_generateSingle safeParse new_generator pre = Ok this1 ->
        mapValuesM (zr_responses route)
          (fun response => JObj <$$> getResponse safeParse this1 response)
        = Ok generatedResponses ->
        zr_request route = Some request ->
        declared_parameters request
        = (before ++ (location, (key, schema)) :: after)%list ->
        Forall (fun d => exists converted,
                    generateInlineParameters safeParse this1 [d.2] d.1
                    = Ok converted) before ->
        (l0 <> location ->
         exists message values,
           generateDocument safeParse definitions config
           = Throw (ConflictError message "in" values)
           /\ In (JStr (location_str l0)) values
           /\ In (JStr (location_str location)) values)
        /\ (l0 = location -> key <> "" -> n0 <> key ->
            only_parameter_of r schema definitions ->
            exists values,
              generateDocument safeParse definitions config
              = Throw (ConflictError "Conflicting names for parameter" "name"
                         values)
              /\ In (JStr n0) values
              /\ In (JStr key) values)).
Proof.
  intros Hr Hpm Hl Hn Hreg. split; [|split].
  - intros this existingRef before key after location converted Hex Ht Hne Hb.
    destruct (getParameterRef_other_location this _ _ _ _ _ _ key
                Hr Hex Ht Hpm Hl Hne) as (message & values & He & H1 & H2).
    exists message, values. split; [|done].
    by apply generateInlineParameters_throw with converted.
  - intros route request location key Hroute Hreq Hin Hconflict.
    destruct (generateDocument safeParse definitions config) as [document|e]
      eqn:G; [exfalso|by exists e].
    apply document_fields in G as (this & Hthis & _).
    apply (In_sortDefinitions _ definitions) in Hroute.
    apply in_split in Hroute as (pre & post & Hsorted).
    rewrite Hsorted in Hthis.
    apply forEach_generateSingle_app in Hthis as (this1 & Hpre & Hrest).
    simpl in Hrest. apply bind_Ok in Hrest as (this2 & Hsingle & _).
    unfold generateSingleRoute in Hsingle.
    apply bind_Ok in Hsingle as (generated & _ & Hsingle).
    apply bind_Ok in Hsingle as (parameters & Hparameters & _).
    rewrite Hreq in Hparameters.
    apply (getParameters_Ok_each _ _ _ (location, (key, schema))) in Hparameters
      as (c & Hc); [|done].
    destruct (registration_in_force pre new_generator this1 schema r)
      as (existing & Hex); [done| |done|].
    { by apply (parameters_before_routes definitions pre route post). }
    destruct (getParameterRef_conflict this1 _ _ _ _ _ _ location key
                Hr Hex eq_refl Hpm Hl Hn Hconflict)
      as (message & conflicting & values & He).
    apply reference_throws in He. simpl in Hc. by rewrite He in Hc.
  - intros pre route post this1 request generatedResponses before location key
      after Hsorted Hpre Hresp Hreq Hdecl Hbefore.
    assert (Hin : In (DParameter schema) pre)
      by by apply (parameters_before_routes definitions pre route post).
    split.
    + intros Hne.
      destruct (registration_in_force pre new_generator this1 schema r)
        as (existing & Hex); [done..|].
      destruct (getParameterRef_other_location this1 _ _ _ _ _ _ key
                  Hr Hex eq_refl Hpm Hl Hne) as (message & values & He & H1 & H2).
      exists message, values. split; [|done].
      apply (route_throws _ _ _ _ _ _ _ _ _ _ _ _
               Hsorted Hpre Hresp Hreq Hdecl Hbefore).
      by apply reference_throws.
    + intros <- Hkey Hne Honly.
      destruct (registration_entry pre new_generator this1 schema r pm l0 n0)
        as (existing & Hex & Hi & Hna & Hn0); [done..| |].
      { apply (only_parameter_of_incl _ _ definitions); [|done].
        intros d Hd. apply In_sortDefinitions_inv. rewrite Hsorted.
        apply in_or_app. by left. }
      destruct (getParameterRef_other_name this1 _ _ _ _ _ _ key
                  Hr Hex Hi Hpm Hl Hn Hn0 Hkey Hne) as (values & He & H1 & H2).
      exists values. split; [|done].
      apply (route_throws _ _ _ _ _ _ _ _ _ _ _ _
               Hsorted Hpre Hresp Hreq Hdecl Hbefore).
      by apply reference_throws.
Qed.

End WithValidator.

End ConflictFacts.

(** ** Extensions of a registered schema *)

Module ExtensionFacts.
Import Js Zod Registry RuntimeRequest Endpoint Generator Spec JsFacts GeneratorFacts.
Import GeneratorOrderFacts DocumentFacts ConversionFacts CompositionFacts.
Import ConflictFacts.

(** *** Lists *)

Lemma first_such {A : Type} (p : A -> bool) x l :
  In x l -> p x = true ->
  exists l1 y l2,
    l = (l1 ++ y :: l2)%list /\ p y = true /\ Forall (fun z => p z = false) l1.
Proof.
  induction l as [|a l IH]; [done|]. intros Hin Hx.
  destruct (p a) eqn:Ha.
  - by exists [], a, l.
  - destruct Hin as [->|Hin]; [congruence|].
    destruct (IH Hin Hx) as (l1 & y & l2 & -> & Hy & Hl1).
    exists (a :: l1), y, l2. split; [done|]. split; [done|]. by constructor.
Qed.

(** A prefix of a list up to an element that is not in the front part
    continues the front part. *)
Lemma split_after_front {A : Type} (P : A -> Prop) front rest pre y post :
  (front ++ rest)%list = (pre ++ y :: post)%list ->
  Forall (fun z => ~ P z) front -> P y ->
  exists pre', pre = (front ++ pre')%list /\ rest = (pre' ++ y :: post)%list.
Proof.
  revert pre. induction front as [|a front IH]; intros pre Hsplit Hfront Hy.
  - by exists pre.
  - apply Forall_cons in Hfront as [Ha Hfront].
    destruct pre as [|b pre]; simpl in Hsplit.
    + injection Hsplit as -> _. done.
    + injection Hsplit as -> Hsplit.
      destruct (IH pre Hsplit Hfront Hy) as (pre' & -> & Hrest).
      by exists pre'.
Qed.

(** An element that is not in the back part ends in the front part. *)
Lemma split_before_back {A : Type} (P : A -> Prop) front back pre y post :
  (front ++ back)%list = (pre ++ y :: post)%list ->
  Forall (fun z => ~ P z) back -> P y ->
  exists post', front = (pre ++ y :: post')%list.
Proof.
  revert pre. induction front as [|a front IH]; intros pre Hsplit Hback Hy.
  - simpl in Hsplit. exfalso.
    assert (Hin : In y back) by (rewrite Hsplit; apply in_or_app; right; by left).
    rewrite List.Forall_forall in Hback. by apply (Hback y).
  - destruct pre as [|b pre]; simpl in Hsplit.
    + injection Hsplit as -> _. by exists front.
    + injection Hsplit as -> Hsplit.
      destruct (IH pre Hsplit Hback Hy) as (post' & ->). by exists post'.
Qed.

(** A filter keeps the order: a split of the filtered list is one of the
    list. *)
Lemma filter_split {A : Type} (P : A -> Prop) `{forall x, Decision (P x)}
    (l : list A) a y b :
  filter P l = (a ++ y :: b)%list ->
  exists l1 l2, l = (l1 ++ y :: l2)%list /\ filter P l1 = a.
Proof.
  revert a. induction l as [|x l IH]; intros a; [by destruct a|].
  rewrite filter_cons. destruct (decide (P x)) as [Hx|Hx].
  - destruct a as [|x' a]; simpl.
    + intros [= <- _]. by exists [], l.
    + intros [= <- Hl]. destruct (IH a Hl) as (l1 & l2 & -> & <-).
      exists (x :: l1), l2. split; [done|].
      by rewrite filter_cons, decide_True.
  - intros Hl. destruct (IH a Hl) as (l1 & l2 & -> & <-).
    exists (x :: l1), l2. split; [done|].
    by rewrite filter_cons, decide_False.
Qed.

(** The schemas are generated in the order of their registration: what
    is generated before a schema and is a schema was registered before
    it. *)
Lemma schemas_in_registration_order definitions pre s post :
  sortDefinitions definitions = (pre ++ DSchema s :: post)%list ->
  exists l1 l2,
    definitions = (l1 ++ DSchema s :: l2)%list
    /\ forall s', In (DSchema s') pre -> In (DSchema s') l1.
Proof.
  rewrite sortDefinitions_by_type. intros Hsplit.
  apply (split_after_front (fun d => def_type d = "schema")) in Hsplit
    as (pre' & -> & Hsplit); [|by apply Forall_filter_type; intros d ->|done].
  apply (split_before_back (fun d => def_type d = "schema")) in Hsplit
    as (post' & Hsplit);
    [|rewrite Forall_app; split; apply Forall_filter_type; by intros d ->|done].
  apply filter_split in Hsplit as (l1 & l2 & -> & <-).
  exists l1, l2. split; [done|]. intros s' Hin.
  apply in_app_or in Hin as [Hin|Hin].
  - apply list_elem_of_In, list_elem_of_filter in Hin as [Hin _]. done.
  - apply list_elem_of_In, list_elem_of_filter in Hin as [_ Hin].
    by apply list_elem_of_In.
Qed.

Section WithValidator.

Variable safeParse : ZodType -> Json -> SafeParseReturnType.

(** *** The schema references are those of the schemas generated *)

Lemma generateSingle_schemaRefs_from this d this' k v :
  generateSingle safeParse this d = Ok this' ->
  obj_get k (schemaRefs this') = Some v ->
  is_Some (obj_get k (schemaRefs this))
  \/ exists s, d = DSchema s /\ truthy_refId (getMetadata s) = Some k.
Proof.
  destruct d as [ty n c|s|s|route]; simpl.
  - intros [= <-]. simpl. intros ->. by left.
  - unfold generateSchemaDefinition. intros H.
    apply bind_Ok in H as (simple & _ & H).
    destruct (truthy_refId (getMetadata s)) as [r|] eqn:R;
      injection H as <-; simpl.
    + destruct (decide (k = r)) as [->|Hne].
      * intros _. right. by exists s.
      * rewrite obj_get_set_ne; [|done]. intros ->. by left.
    + intros ->. by left.
  - unfold generateParameterDefinition. intros H.
    apply bind_Ok in H as (result & _ & H).
    destruct (truthy_refId (getMetadata s)); injection H as <-; simpl;
      intros ->; by left.
  - unfold generateSingleRoute. intros H.
    apply bind_Ok in H as (? & _ & H).
    apply bind_Ok in H as (? & _ & H).
    apply bind_Ok in H as (? & _ & H).
    injection H as <-. simpl. intros ->. by left.
Qed.

Lemma forEach_generateSingle_schemaRefs_from definitions this this' k v :
  forEach_generateSingle safeParse this definitions = Ok this' ->
  obj_get k (schemaRefs this') = Some v ->
  is_Some (obj_get k (schemaRefs this))
  \/ exists s, In (DSchema s) definitions
               /\ truthy_refId (getMetadata s) = Some k.
Proof.
  revert this. induction definitions as [|d definitions IH]; intros this; simpl.
  - intros [= <-] ->. by left.
  - intros H Hk. apply bind_Ok in H as (this1 & H1 & H).
    destruct (IH _ H Hk) as [[v1 Hv1]|(s & Hs & Hr)].
    + destruct (generateSingle_schemaRefs_from _ _ _ _ _ H1 Hv1)
        as [?|(s & -> & Hr)]; [by left|].
      right. exists s. split; [by left|done].
    + right. exists s. split; [by right|done].
Qed.

(** *** The conversion of a registered extension *)

Lemma extension_is_converted this d shape unknownKeys m parent this' :
  openapi d = Some m ->
  Zod.extendedFrom m = Some parent ->
  parent <> "" ->
  obj_get "type" (schemaObject m) = None ->
  (forall r, truthy_refId m = Some r -> obj_get r (schemaRefs this) = None) ->
  generateSchemaDefinition safeParse this (ZodObject d shape unknownKeys)
  = Ok this' ->
  is_Some (obj_get parent (schemaRefs this)).
Proof.
  intros Hm Hext Hparent Htype Hfresh. unfold generateSchemaDefinition.
  intros H. apply bind_Ok in H as (simple & H & _).
  unfold stack_bound in H.
  destruct (4 * S (height (ZodObject d shape unknownKeys)))%nat
    as [|[|[|fuel]]] eqn:F; [lia..|].
  clear F. revert H. cbn [generateSimpleSchema unwrapChained _def].
  rewrite Hm. cbn [mbind option_bind].
  destruct (truthy_refId m) as [r|] eqn:R.
  - cbn [mbind option_bind]. rewrite (Hfresh r eq_refl).
    cbn [fmap option_fmap option_map mbind option_bind].
    rewrite Htype. intros H. apply bind_Ok in H as (result & H & _).
    cbn [toOpenapiSchema] in H.
    destruct (extended_object_conversion safeParse (S fuel) this d shape
                unknownKeys (isNullable safeParse (ZodObject d shape unknownKeys))
                parent) as [Hok _]; [by rewrite Hm|done|].
    destruct (Hok _ H) as (registered & -> & _). by eexists.
  - cbn [fmap option_fmap option_map mbind option_bind].
    rewrite Htype. intros H. apply bind_Ok in H as (result & H & _).
    cbn [toOpenapiSchema] in H.
    destruct (extended_object_conversion safeParse (S fuel) this d shape
                unknownKeys (isNullable safeParse (ZodObject d shape unknownKeys))
                parent) as [Hok _]; [by rewrite Hm|done|].
    destruct (Hok _ H) as (registered & -> & _). by eexists.
Qed.

(** X12. Let an object that extends a parent id be registered as a schema
    under a reference id of its own, under which nothing else is
    registered, neither id being the name of a member every object
    inherits, and its metadata giving no type.  The generation returns a
    document only if a schema with the parent id was registered before
    it: registering the parent after the extension, or not at all, makes
    the generation fail.  The exception of the conversion, in a state
    without an entry for the parent id and once the properties are
    converted, is the error Attempt to extend an unregistered schema with
    id <parent>. *)
Theorem extended_object_needs_registered_parent definitions config d shape
    unknownKeys m r parent :
  let extension := ZodObject d shape unknownKeys in
  openapi d = Some m ->
  truthy_refId m = Some r ->
  Zod.extendedFrom m = Some parent ->
  parent <> "" ->
  inherited parent = false ->
  inherited r = false ->
  obj_get "type" (schemaObject m) = None ->
  In (DSchema extension) definitions ->
  only_schema_of r extension definitions ->
  (forall document,
      generateDocument safeParse definitions config = Ok document ->
      exists registered before after,
        definitions = (before ++ DSchema extension :: after)%list
        /\ In (DSchema registered) before
        /\ truthy_refId (getMetadata registered) = Some parent)
  /\ (forall fuel this isNullable schemaProperties,
        obj_get parent (schemaRefs this) = None ->
        mapValuesM shape
          (fun propSchema =>
             JObj <$$> generateInnerSchema safeParse fuel this propSchema None)
        = Ok schemaProperties ->
        toOpenapiObjectSchema safeParse (S fuel) this extension isNullable
        = Throw (Error ("Attempt to extend an unregistered schema with id "
                          ++ parent ++ "."))).
Proof.
  intros extension Hm Hr Hext Hparent _ _ Htype Hin Honly. split.
  2:{ intros fuel this isNullable schemaProperties Hnone Hsp.
      destruct (extended_object_conversion safeParse fuel this d shape
                  unknownKeys isNullable parent) as [_ Hthrow];
        [by rewrite Hm|done|].
      by apply (Hthrow Hnone schemaProperties). }
  intros document G.
  apply document_fields in G as (this & Hthis & _).
  set (p := fun definition =>
              match definition with
              | DSchema s => bool_decide (truthy_refId (getMetadata s) = Some r)
              | _ => false
              end).
  assert (Hown : truthy_refId (getMetadata extension) = Some r).
  { unfold truthy_refId, getMetadata in *. simpl. rewrite Hm. simpl. exact Hr. }
  destruct (first_such p (DSchema extension) (sortDefinitions definitions))
    as (pre & y & post & Hsorted & Hy & Hpre).
  { by apply In_sortDefinitions. }
  { simpl. by apply bool_decide_eq_true. }
  assert (Hyin : In y definitions).
  { apply In_sortDefinitions_inv. rewrite Hsorted. apply in_or_app. right. by left. }
  destruct y as [| s | |]; try done.
  simpl in Hy. apply bool_decide_eq_true in Hy.
  rewrite (Honly s Hyin Hy) in Hsorted. clear s Hyin Hy.
  rewrite Hsorted in Hthis.
  apply forEach_generateSingle_app in Hthis as (this1 & Hthis1 & Hrest).
  simpl in Hrest. apply bind_Ok in Hrest as (this2 & Hsingle & _).
  assert (Hfrom : forall k v,
             obj_get k (schemaRefs this1) = Some v ->
             exists s, In (DSchema s) pre /\ truthy_refId (getMetadata s) = Some k).
  { intros k v Hk.
    destruct (forEach_generateSingle_schemaRefs_from _ _ _ _ _ Hthis1 Hk)
      as [[? Hnew]|Hs]; [done|exact Hs]. }
  assert (Hfresh : forall r0, truthy_refId m = Some r0 ->
                              obj_get r0 (schemaRefs this1) = None).
  { intros r0 Hr0. rewrite Hr in Hr0. injection Hr0 as <-.
    destruct (obj_get r (schemaRefs this1)) as [v|] eqn:E; [|done].
    destruct (Hfrom _ _ E) as (s & Hs & Hrs).
    rewrite List.Forall_forall in Hpre. specialize (Hpre _ Hs). simpl in Hpre.
    by apply bool_decide_eq_false in Hpre. }
  destruct (extension_is_converted this1 d shape unknownKeys m parent this2
              Hm Hext Hparent Htype Hfresh Hsingle) as (v & Hv).
  destruct (Hfrom _ _ Hv) as (registered & Hreg & Hrp).
  destruct (schemas_in_registration_order _ _ _ _ Hsorted)
    as (before & after & Hdefs & Hbefore).
  exists registered, before, after. split; [done|]. split; [by apply Hbefore|done].
Qed.

End WithValidator.

End ExtensionFacts.

(** ** Properties of the response schema map *)

Module ResponseFacts.
Import Js Zod Registry RuntimeResponse JsFacts.

Section MapFacts.

Context {K V : Type} `{EqDecision K}.

Lemma Map_get_set_eq (k : K) (v : V) m : Map_get k (Map_set k v m) = Some v.
Proof.
  induction m as [|[k' v'] m IH]; simpl.
  - by rewrite decide_True.
  - destruct (decide (k = k')) as [->|Hne]; simpl.
    + by rewrite decide_True.
    + by rewrite decide_False.
Qed.

Lemma Map_get_set_ne (k k' : K) (v : V) m :
  k <> k' -> Map_get k (Map_set k' v m) = Map_get k m.
Proof.
  intros Hne. induction m as [|[k0 v0] m IH]; simpl.
  - by rewrite decide_False.
  - destruct (decide (k' = k0)) as [->|Hne']; simpl.
    + by rewrite !decide_False.
    + destruct (decide (k = k0)); [done|]. apply IH.
Qed.

End MapFacts.

Section WithParseInt.

Variable parseInt : string -> option Z.

Local Abbreviation schemas_of e :=
  {| rs_body := re_bodySchema e; rs_headers := Some (re_headerSchemaList e) |}.

Lemma add_response_entry_get map e k mediaType :
  Map_get k (add_response_entry map e) ≫= Map_get mediaType =
  if bool_decide (re_statusCode e = k /\ re_mediaType e = mediaType)
  then Some (schemas_of e)
  else Map_get k map ≫= Map_get mediaType.
Proof.
  unfold add_response_entry.
  destruct (decide (k = re_statusCode e)) as [->|Hk].
  - rewrite Map_get_set_eq. simpl.
    destruct (decide (mediaType = re_mediaType e)) as [->|Hm].
    + rewrite Map_get_set_eq. by rewrite bool_decide_eq_true_2.
    + rewrite Map_get_set_ne; [|done].
      rewrite bool_decide_eq_false_2; [|by intros [_ ?]].
      by destruct (Map_get (re_statusCode e) map).
  - rewrite Map_get_set_ne; [|done].
    rewrite bool_decide_eq_false_2; [done|]. by intros [? _].
Qed.

Lemma fold_add_response_entry_sound entries map k mediaType schemas :
  Map_get k (fold_left add_response_entry entries map) ≫= Map_get mediaType
  = Some schemas ->
  (exists e, In e entries /\ re_statusCode e = k /\ re_mediaType e = mediaType
             /\ schemas = schemas_of e)
  \/ Map_get k map ≫= Map_get mediaType = Some schemas.
Proof.
  revert map. induction entries as [|e entries IH]; intros map; simpl.
  - by right.
  - intros H. apply IH in H as [(e' & Hin & H)|H].
    + left. exists e'. split; [by right|done].
    + rewrite add_response_entry_get in H. case_bool_decide as Hd.
      * injection H as <-. left. exists e. split; [by left|]. by destruct Hd.
      * by right.
Qed.

Lemma fold_add_response_entry_complete entries map e :
  In e entries ->
  (forall e', In e' entries ->
              re_statusCode e' = re_statusCode e ->
              re_mediaType e' = re_mediaType e -> e' = e) ->
  Map_get (re_statusCode e) (fold_left add_response_entry entries map)
    ≫= Map_get (re_mediaType e)
  = Some (schemas_of e).
Proof.
  induction entries as [|e' entries IH] using rev_ind; [done|].
  intros Hin Huniq. rewrite fold_left_app. simpl.
  rewrite add_response_entry_get. case_bool_decide as Hd.
  - destruct Hd as [Hs Hm].
    rewrite (Huniq e'); [done| |done|done]. apply in_or_app. right. by left.
  - apply IH.
    + apply in_app_or in Hin as [Hin|[->|[]]]; [done|]. exfalso. by apply Hd.
    + intros e0 Hin0. apply Huniq. apply in_or_app. by left.
Qed.

(** X24. For a config with responses, every entry of the extracted
    response schema map at a status and media type comes from a declared
    response whose parsed status code and content media type are those,
    with its body schema (when it is a zod schema) and its header
    schemas; and a declared status and media type that occur once are
    found in the map with exactly these schemas. *)
Theorem response_schema_map_holds_declared_schemas config responses :
  Registry.responses config = Some responses ->
  exists schemaMap,
    extractResponseSchemaMap parseInt config = Some schemaMap
    /\ (forall status mediaType schemas,
          Map_get status schemaMap ≫= Map_get mediaType = Some schemas ->
          exists statusCode response content media,
            In (statusCode, response) responses
            /\ parseInt statusCode = status
            /\ rc_content response = Some content
            /\ In (mediaType, media) content
            /\ rs_body schemas
               = match media with IsZod z => Some z | IsSpec _ => None end
            /\ rs_headers schemas = Some (headerSchemaList_of response))
    /\ (forall statusCode response content mediaType media,
          In (statusCode, response) responses ->
          rc_content response = Some content ->
          In (mediaType, media) content ->
          NoDup (map fst content) ->
          (forall statusCode' response',
              In (statusCode', response') responses ->
              parseInt statusCode' = parseInt statusCode ->
              (statusCode', response') = (statusCode, response)) ->
          Map_get (parseInt statusCode) schemaMap ≫= Map_get mediaType
          = Some {| rs_body :=
                      match media with IsZod z => Some z | IsSpec _ => None end;
                    rs_headers := Some (headerSchemaList_of response) |}).
Proof.
  intros Hr. unfold extractResponseSchemaMap. rewrite Hr.
  eexists. split; [reflexivity|]. split.
  - intros status mediaType schemas H.
    apply fold_add_response_entry_sound in H as [(e & Hin & Hs & Hm & ->)|H];
      [|done].
    apply in_flat_map in Hin as ([code resp] & Hin & He). simpl in He.
    unfold response_entries in He.
    destruct (rc_content resp) as [content|] eqn:C; [|done].
    apply in_map_iff in He as ([mt media] & <- & Hmedia). simpl in *. subst.
    by exists code, resp, content, media.
  - intros code resp content mt media Hin Hc Hmedia Hnd Huniq.
    set (e := {| re_statusCode := parseInt code; re_mediaType := mt;
                 re_bodySchema :=
                   match media with IsZod z => Some z | IsSpec _ => None end;
                 re_headerSchemaList := headerSchemaList_of resp |}).
    apply (fold_add_response_entry_complete _ [] e).
    + apply in_flat_map. exists (code, resp). split; [done|]. simpl.
      unfold response_entries. rewrite Hc. apply in_map_iff.
      by exists (mt, media).
    + intros e' Hin' Hs Hm.
      apply in_flat_map in Hin' as ([code' resp'] & Hin' & He'). simpl in He'.
      unfold response_entries in He'.
      destruct (rc_content resp') as [content'|] eqn:C'; [|done].
      apply in_map_iff in He' as ([mt' media'] & <- & Hmedia'). simpl in *.
      specialize (Huniq _ _ Hin' Hs). injection Huniq as -> ->.
      rewrite Hc in C'. injection C' as <-. subst mt'.
      assert (media' = media) as ->; [|done].
      clear -Hnd Hmedia Hmedia'.
      induction content as [|[k v] content IH]; [done|].
      inversion Hnd as [|?? Hk Hnd']; subst.
      destruct Hmedia as [[= -> ->]|Hmedia], Hmedia' as [[= ->]|Hmedia'].
      * done.
      * exfalso. apply Hk. apply list_elem_of_In, in_map_iff. by exists (mt, media').
      * exfalso. apply Hk. apply list_elem_of_In, in_map_iff. by exists (mt, media).
      * by apply IH.
Qed.

End WithParseInt.

End ResponseFacts.

(** ** Properties of the client *)

Module ClientFacts.
Import Js Zod Registry RuntimeRequest RuntimeResponse Endpoint Server Client.
Import JsFacts.

Lemma toUrlSearchParams_keys query k v :
  In (k, v) (toUrlSearchParams query) -> In k (keys query).
Proof.
  unfold toUrlSearchParams. intros H.
  apply in_flat_map in H as ([k' x] & Hin & H). simpl in H.
  assert (k = k') as ->.
  { destruct x; simpl in H; try (by destruct H as [[= ->]|[]]).
    apply in_map_iff in H as (? & [= -> _] & _). done. }
  unfold keys. apply in_map_iff. by exists (k', x).
Qed.

Lemma filter_key_absent query k :
  ~ In k (keys query) ->
  List.filter (fun kv : string * string => str_eqb kv.1 k) (toUrlSearchParams query)
  = [].
Proof.
  intros Hk.
  destruct (List.filter _ _) as [|[k' v] l] eqn:F; [done|]. exfalso.
  assert (Hin : In (k', v) (List.filter (fun kv : string * string => str_eqb kv.1 k)
                              (toUrlSearchParams query))).
  { rewrite F. by left. }
  apply filter_In in Hin as [Hin Hk']. simpl in Hk'.
  apply str_eqb_true in Hk' as ->. by apply toUrlSearchParams_keys in Hin.
Qed.

Lemma filter_all_true {A : Type} (f : A -> bool) l :
  Forall (fun x => f x = true) l -> List.filter f l = l.
Proof.
  induction 1 as [|x l Hx _ IH]; simpl; [done|]. by rewrite Hx, IH.
Qed.

Lemma filter_all_false {A : Type} (f : A -> bool) l :
  Forall (fun x => f x = false) l -> List.filter f l = [].
Proof.
  induction 1 as [|x l Hx _ IH]; simpl; [done|]. by rewrite Hx, IH.
Qed.

(** X26. The search parameters the client builds from a query object
    with distinct keys give back, by getAll(key), the string forms of
    all elements of an array value or of the single value, and by
    get(key) the first of them, null for an absent key or an empty
    array: what the router reads is what the client was given. *)
Theorem query_values_reach_the_router query k :
  NoDup (keys query) ->
  searchParams_getAll (toUrlSearchParams query) k =
  JArr match obj_get k query with
       | Some (JArr xs) => map (fun v => JStr (toStringValue v)) xs
       | Some v => [JStr (toStringValue v)]
       | None => []
       end
  /\ searchParams_get (toUrlSearchParams query) k =
     match obj_get k query with
     | Some (JArr []) => JNull
     | Some (JArr (x :: _)) => JStr (toStringValue x)
     | Some v => JStr (toStringValue v)
     | None => JNull
     end.
Proof.
  intros Hnd.
  assert (Hall : List.filter (fun kv : string * string => str_eqb kv.1 k)
                   (toUrlSearchParams query)
                 = match obj_get k query with
                   | Some (JArr xs) => map (fun v => (k, toStringValue v)) xs
                   | Some v => [(k, toStringValue v)]
                   | None => []
                   end).
  { induction query as [|[k0 x] query IH]; [done|].
    inversion Hnd as [|?? Hk0 Hnd']; subst.
    unfold toUrlSearchParams. cbn [flat_map fst snd].
    fold (toUrlSearchParams query).
    rewrite List.filter_app. simpl obj_get.
    destruct (str_eqb k k0) eqn:E.
    - apply str_eqb_true in E as ->.
      rewrite filter_key_absent; [|by rewrite <- list_elem_of_In].
      rewrite app_nil_r.
      destruct x; simpl; rewrite ?str_eqb_refl; try done.
      apply filter_all_true.
      apply List.Forall_forall. intros [k' v'] Hin.
      apply in_map_iff in Hin as (? & [= <- _] & _).
      apply str_eqb_refl.
    - rewrite IH; [|done].
      assert (str_eqb k0 k = false) as E'.
      { apply str_eqb_false. apply str_eqb_false in E. congruence. }
      rewrite filter_all_false; [done|].
      destruct x; simpl; try (constructor; [done|constructor]).
      apply List.Forall_forall. intros [k' v'] Hin.
      apply in_map_iff in Hin as (? & [= <- _] & _). done. }
  split.
  - unfold searchParams_getAll. rewrite Hall.
    destruct (obj_get k query) as [[]|]; simpl; try done.
    by rewrite map_map.
  - unfold searchParams_get.
    assert (Hfind : forall (l : list (string * string)),
               List.find (fun kv => str_eqb kv.1 k) l
               = hd_error (List.filter (fun kv => str_eqb kv.1 k) l)).
    { induction l as [|[k' v'] l IHl]; simpl; [done|].
      by destruct (str_eqb k' k). }
    rewrite Hfind, Hall.
    destruct (obj_get k query) as [[| | | | |[|x xs]|]|]; simpl; done.
Qed.

Section WithPlatform.

Variable safeParse : ZodType -> Json -> SafeParseReturnType.
Variable parseInt : string -> option Z.

Lemma validateResponseHeaders_accepts responseHeaders schemas validated :
  validateResponseHeaders safeParse responseHeaders schemas = inr validated ->
  Forall2 (fun ns kv =>
             kv.1 = ns.1
             /\ exists value,
                 Headers_get responseHeaders ns.1 = Some value
                 /\ safeParse ns.2 value = ParseSuccess kv.2)
          schemas validated.
Proof.
  revert validated. induction schemas as [|[n s] schemas IH]; intros validated;
    simpl.
  - intros [= <-]. constructor.
  - destruct (Headers_get responseHeaders n) as [value|] eqn:G; [|done].
    destruct (safeParse s value) as [data|] eqn:P; [|done].
    destruct (validateResponseHeaders _ _ _) as [e|vs]; [done|].
    intros [= <-]. constructor; [|by apply IH].
    split; [done|]. by exists value.
Qed.

Lemma openapiFetch_with_responses endpoint response returned schemaMap :
  extractResponseSchemaMap parseInt (config endpoint) = Some schemaMap ->
  openapiFetch safeParse parseInt endpoint response = Returns returned ->
  exists contentType schemas responseBody,
    Headers_get (fr_headers response) "content-type" = Some (JStr contentType)
    /\ Map_get (Some (fr_status response)) schemaMap ≫= Map_get contentType
       = Some schemas
    /\ cr_status returned = fr_status response
    /\ cr_mediaType returned = contentType
    /\ (if str_eqb contentType "application/json"
        then fr_json response = JsonValue responseBody
        else if String.prefix "text/" contentType
             then responseBody = JStr (fr_text response)
             else responseBody = fr_body response)
    /\ (forall headerSchemas,
          rs_headers schemas = Some headerSchemas ->
          exists validated,
            Forall2 (fun ns kv =>
                       kv.1 = ns.1
                       /\ exists value,
                           Headers_get (fr_headers response) ns.1 = Some value
                           /\ safeParse ns.2 value = ParseSuccess kv.2)
                    headerSchemas validated
            /\ (is_Some (rs_body schemas) ->
                cr_headers returned = ValidatedHeaders (fromEntries validated)))
    /\ match rs_body schemas with
       | Some responseBodySchema =>
           safeParse responseBodySchema responseBody
           = ParseSuccess (cr_data returned)
       | None =>
           cr_data returned = responseBody
           /\ cr_headers returned = ResponseHeaders (fr_headers response)
       end.
Proof.
  intros Hmap. unfold openapiFetch. rewrite Hmap. cbv zeta.
  assert (Hct : Headers_get (fr_headers response) "content-type"
                = Some (default JNull
                          (Headers_get (fr_headers response) "content-type")))
    by reflexivity.
  destruct (default JNull (Headers_get (fr_headers response) "content-type"))
    as [| | | |ct| |] eqn:CT; try done.
  set (read := if str_eqb ct "application/json" then _ else _).
  assert (Hread : forall body,
             read = inr body ->
             if str_eqb ct "application/json"
             then fr_json response = JsonValue body
             else if String.prefix "text/" ct
                  then body = JStr (fr_text response)
                  else body = fr_body response).
  { subst read. intros body.
    destruct (str_eqb ct "application/json").
    - destruct (fr_json response); [by intros [= ->]|done].
    - destruct (String.prefix "text/" ct); by intros [= ->]. }
  destruct read as [e|responseBody]; [done|].
  specialize (Hread _ eq_refl).
  destruct (Map_get (Some (fr_status response)) schemaMap ≫= Map_get ct)
    as [schemas|] eqn:S; [|done].
  destruct (rs_headers schemas) as [hs|] eqn:H.
  - destruct (validateResponseHeaders _ _ _) as [e|validated] eqn:V; [done|].
    apply validateResponseHeaders_accepts in V.
    destruct (rs_body schemas) as [bs|] eqn:B.
    + destruct (safeParse bs responseBody) as [data|] eqn:P; [|done].
      intros [= <-]. exists ct, schemas, responseBody.
      rewrite H, B. repeat split; try done.
      intros ? [= <-]. by exists validated.
    + intros [= <-]. exists ct, schemas, responseBody.
      rewrite H, B. repeat split; try done.
      intros ? [= <-]. exists validated. split; [done|]. by intros [? ?].
  - destruct (rs_body schemas) as [bs|] eqn:B.
    + destruct (safeParse bs responseBody) as [data|] eqn:P; [|done].
      intros [= <-]. exists ct, schemas, responseBody.
      rewrite H, B. repeat split; done.
    + intros [= <-]. exists ct, schemas, responseBody.
      rewrite H, B. repeat split; done.
Qed.

(** X25. What openapiFetch returns depends on whether the configuration
    of the endpoint declares responses.  Without declared responses every
    response received is returned as it is, with the empty media type,
    the raw body and the headers received, and nothing is validated.
    With declared responses, when openapiFetch returns instead of
    throwing, the status and content type received have an entry in the
    response schema map of the endpoint, every declared response header
    was read and accepted by its schema, and the returned data is the
    parsed output of the declared body schema on the body read according
    to the content type (the body as read when no body schema is
    declared). *)
Theorem client_checks_only_declared_responses endpoint response :
  match Registry.responses (config endpoint) with
  | None =>
      openapiFetch safeParse parseInt endpoint response
      = Returns (new_ClientResponse (fr_status response) "" (fr_body response)
                   response (ResponseHeaders (fr_headers response)))
  | Some _ =>
      exists schemaMap,
        extractResponseSchemaMap parseInt (config endpoint) = Some schemaMap
        /\ forall returned,
            openapiFetch safeParse parseInt endpoint response = Returns returned ->
            exists contentType schemas responseBody,
              Headers_get (fr_headers response) "content-type"
              = Some (JStr contentType)
              /\ Map_get (Some (fr_status response)) schemaMap
                   ≫= Map_get contentType
                 = Some schemas
              /\ cr_status returned = fr_status response
              /\ cr_mediaType returned = contentType
              /\ (if str_eqb contentType "application/json"
                  then fr_json response = JsonValue responseBody
                  else if String.prefix "text/" contentType
                       then responseBody = JStr (fr_text response)
                       else responseBody = fr_body response)
              /\ (forall headerSchemas,
                    rs_headers schemas = Some headerSchemas ->
                    exists validated,
                      Forall2 (fun ns kv =>
                                 kv.1 = ns.1
                                 /\ exists value,
                                     Headers_get (fr_headers response) ns.1
                                     = Some value
                                     /\ safeParse ns.2 value = ParseSuccess kv.2)
                              headerSchemas validated
                      /\ (is_Some (rs_body schemas) ->
                          cr_headers returned
                          = ValidatedHeaders (fromEntries validated)))
              /\ match rs_body schemas with
                 | Some responseBodySchema =>
                     safeParse responseBodySchema responseBody
                     = ParseSuccess (cr_data returned)
                 | None =>
                     cr_data returned = responseBody
                     /\ cr_headers returned
                        = ResponseHeaders (fr_headers response)
                 end
  end.
Proof.
  destruct (Registry.responses (config endpoint)) as [declared|] eqn:R.
  - assert (Hmap : exists schemaMap,
               extractResponseSchemaMap parseInt (config endpoint)
               = Some schemaMap).
    { unfold extractResponseSchemaMap. rewrite R. by eexists. }
    destruct Hmap as (schemaMap & Hmap). exists schemaMap. split; [done|].
    intros returned. by apply openapiFetch_with_responses.
  - unfold openapiFetch, extractResponseSchemaMap. by rewrite R.
Qed.

End WithPlatform.

End ClientFacts.

(** ** The added properties on the examples *)

Module MoreExamples.
Import Js Zod Registry RuntimeRequest RuntimeResponse Generator Endpoint Server.
Import Client Sample Spec.
Import JsFacts ServerFacts GeneratorFacts.
Import GeneratorOrderFacts DocumentFacts ConversionFacts CompositionFacts.
Import EndpointFacts RouterFacts ResponseFacts ClientFacts.
Import ConflictFacts ExtensionFacts.

Lemma registered_schema_is_documented_witness :
  exists schemaObject,
    doc_component (documentOf rawAfterGenerated) "schemas" "Foo"
    = JObj schemaObject.
Proof.
  apply (registered_schema_is_documented sampleParse [] "Foo" z_string
           rawAfterGenerated docConfig).
  - discriminate.
  - left. reflexivity.
  - vm_compute. reflexivity.
Defined.

Lemma registered_parameter_is_documented_witness :
  exists parameterObject,
    doc_component (documentOf myParam.1) "parameters" "myParam"
    = JObj parameterObject.
Proof.
  apply (registered_parameter_is_documented sampleParse [] "myParam"
           (openapi_method z_string
              {| refId := None; extendedFrom := None;
                 param := Some {| pm_in := Some header; pm_name := None;
                                  pm_rest := [] |};
                 schemaObject := [] |})
           myParam.1 docConfig).
  - discriminate.
  - left. reflexivity.
  - vm_compute. reflexivity.
Defined.

Lemma registered_route_is_documented_witness :
  exists operation responses,
    get_field "post"
      (get_field "/users/{id}" (get_field "paths" (documentOf testDefinitions)))
    = JObj operation
    /\ obj_get "responses" operation = Some (JObj responses).
Proof.
  apply (registered_route_is_documented sampleParse testRoute testDefinitions
           docConfig).
  - do 4 right. left. reflexivity.
  - vm_compute. reflexivity.
Defined.

Lemma registered_body_schema_is_referenced_witness :
  get_field "schema"
    (get_field "application/json"
       (get_field "content"
          (get_field "requestBody"
             (get_field "post"
                (get_field "/users/{id}"
                   (get_field "paths" (documentOf testDefinitions)))))))
  = JObj [("$ref", JStr "#/components/schemas/User")].
Proof.
  apply (registered_body_schema_is_referenced sampleParse testSword.1 "User"
           (z_object
              [("id",
                zsNumber
                  (openapi_method
                     (ZodNumber no_def [nk_int; nk_min 1 true; nk_max 9999 true])
                     (with_schemaObject [("example", JNum 1212121)])));
               ("name",
                openapi_method z_string
                  (with_schemaObject [("example", JStr "John Doe")]));
               ("age",
                openapi_method (ZodNumber no_def [nk_min 1 true; nk_max 200 true])
                  (with_schemaObject [("example", JNum 42)]));
               ("gender", ZodEnum no_def ["male"; "female"; "unknown"]);
               ("weapon",
                ZodDiscriminatedUnion no_def "type"
                  [testSword.2;
                   z_object [("type", ZodLiteral no_def (JStr "bow"));
                             ("bow", z_object [("range", z_number)])]])])
           testDefinitions testRoute
           {| body := Some {| rb_content := [("application/json", IsZod testUser.2)];
                              rb_rest := [] |};
              params := Some
                [("id", describe positiveInt
                          "The user ID, must be a positive integer")];
              query := Some [("dryRun", zsBoolean z_boolean)];
              headers := Some
                [("x-some-uuid",
                  describe (ZodString no_def [ck_uuid; ck_min 1]) "Some UUID");
                 ("x-some-date", testDateTime.2)] |}
           {| rb_content := [("application/json", IsZod testUser.2)];
              rb_rest := [] |}
           "application/json" docConfig).
  - discriminate.
  - reflexivity.
  - right. left. reflexivity.
  - do 4 right. left. reflexivity.
  - intros route' [H|[H|[H|[H|[H|[]]]]]] _ _; try discriminate H.
    by injection H as <-.
  - reflexivity.
  - reflexivity.
  - repeat constructor. intros H. by apply elem_of_nil in H.
  - left. reflexivity.
  - vm_compute. reflexivity.
Defined.

Lemma sampleEndpoints_consistent headerName :
  endpoints_consistent (sampleEndpoints headerName).
Proof.
  unfold sampleEndpoints.
  repeat apply endpoints_consistent_endpoint. apply endpoints_consistent_empty.
Qed.

Lemma routed_endpoint_is_documented_witness :
  exists endpoint operation responses,
    endpoints_get (Server.endpoints freshRouter) "/users/list" "get"
    = Some endpoint
    /\ get_field "get"
         (get_field "/users/list"
            (get_field "paths" (documentOf (Server.registry listRouter))))
       = JObj operation
    /\ obj_get "responses" operation = Some (JObj responses)
    /\ (Registry.responses (Endpoint.config endpoint) = None ->
        responses = [("200", JObj [("description", JStr "OK")])]).
Proof.
  apply (routed_endpoint_is_documented sampleParse freshRouter get "/users/list"
           (ok_handler "usersList") None listRouter docConfig).
  - apply sampleEndpoints_consistent.
  - vm_compute. reflexivity.
  - vm_compute. reflexivity.
Defined.

Lemma parent_registrations_are_documented_witness :
  (forall route,
      In (DRoute route) (definitions parentRegistry) ->
      exists operation responses,
        get_field (method_str (zr_method route))
          (get_field (zr_path route)
             (get_field "paths" (documentOf (definitions childRegistry))))
        = JObj operation
        /\ obj_get "responses" operation = Some (JObj responses))
  /\ (forall reg refId zodSchema,
        refId <> "" ->
        In (DSchema (register reg refId zodSchema).2) (definitions parentRegistry) ->
        exists schemaObject,
          doc_component (documentOf (definitions childRegistry)) "schemas" refId
          = JObj schemaObject).
Proof.
  apply (parent_registrations_are_documented sampleParse parentRegistry
           [parentRegistry] [] docConfig).
  - left. reflexivity.
  - vm_compute. reflexivity.
Defined.

(** A nullable string with an example: the format and the pattern, which
    the conversion of a string leaves undefined, are not in the result. *)
Lemma generateSimpleSchema_has_no_nil_member_witness :
  Forall (fun kv : string * Json => isNil kv.2 = false)
         [("type", JStr "string"); ("nullable", JBool true);
          ("example", JStr "John Doe")].
Proof.
  apply (generateSimpleSchema_has_no_nil_member sampleParse 8 new_generator
           (nullable (openapi_method z_string
                        (with_schemaObject [("example", JStr "John Doe")])))).
  vm_compute. reflexivity.
Defined.

(** A passthrough object with an optional key. *)
Lemma object_schema_lists_required_keys_witness :
  let converted :=
    [("type", JStr "object");
     ("properties",
      JObj [("a", JObj [("type", JStr "string")]);
            ("b", JObj [("type", JStr "number")])]);
     ("required", JArr [JStr "a"])] in
  let required :=
    map fst (filter (fun kv => isOptionalSchema sampleParse kv.2 = false)
               [("a", z_string); ("b", optional z_number)]) in
  obj_get "type" converted = Some (JStr "object")
  /\ (exists properties,
        obj_get "properties" converted = Some (JObj properties)
        /\ keys properties = map fst [("a", z_string); ("b", optional z_number)])
  /\ obj_get "required" converted =
     match required with
     | [] => None
     | _ :: _ => Some (JArr (map JStr required))
     end
  /\ obj_get "nullable" converted = None
  /\ obj_get "additionalProperties" converted = None.
Proof.
  apply (object_schema_lists_required_keys sampleParse 12 new_generator no_def
           [("a", z_string); ("b", optional z_number)] passthrough false).
  - reflexivity.
  - vm_compute. reflexivity.
Defined.

Lemma route_parameters_follow_their_sections_witness :
  Forall2
    (fun declared parameter =>
       (exists refId,
           truthy_refId (getMetadata declared.2.2) = Some refId
           /\ is_Some (obj_get refId (paramRefs new_generator))
           /\ parameter
              = JObj [("$ref", JStr ("#/components/parameters/" ++ refId))])
       \/ (exists object,
              parameter = JObj object
              /\ obj_get "in" object = Some (JStr (location_str declared.1))
              /\ obj_get "name" object = Some (JStr declared.2.1)))
    [(Zod.path, ("id", z_string)); (Zod.query, ("page", z_number));
     (Zod.header, ("x-trace", optional z_string))]
    [JObj [("in", JStr "path"); ("name", JStr "id");
           ("schema", JObj [("type", JStr "string")]); ("required", JBool true)];
     JObj [("in", JStr "query"); ("name", JStr "page");
           ("schema", JObj [("type", JStr "number")]); ("required", JBool true)];
     JObj [("in", JStr "header"); ("name", JStr "x-trace");
           ("schema", JObj [("type", JStr "string")]); ("required", JBool false)]].
Proof.
  apply (route_parameters_follow_their_sections sampleParse new_generator
           {| body := None;
              params := Some [("id", z_string)];
              query := Some [("page", z_number)];
              headers := Some [("x-trace", optional z_string)] |}).
  vm_compute. reflexivity.
Defined.

Lemma parameter_without_location_is_rejected_witness :
  generateParameterDefinition sampleParse new_generator
    (registerParameter [] "limit" z_number).2
  = Throw (MissingParameterDataError "in" (Some "limit")).
Proof.
  apply (parameter_without_location_is_rejected sampleParse [] "limit" z_number
           new_generator).
  reflexivity.
Defined.

Lemma picked_object_is_converted_in_place_witness :
  let converted :=
    [("type", JStr "object");
     ("properties",
      JObj [("a", JObj [("type", JStr "string")]);
            ("b", JObj [("type", JStr "number")])]);
     ("required", JArr [JStr "a"; JStr "b"])] in
  obj_get "type" converted = Some (JStr "object")
  /\ obj_get "$ref" converted = None
  /\ obj_get "allOf" converted = None
  /\ exists properties,
      obj_get "properties" converted = Some (JObj properties)
      /\ keys properties = map fst [("a", z_string); ("b", z_number)].
Proof.
  apply (picked_object_is_converted_in_place sampleParse
           (fun this _ => this) (fun this _ => this)
           parentRegistration.2 [("a", JBool true); ("b", JBool true)]
           (_def parentRegistration.2) [("a", z_string); ("b", z_number)] strip
           12 afterParent).
  left. split.
  - reflexivity.
  - vm_compute. reflexivity.
Defined.

Lemma registered_schema_is_referenced_everywhere_witness :
  exists extra,
    generateSimpleSchema sampleParse 1 afterParent (optional parentRegistration.2)
    = Ok match extra with
         | [] => [("$ref", JStr "#/components/schemas/Parent")]
         | _ :: _ =>
             [("allOf",
               JArr [JObj [("$ref", JStr "#/components/schemas/Parent")];
                     JObj extra])]
         end.
Proof.
  apply (registered_schema_is_referenced_everywhere sampleParse 0 afterParent
           parentRegistration.2 "Parent"
           [("type", JStr "object");
            ("properties",
             JObj [("a", JObj [("type", JStr "string")]);
                   ("b", JObj [("type", JStr "number")])]);
            ("required", JArr [JStr "a"; JStr "b"])]).
  - vm_compute. reflexivity.
  - vm_compute. reflexivity.
  - right. left. reflexivity.
Defined.

Lemma method_rejects_duplicate_witness :
  Server.method listRouter get "/users/list" (ok_handler "again") None
  = Throw (Error "Duplicate route for the combination of method=get path=/users/list").
Proof.
  apply (method_rejects_duplicate freshRouter get "/users/list"
           (ok_handler "usersList") None listRouter (ok_handler "again") None).
  - apply sampleEndpoints_consistent.
  - vm_compute. reflexivity.
Defined.

Lemma handler_context_is_validated_witness :
  let ctx :=
    handledContext
      (handle sampleParse sampleExec (theRouter "x-some-uuid" true)
         tagsRequest connInfo).1.1 in
  (forall k v, obj_get k (ctx_params ctx) = Some v ->
     exists schema,
       In (k, schema)
          (default [] (paramSchemas (updateUserRoute "x-some-uuid")))
       /\ sampleParse schema (groups_get [("id", "abcdef")] k) = ParseSuccess v)
  /\ match bodySchema (updateUserRoute "x-some-uuid") with
     | Some bodySchema =>
         exists body, req_json tagsRequest = JsonValue body
                      /\ sampleParse bodySchema body = ParseSuccess (ctx_body ctx)
     | None => ctx_body ctx = req_body tagsRequest
     end.
Proof.
  intros ctx.
  destruct (handler_context_is_validated sampleParse sampleExec
              (theRouter "x-some-uuid" true) tagsRequest connInfo
              (theRoutes "x-some-uuid" true "PUT")
              (updateUserRoute "x-some-uuid")
              (Some [("id", "abcdef")]) ctx)
    as (Hparams & _ & _ & Hbody).
  - vm_compute. reflexivity.
  - vm_compute. reflexivity.
  - vm_compute. repeat (first [left; reflexivity | right]).
  - split; [exact Hparams | exact Hbody].
Defined.

Lemma static_route_is_matched_exactly_witness :
  exists routes route,
    routesByUppercasedMethodMap listRouter !! "GET" = Some routes
    /\ match_route sampleExec routes (req_url listRequest) = Some (route, None)
    /\ Server.path route = "/users/list"
    /\ urlPattern route = None
    /\ handler route = UserHandler (ok_handler "usersList").
Proof.
  apply (static_route_is_matched_exactly sampleExec freshRouter get
           "/users/list" (ok_handler "usersList") None listRouter
           (req_url listRequest)).
  - apply sampleEndpoints_consistent.
  - vm_compute. intros H. repeat (destruct H as [H | H]; [discriminate |]). exact H.
  - vm_compute. reflexivity.
  - reflexivity.
Defined.

Lemma document_is_generated_once_witness :
  exists response this1 this2,
    call_handler sampleParse freshRouter DocsHandler (handledContext [])
    = (Resolved response, this1)
    /\ Server.method this1 get "/users/list" (ok_handler "usersList") None
       = Generator.Ok this2
    /\ call_handler sampleParse this2 DocsHandler (handledContext [])
       = (Resolved response, this2).
Proof.
  eexists _, _, _.
  split; [vm_compute; reflexivity |].
  split; [vm_compute; reflexivity |].
  eapply (document_is_generated_once sampleParse freshRouter (handledContext [])
            _ _ get "/users/list" (ok_handler "usersList") None _
            (handledContext [])).
  - vm_compute. reflexivity.
  - vm_compute. reflexivity.
Defined.

Lemma response_schema_map_holds_declared_schemas_witness :
  exists schemaMap,
    extractResponseSchemaMap sampleParseInt getUser = Some schemaMap
    /\ Map_get (Some 200) schemaMap ≫= Map_get "application/json"
       = Some {| rs_body := Some (z_object [("name", z_string)]);
                 rs_headers := Some [("X-RateLimit-Limit", z_string)] |}.
Proof.
  destruct (response_schema_map_holds_declared_schemas sampleParseInt getUser
              (default [] (responses getUser)))
    as (schemaMap & Hmap & _ & Hget).
  - reflexivity.
  - exists schemaMap. split; [exact Hmap |].
    apply (Hget "200"
             {| rc_rest := [("description", JStr "The user")];
                rc_headers := Some
                  [("X-RateLimit-Limit",
                    {| rh_schema := IsZod z_string; rh_rest := [] |})];
                rc_content := Some
                  [("application/json", IsZod (z_object [("name", z_string)]))] |}
             [("application/json", IsZod (z_object [("name", z_string)]))]
             "application/json" (IsZod (z_object [("name", z_string)]))).
    + left. reflexivity.
    + reflexivity.
    + left. reflexivity.
    + apply (bool_decide_unpack _). vm_compute. exact I.
    + intros statusCode' response' [H | []] _. symmetry. exact H.
Defined.

Lemma client_checks_only_declared_responses_witness :
  openapiFetch sampleParse sampleParseInt healthzEndpoint healthzResponseReceived
  = Returns (new_ClientResponse 503 "" (JStr "<h1>Service Unavailable</h1>")
               healthzResponseReceived
               (ResponseHeaders [("content-type", "text/html")]))
  /\ exists returned,
      openapiFetch sampleParse sampleParseInt getUserEndpoint userResponseReceived
      = Returns returned
      /\ cr_status returned = 200
      /\ cr_mediaType returned = "application/json"
      /\ cr_data returned = goodBody.
Proof.
  split.
  - exact (client_checks_only_declared_responses sampleParse sampleParseInt
             healthzEndpoint healthzResponseReceived).
  - destruct (client_checks_only_declared_responses sampleParse sampleParseInt
                getUserEndpoint userResponseReceived)
      as (schemaMap & Hmap & Haccepted).
    eexists. split; [vm_compute; reflexivity|].
    edestruct Haccepted
      as (contentType & schemas & responseBody & Htype & Hschemas & Hstatus
          & Hmedia & _); [vm_compute; reflexivity|].
    split; [exact Hstatus|]. split; [|reflexivity].
    rewrite Hmedia. vm_compute in Htype. by injection Htype as <-.
Defined.

Lemma query_values_reach_the_router_witness :
  searchParams_getAll
    (toUrlSearchParams [("tag", JArr [JStr "a"; JStr "b"]); ("page", JNum 2)])
    "tag"
  = JArr [JStr "a"; JStr "b"]
  /\ searchParams_get
       (toUrlSearchParams [("tag", JArr [JStr "a"; JStr "b"]); ("page", JNum 2)])
       "tag"
     = JStr "a".
Proof.
  apply (query_values_reach_the_router
           [("tag", JArr [JStr "a"; JStr "b"]); ("page", JNum 2)] "tag").
  apply (bool_decide_unpack _). vm_compute. exact I.
Defined.

(** [myParam], registered with location [header] in a registry that also
    holds the definitions of the test, and referenced in the query section
    of [queryRoute]: the generation fails on the conflict of locations. *)
Lemma C8_witness :
  exists message values,
    generateDocument sampleParse conflictingDefinitions docConfig
    = Throw (ConflictError message "in" values)
    /\ In (JStr "header") values
    /\ In (JStr "query") values.
Proof.
  destruct (C8_parameter_reference_conflicts sampleParse myParam.2 "myParam"
              {| pm_in := Some header; pm_name := Some "myParam"; pm_rest := [] |}
              header "myParam" conflictingDefinitions docConfig)
    as (_ & _ & H).
  - vm_compute; reflexivity.
  - vm_compute; reflexivity.
  - reflexivity.
  - reflexivity.
  - left. reflexivity.
  - destruct (H (firstn 6 (sortDefinitions conflictingDefinitions)) queryRoute []
                (match forEach_generateSingle sampleParse new_generator
                         (firstn 6 (sortDefinitions conflictingDefinitions)) with
                 | Ok this => this
                 | Throw _ => new_generator
                 end)
                {| body := None; params := None;
                   query := Some [("myParam", myParam.2)]; headers := None |}
                [] [] Zod.query "myParam" []) as [Hin _].
    + vm_compute; reflexivity.
    + vm_compute; reflexivity.
    + reflexivity.
    + reflexivity.
    + reflexivity.
    + constructor.
    + apply Hin. discriminate.
Defined.

(** [Child] extends [Parent], which is registered before it. *)
Lemma extended_object_needs_registered_parent_witness :
  exists registered before after,
    childRegistration.1
    = (before ++ DSchema childRegistration.2 :: after)%list
    /\ In (DSchema registered) before
    /\ truthy_refId (getMetadata registered) = Some "Parent".
Proof.
  destruct (extended_object_needs_registered_parent sampleParse
              childRegistration.1 docConfig (_def childRegistration.2)
              [("a", z_string); ("b", z_number); ("c", z_boolean)] strip
              {| refId := Some "Child"; extendedFrom := Some "Parent";
                 param := Some {| pm_in := None; pm_name := None;
                                  pm_rest := [] |};
                 schemaObject := [] |}
              "Child" "Parent") as [H _].
  - reflexivity.
  - reflexivity.
  - reflexivity.
  - discriminate.
  - vm_compute. reflexivity.
  - vm_compute. reflexivity.
  - reflexivity.
  - right. left. reflexivity.
  - intros schema' [Hs|[Hs|[]]] Hr; injection Hs as <-.
    + vm_compute in Hr. discriminate.
    + reflexivity.
  - apply (H (documentOf childRegistration.1)). vm_compute. reflexivity.
Defined.

End MoreExamples.
